(** * Hass.io data update coordinator

    A shallow embedding of [HassioDataUpdateCoordinator] and of the device
    registration helpers of [homeassistant/components/hassio/__init__.py],
    with the properties of its polling cycle.

    Python dictionaries are finite maps ([gmap]), Python sets are finite sets
    ([gset]), JSON payloads of the Supervisor API are values of [value].
    Exceptions, the mutable state reachable from the coordinator and the
    calls it issues are explicit: a computation maps a [World] to an outcome,
    a new [World] and the list of events it produced. *)

From stdpp Require Import gmap strings list fin_maps.
From Stdlib Require Import ZArith Ascii.

Local Open Scope string_scope.
Set Warnings "-register-all,-clear-no-such-hyp".

(** ** Python values *)

(** The payloads the Supervisor returns ([dict[str, Any]]). *)
Inductive value : Type :=
| VNone
| VBool (b : bool)
| VInt (z : Z)
| VStr (s : string)
| VList (l : list value)
| VDict (d : gmap string value).

Abbreviation dict := (gmap string value).

(** Truth value of an object, as [or] and [if] test it. *)
Definition truthy (v : value) : bool :=
  match v with
  | VNone => false
  | VBool b => b
  | VInt z => negb (z =? 0)%Z
  | VStr s => negb (String.eqb s "")
  | VList l => match l with [] => false | _ :: _ => true end
  | VDict d => negb (bool_decide (dom d = (∅ : gset string)))
  end.

(** [a or b] *)
Definition py_or (a b : value) : value := if truthy a then a else b.

(** [d.get(k)]: [None] when the key is missing. *)
Definition dict_get (d : dict) (k : string) : value := default VNone (d !! k).

(** [{**a, **b}]: the entries of [b] win. *)
Definition dict_merge (a b : dict) : dict := b ∪ a.

(** ** Exceptions and computations *)

Inductive exn : Type :=
| HassioAPIError (msg : string)
| UpdateFailed (msg : string)
| KeyError (key : string)
| TypeError
| AttributeError.

Inductive outcome (A : Type) : Type :=
| Return (a : A)
| Raise (e : exn).
Arguments Return {A} a.
Arguments Raise {A} e.

(** What a call of the remote client answers: a payload, or a
    [HassioAPIError] with its message. *)
Inductive api_result (A : Type) : Type :=
| ApiOk (a : A)
| ApiError (msg : string).
Arguments ApiOk {A} a.
Arguments ApiError {A} msg.

(** The endpoints of the remote client ([HassIO]). *)
Inductive Endpoint : Type :=
| EP_info
| EP_core_info
| EP_supervisor_info
| EP_os_info
| EP_core_stats
| EP_supervisor_stats
| EP_addon_stats (slug : string)
| EP_addon_changelog (slug : string)
| EP_addon_info (slug : string)
| EP_refresh_updates.

(** Observable events of a computation, in the order they are produced. *)
Inductive Event : Type :=
| Call (ep : Endpoint)                 (* a request sent to the Supervisor *)
| LogWarning (msg : string)            (* _LOGGER.warning *)
| LogError (msg : string)              (* the base coordinator's logger.error *)
| ReloadEntry (entry_id : string).     (* task: config_entries.async_reload *)

#[global] Instance Endpoint_eq_dec : EqDecision Endpoint.
Proof. solve_decision. Defined.
#[global] Instance Event_eq_dec : EqDecision Event.
Proof. solve_decision. Defined.

(** The answers of the Supervisor during one cycle. *)
Module HassIO.
Record t : Type := mk {
  get_info : api_result dict;
  get_core_info : api_result dict;
  get_supervisor_info : api_result dict;
  get_os_info : api_result dict;
  get_core_stats : api_result dict;
  get_supervisor_stats : api_result dict;
  get_addon_stats : string → api_result dict;
  get_addon_changelog : string → api_result string;
  get_addon_info : string → api_result dict;
  refresh_updates : api_result unit
}.
End HassIO.

(** ** Constants *)

(** Modelled from the spec: the string constants of [const.py], which is not
    among the sources; the values are the ones that module gives them, and
    the three data kinds and the two container names are pairwise distinct
    as the spec's enumeration requires. *)
Definition DOMAIN := "hassio".
Definition ATTR_SLUG := "slug".
Definition ATTR_STATE := "state".
Definition ATTR_STARTED := "started".
Definition ATTR_VERSION := "version".
Definition ATTR_NAME := "name".
Definition ATTR_URL := "url".
Definition ATTR_REPOSITORY := "repository".
Definition ATTR_AUTO_UPDATE := "auto_update".
Definition ATTR_CHANGELOG := "changelog".
Definition CONTAINER_STATS := "stats".
Definition CONTAINER_CHANGELOG := "changelog".
Definition CONTAINER_INFO := "info".
Definition CORE_CONTAINER := "homeassistant".
Definition SUPERVISOR_CONTAINER := "hassio_supervisor".

Module SupervisorEntityModel.
Definition ADDON := "Home Assistant Add-on".
Definition OS := "Home Assistant Operating System".
Definition CORE := "Home Assistant Core".
Definition SUPERVIOSR := "Home Assistant Supervisor".
Definition HOST := "Home Assistant Host".
End SupervisorEntityModel.

(** Keys of [hass.data]. *)
Definition DATA_CORE_INFO := "hassio_core_info".
Definition DATA_CORE_STATS := "hassio_core_stats".
Definition DATA_HOST_INFO := "hassio_host_info".
Definition DATA_STORE := "hassio_store".
Definition DATA_INFO := "hassio_info".
Definition DATA_OS_INFO := "hassio_os_info".
Definition DATA_SUPERVISOR_INFO := "hassio_supervisor_info".
Definition DATA_SUPERVISOR_STATS := "hassio_supervisor_stats".
Definition DATA_ADDONS_CHANGELOGS := "hassio_addons_changelogs".
Definition DATA_ADDONS_INFO := "hassio_addons_info".
Definition DATA_ADDONS_STATS := "hassio_addons_stats".

(** ** The state the coordinator works on *)

(** Modelled from the spec: the device directory
    ([homeassistant.helpers.device_registry] is not among the sources), a
    key-value store of device records. A device is keyed by its identifier
    [(domain, identity)], which is also the id [async_remove_device] takes;
    [async_get_device] is the lookup of that key. *)
Record DeviceEntry : Type := mkDevice {
  config_entries : gset string;
  model : option string;
  sw_version : option value;
  name : option value;
  manufacturer : option value;
  configuration_url : option string
}.

(** The data of one cycle ([new_data]); the fields are its keys.
    [DATA_KEY_OS] is only set on installations with an OS layer, to what
    [get_os_info] gives (possibly [None]). *)
Record Snapshot : Type := mkSnapshot {
  addons : gmap string dict;           (* DATA_KEY_ADDONS *)
  os : option (option dict);           (* DATA_KEY_OS *)
  core : dict;                         (* DATA_KEY_CORE *)
  supervisor : dict;                   (* DATA_KEY_SUPERVISOR *)
  host : dict                          (* DATA_KEY_HOST *)
}.

Record World : Type := mkWorld {
  hass_data : gmap string dict;                       (* hass.data *)
  devices : gmap (string * string) DeviceEntry;       (* dev_reg.devices *)
  data : option Snapshot;                             (* self.data; None is {} *)
  entry_id : string;                                  (* self.entry_id *)
  is_hass_os : bool;                                  (* self.is_hass_os *)
  container_updates : gmap string (gmap string (gset string))
                                                      (* self._container_updates *)
}.

Definition set_hass_data (f : gmap string dict → gmap string dict) (w : World) : World :=
  mkWorld (f (hass_data w)) (devices w) (data w) (entry_id w) (is_hass_os w)
          (container_updates w).
Definition set_devices
    (f : gmap (string * string) DeviceEntry → gmap (string * string) DeviceEntry)
    (w : World) : World :=
  mkWorld (hass_data w) (f (devices w)) (data w) (entry_id w) (is_hass_os w)
          (container_updates w).
Definition set_data (d : option Snapshot) (w : World) : World :=
  mkWorld (hass_data w) (devices w) d (entry_id w) (is_hass_os w)
          (container_updates w).
Definition set_container_updates
    (f : gmap string (gmap string (gset string)) → gmap string (gmap string (gset string)))
    (w : World) : World :=
  mkWorld (hass_data w) (devices w) (data w) (entry_id w) (is_hass_os w)
          (f (container_updates w)).

(** A computation: outcome, final state, events produced. *)
Record Run (A : Type) : Type := mkRun {
  out : outcome A;
  post : World;
  events : list Event
}.
Arguments mkRun {A} out post events.
Arguments out {A} r.
Arguments post {A} r.
Arguments events {A} r.

Definition M (A : Type) : Type := World → Run A.

Definition ret {A} (a : A) : M A := λ w, mkRun (Return a) w [].
Definition raise {A} (e : exn) : M A := λ w, mkRun (Raise e) w [].
Definition bind {A B} (m : M A) (k : A → M B) : M B := λ w,
  let r := m w in
  match out r with
  | Return a => let r' := k a (post r) in
                mkRun (out r') (post r') (events r ++ events r')
  | Raise e => mkRun (Raise e) (post r) (events r)
  end.
Definition emit (e : Event) : M unit := λ w, mkRun (Return tt) w [e].
Definition get_world : M World := λ w, mkRun (Return w) w [].
Definition modify (f : World → World) : M unit := λ w, mkRun (Return tt) (f w) [].
(** Lift a pure step that may raise. *)
Definition lift {A} (o : outcome A) : M A := λ w, mkRun o w [].

#[global] Instance M_ret : MRet M := @ret.
#[global] Instance M_bind : MBind M := λ A B k m, bind m k.

(** [for x in l: body x]; stops at the first exception. *)
Fixpoint for_each {A} (l : list A) (body : A → M unit) : M unit :=
  match l with
  | [] => ret tt
  | x :: l' => bind (body x) (λ _, for_each l' body)
  end.

(** [body] for each element, collecting the results. *)
Fixpoint map_M {A B} (f : A → outcome B) (l : list A) : outcome (list B) :=
  match l with
  | [] => Return []
  | x :: l' =>
      match f x with
      | Raise e => Raise e
      | Return y =>
          match map_M f l' with
          | Raise e => Raise e
          | Return ys => Return (y :: ys)
          end
      end
  end.

(** [try: m  except HassioAPIError as err: handler err] *)
Definition try_except_api {A} (m : M A) (handler : string → M A) : M A := λ w,
  let r := m w in
  match out r with
  | Raise (HassioAPIError err) =>
      let r' := handler err (post r) in
      mkRun (out r') (post r') (events r ++ events r')
  | _ => r
  end.

(** ** Reading payloads *)

(** [v[k]] on a payload that should be a dictionary. *)
Definition subscript (v : value) (k : string) : outcome value :=
  match v with
  | VDict d => match d !! k with
               | Some x => Return x
               | None => Raise (KeyError k)
               end
  | _ => Raise TypeError
  end.

(** Slugs are strings ([all_addons: list[str]], [slug: str]); a slug of
    another type is outside the declared input and is refused here. *)
Definition as_str (v : value) : outcome string :=
  match v with
  | VStr s => Return s
  | _ => Raise TypeError
  end.

(** [v == s] for a string constant [s]. *)
Definition eq_str (v : value) (s : string) : bool :=
  match v with
  | VStr s' => String.eqb s' s
  | _ => false
  end.

Fixpoint chars (s : string) : list value :=
  match s with
  | EmptyString => []
  | String c s' => VStr (String c EmptyString) :: chars s'
  end.

(** [for x in v]: the elements of a list, the keys of a dictionary, the
    characters of a string; other objects are not iterable. *)
Definition iterate (v : value) : outcome (list value) :=
  match v with
  | VList l => Return l
  | VDict d => Return (VStr <$> (map_to_list d).*1)
  | VStr s => Return (chars s)
  | _ => Raise TypeError
  end.

(** ** The interest registry ([_container_updates]) *)

(** [self._container_updates[slug]]: the [defaultdict] answers an empty
    dictionary for a slug it has not seen. (Python also stores that empty
    dictionary; no lookup can tell it from a missing one.) *)
Definition enabled_updates_of
    (cu : gmap string (gmap string (gset string))) (slug : string)
    : gmap string (gset string) :=
  default ∅ (cu !! slug).

(** [enabled_updates[key]] of the inner [defaultdict(set)]. *)
Definition subscribers_of (eu : gmap string (gset string)) (key : string) : gset string :=
  default ∅ (eu !! key).

(** [enabled_key in container_updates[slug]]: membership of the KEY in the
    inner dictionary. *)
Definition is_enabled
    (cu : gmap string (gmap string (gset string))) (enabled_key slug : string) : bool :=
  bool_decide (enabled_key ∈ dom (enabled_updates_of cu slug)).

(** The closure [_remove] returned by [async_enable_container_updates]: the
    variables it captures. [enabled_updates] is the inner dictionary of
    [rm_slug], an object that is never replaced. *)
Record RemoveHandle : Type := mkHandle {
  rm_slug : string;
  rm_entity_id : string;
  rm_types : gset string
}.

(** [for key in types: enabled_updates[key].add(entity_id)] *)
Definition add_keys (entity_id : string) (keys : list string)
    (eu : gmap string (gset string)) : gmap string (gset string) :=
  foldl (λ eu key, <[key := subscribers_of eu key ∪ {[entity_id]}]> eu) eu keys.

(** [for key in types: enabled_updates[key].remove(entity_id)];
    [set.remove] raises [KeyError] when the element is missing. *)
Fixpoint remove_keys (entity_id : string) (keys : list string)
    (eu : gmap string (gset string)) : outcome unit * gmap string (gset string) :=
  match keys with
  | [] => (Return tt, eu)
  | key :: keys' =>
      let s := subscribers_of eu key in
      if bool_decide (entity_id ∈ s)
      then remove_keys entity_id keys' (<[key := s ∖ {[entity_id]}]> eu)
      else (Raise (KeyError entity_id), <[key := s]> eu)
  end.

(** The set [types] is walked in the order [elements] lists it; when no
    exception is raised the result does not depend on that order. *)
Definition async_enable_container_updates
    (slug entity_id : string) (types : gset string) : M RemoveHandle := λ w,
  let enabled_updates := enabled_updates_of (container_updates w) slug in
  mkRun (Return (mkHandle slug entity_id types))
        (set_container_updates
           (insert slug (add_keys entity_id (elements types) enabled_updates)) w)
        [].

Definition _remove (h : RemoveHandle) : M unit := λ w,
  let enabled_updates := enabled_updates_of (container_updates w) (rm_slug h) in
  let r := remove_keys (rm_entity_id h) (elements (rm_types h)) enabled_updates in
  mkRun r.1 (set_container_updates (insert (rm_slug h) r.2) w) [].

(** ** Fetching: [force_data_refresh] *)

Definition api_outcome {A} (r : api_result A) : outcome A :=
  match r with
  | ApiOk a => Return a
  | ApiError msg => Raise (HassioAPIError msg)
  end.

(** [await asyncio.gather] on requests to the Supervisor: every
    request is sent; if one fails its exception is raised and no result is
    handed over. (With several failures Python raises the one that happens
    first; here it is the first in argument order, only the message differs.) *)
Definition gather {A} (calls : list (Endpoint * api_result A)) : M (list A) := λ w,
  mkRun (map_M (λ c, api_outcome c.2) calls) w (Call <$> calls.*1).

(** [await asyncio.gather] on coroutines of this module, which are
    run one after the other. *)
Fixpoint gather_all {A} (coros : list (M A)) : M (list A) :=
  match coros with
  | [] => ret []
  | c :: coros' => bind c (λ x, bind (gather_all coros') (λ xs, ret (x :: xs)))
  end.

(** [await hassio.<endpoint>(...)]: one request. *)
Definition request {A} (ep : Endpoint) (r : api_result A) : M A := λ w,
  mkRun (api_outcome r) w [Call ep].

Definition _update_addon_stats (hassio : HassIO.t) (slug : string) : M (string * value) :=
  try_except_api
    (stats ← request (EP_addon_stats slug) (HassIO.get_addon_stats hassio slug);
     ret (slug, VDict stats))
    (λ err,
       emit (LogWarning ("Could not fetch stats for " +:+ slug +:+ ": " +:+ err));;
       ret (slug, VNone)).

Definition _update_addon_changelog (hassio : HassIO.t) (slug : string) : M (string * value) :=
  try_except_api
    (changelog ← request (EP_addon_changelog slug) (HassIO.get_addon_changelog hassio slug);
     ret (slug, VStr changelog))
    (λ err,
       emit (LogWarning ("Could not fetch changelog for " +:+ slug +:+ ": " +:+ err));;
       ret (slug, VNone)).

Definition _update_addon_info (hassio : HassIO.t) (slug : string) : M (string * value) :=
  try_except_api
    (info ← request (EP_addon_info slug) (HassIO.get_addon_info hassio slug);
     ret (slug, VDict info))
    (λ err,
       emit (LogWarning ("Could not fetch info for " +:+ slug +:+ ": " +:+ err));;
       ret (slug, VNone)).

(** The loop over [_addon_data] that fills [all_addons] and
    [started_addons]. *)
Fixpoint split_addons (_addon_data : list value) : outcome (list string * list string) :=
  match _addon_data with
  | [] => Return ([], [])
  | addon :: rest =>
      match subscript addon ATTR_SLUG with
      | Raise e => Raise e
      | Return v =>
          match as_str v with
          | Raise e => Raise e
          | Return slug =>
              match subscript addon ATTR_STATE with
              | Raise e => Raise e
              | Return state =>
                  match split_addons rest with
                  | Raise e => Raise e
                  | Return (all_addons, started_addons) =>
                      Return (slug :: all_addons,
                              if eq_str state ATTR_STARTED
                              then slug :: started_addons
                              else started_addons)
                  end
              end
          end
      end
  end.

(** [[slug for slug in wanted_addons
      if first_update or enabled_key in container_updates[slug]]] *)
Definition targets (first_update : bool)
    (cu : gmap string (gmap string (gset string)))
    (enabled_key : string) (wanted_addons : list string) : list string :=
  filter (λ slug, first_update || is_enabled cu enabled_key slug = true) wanted_addons.

(** [container_data.update(dict(pairs))] *)
Definition dict_update (container_data : dict) (pairs : list (string * value)) : dict :=
  foldl (λ d p, <[p.1 := p.2]> d) container_data pairs.

(** The primary requests of a cycle, keyed by the [hass.data] key their
    result goes to ([updates]). *)
Definition updates (hassio : HassIO.t) (first_update : bool)
    (cu : gmap string (gmap string (gset string)))
    : list (string * (Endpoint * api_result dict)) :=
  [ (DATA_INFO, (EP_info, HassIO.get_info hassio));
    (DATA_CORE_INFO, (EP_core_info, HassIO.get_core_info hassio));
    (DATA_SUPERVISOR_INFO, (EP_supervisor_info, HassIO.get_supervisor_info hassio));
    (DATA_OS_INFO, (EP_os_info, HassIO.get_os_info hassio)) ]
  ++ (if first_update || is_enabled cu CONTAINER_STATS CORE_CONTAINER
      then [(DATA_CORE_STATS, (EP_core_stats, HassIO.get_core_stats hassio))]
      else [])
  ++ (if first_update || is_enabled cu CONTAINER_STATS SUPERVISOR_CONTAINER
      then [(DATA_SUPERVISOR_STATS,
             (EP_supervisor_stats, HassIO.get_supervisor_stats hassio))]
      else []).

(** One round of the loop over the three per-add-on stores. *)
Definition update_addons (first_update : bool)
    (data_key : string) (update_func : string → M (string * value))
    (enabled_key : string) (wanted_addons : list string) : M unit :=
  w ← get_world;
  pairs ← gather_all
            (update_func <$> targets first_update (container_updates w)
                                     enabled_key wanted_addons);
  modify (set_hass_data (λ data,
            <[data_key := dict_update (default ∅ (data !! data_key)) pairs]> data)).

Definition force_data_refresh (hassio : HassIO.t) (first_update : bool) : M unit :=
  w ← get_world;
  let updates := updates hassio first_update (container_updates w) in
  results ← gather updates.*2;
  modify (set_hass_data (λ data,
            foldl (λ d kr, <[kr.1 := kr.2]> d) data (zip updates.*1 results)));;
  w ← get_world;
  _addon_data ← lift (iterate (default (VList [])
                        (default ∅ (hass_data w !! DATA_SUPERVISOR_INFO) !! "addons")));
  lists ← lift (split_addons _addon_data);
  let all_addons := lists.1 in
  let started_addons := lists.2 in
  update_addons first_update DATA_ADDONS_STATS (_update_addon_stats hassio)
                CONTAINER_STATS started_addons;;
  update_addons first_update DATA_ADDONS_CHANGELOGS (_update_addon_changelog hassio)
                CONTAINER_CHANGELOG all_addons;;
  update_addons first_update DATA_ADDONS_INFO (_update_addon_info hassio)
                CONTAINER_INFO all_addons.

(** ** The getters of the module, which read [hass.data] *)

Definition get_info (w : World) : option dict := hass_data w !! DATA_INFO.
Definition get_host_info (w : World) : option dict := hass_data w !! DATA_HOST_INFO.
Definition get_store (w : World) : option dict := hass_data w !! DATA_STORE.
Definition get_supervisor_info (w : World) : option dict :=
  hass_data w !! DATA_SUPERVISOR_INFO.
Definition get_addons_info (w : World) : option dict := hass_data w !! DATA_ADDONS_INFO.
Definition get_addons_stats (w : World) : option dict := hass_data w !! DATA_ADDONS_STATS.
Definition get_core_stats (w : World) : option dict := hass_data w !! DATA_CORE_STATS.
Definition get_supervisor_stats (w : World) : option dict :=
  hass_data w !! DATA_SUPERVISOR_STATS.
Definition get_addons_changelogs (w : World) : option dict :=
  hass_data w !! DATA_ADDONS_CHANGELOGS.
Definition get_os_info (w : World) : option dict := hass_data w !! DATA_OS_INFO.
Definition get_core_info (w : World) : option dict := hass_data w !! DATA_CORE_INFO.

(** ** Merging: the data of a cycle *)

(** [**v] inside a dictionary display: [v] has to be a mapping. *)
Definition unpack (v : value) : outcome dict :=
  match v with
  | VDict d => Return d
  | _ => Raise TypeError
  end.

(** [v.get(k, dflt)]: only dictionaries have [get]. *)
Definition get_or (v : value) (k : string) (dflt : value) : outcome value :=
  match v with
  | VDict d => Return (default dflt (d !! k))
  | _ => Raise AttributeError
  end.

(** [{repo[ATTR_SLUG]: repo[ATTR_NAME] for repo in ...}], filled from the
    left, a later entry replacing an earlier one with the same slug; the
    slugs of repositories are strings. *)
Fixpoint repositories_of (repos : list value) (acc : gmap string value)
    : outcome (gmap string value) :=
  match repos with
  | [] => Return acc
  | repo :: rest =>
      match subscript repo ATTR_SLUG with
      | Raise e => Raise e
      | Return k =>
          match subscript repo ATTR_NAME with
          | Raise e => Raise e
          | Return name =>
              match as_str k with
              | Raise e => Raise e
              | Return slug => repositories_of rest (<[slug := name]> acc)
              end
          end
      end
  end.

(** [repositories.get(key, dflt)]; lists and dictionaries are not hashable. *)
Definition repositories_get (repositories : gmap string value)
    (key dflt : value) : outcome value :=
  match key with
  | VStr s => Return (default dflt (repositories !! s))
  | VList _ | VDict _ => Raise TypeError
  | _ => Return dflt
  end.

(** One entry of the comprehension that builds [new_data[DATA_KEY_ADDONS]]:
    the key and the merged record of [addon]. *)
Definition addon_record
    (addons_stats addons_info addons_changelogs : dict)
    (repositories : gmap string value) (addon : value) : outcome (string * dict) :=
  match subscript addon ATTR_SLUG with
  | Raise e => Raise e
  | Return k =>
  match as_str k with
  | Raise e => Raise e
  | Return slug =>
  match unpack addon with
  | Raise e => Raise e
  | Return addon_d =>
  match unpack (py_or (dict_get addons_stats slug) (VDict ∅)) with
  | Raise e => Raise e
  | Return stats =>
  match get_or (py_or (dict_get addons_info slug) (VDict ∅))
               ATTR_AUTO_UPDATE (VBool false) with
  | Raise e => Raise e
  | Return auto_update =>
  match repositories_get repositories (dict_get addon_d ATTR_REPOSITORY)
                         (default (VStr "") (addon_d !! ATTR_REPOSITORY)) with
  | Raise e => Raise e
  | Return repository =>
      Return (slug,
              <[ATTR_REPOSITORY := repository]>
                (<[ATTR_CHANGELOG := dict_get addons_changelogs slug]>
                   (<[ATTR_AUTO_UPDATE := auto_update]>
                      (dict_merge addon_d stats))))
  end end end end end end.

(** [dict(pairs)] for the comprehension: a later entry replaces an earlier
    one with the same key. *)
Definition addons_dict (pairs : list (string * dict)) : gmap string dict :=
  foldl (λ m p, <[p.1 := p.2]> m) ∅ pairs.

(** [{**a, **b}] where [b] comes from [hass.data.get]: [None] cannot be
    unpacked. *)
Definition merge_required (a : dict) (b : option dict) : outcome dict :=
  match b with
  | Some b => Return (dict_merge a b)
  | None => Raise TypeError
  end.

(** The part of [_async_update_data] that assembles [new_data] from
    [hass.data]. *)
Definition build_new_data (w : World) : outcome Snapshot :=
  let supervisor_info := default ∅ (get_supervisor_info w) in
  let addons_info := default ∅ (get_addons_info w) in
  let addons_stats := get_addons_stats w in
  let addons_changelogs := get_addons_changelogs w in
  let store_data := default ∅ (get_store w) in
  match iterate (default (VList []) (store_data !! "repositories")) with
  | Raise e => Raise e
  | Return repos =>
  match repositories_of repos ∅ with
  | Raise e => Raise e
  | Return repositories =>
  match iterate (default (VList []) (supervisor_info !! "addons")) with
  | Raise e => Raise e
  | Return listing =>
  match map_M (addon_record (default ∅ addons_stats) addons_info
                            (default ∅ addons_changelogs) repositories) listing with
  | Raise e => Raise e
  | Return pairs =>
  match merge_required (default ∅ (get_core_info w)) (get_core_stats w) with
  | Raise e => Raise e
  | Return core =>
  match merge_required supervisor_info (get_supervisor_stats w) with
  | Raise e => Raise e
  | Return supervisor =>
      Return {| addons := addons_dict pairs;
                os := if is_hass_os w then Some (get_os_info w) else None;
                core := core;
                supervisor := supervisor;
                host := default ∅ (get_host_info w) |}
  end end end end end end.

(** ** The device registry *)

(** The keyword arguments of [async_get_or_create] ([DeviceInfo]). *)
Record DeviceInfo : Type := mkDeviceInfo {
  di_identifier : string * string;
  di_model : string;
  di_sw_version : option value;
  di_name : value;
  di_manufacturer : option value;
  di_configuration_url : option string
}.

(** Modelled from the spec: [createEntry(ownerId, identity, attributes)] of
    the device directory, here [dev_reg.async_get_or_create]: the device with
    that identifier is created if it does not exist; the config entry is
    added to its owners and the attributes that are given are stored. *)
Definition async_get_or_create (config_entry_id : string) (params : DeviceInfo)
    (reg : gmap (string * string) DeviceEntry) : gmap (string * string) DeviceEntry :=
  let old := default (mkDevice ∅ None None None None None)
                     (reg !! di_identifier params) in
  <[di_identifier params :=
      mkDevice ({[config_entry_id]} ∪ config_entries old)
               (Some (di_model params))
               (match di_sw_version params with
                | Some v => Some v
                | None => sw_version old
                end)
               (Some (di_name params))
               (match di_manufacturer params with
                | Some v => Some v
                | None => manufacturer old
                end)
               (match di_configuration_url params with
                | Some u => Some u
                | None => configuration_url old
                end)]> reg.

(** Modelled from the spec: [getEntry(identity)], here
    [dev_reg.async_get_device(identifiers={identifier})]. *)
Definition async_get_device (identifier : string * string)
    (reg : gmap (string * string) DeviceEntry) : option DeviceEntry :=
  reg !! identifier.

(** Modelled from the spec: [removeEntry(id)], here
    [dev_reg.async_remove_device(dev.id)] for the device found under
    [identifier]. *)
Definition async_remove_device (identifier : string * string)
    (reg : gmap (string * string) DeviceEntry) : gmap (string * string) DeviceEntry :=
  delete identifier reg.

(** The parameters [async_register_addons_in_dev_reg] builds for one
    add-on. *)
Definition addon_device_info (addon : dict) : outcome DeviceInfo :=
  match subscript (VDict addon) ATTR_SLUG with
  | Raise e => Raise e
  | Return k =>
  match as_str k with
  | Raise e => Raise e
  | Return slug =>
  match subscript (VDict addon) ATTR_VERSION with
  | Raise e => Raise e
  | Return version =>
  match subscript (VDict addon) ATTR_NAME with
  | Raise e => Raise e
  | Return name =>
      let manufacturer := py_or (dict_get addon ATTR_REPOSITORY) (dict_get addon ATTR_URL) in
      Return {| di_identifier := (DOMAIN, slug);
                di_model := SupervisorEntityModel.ADDON;
                di_sw_version := Some version;
                di_name := name;
                di_manufacturer := if truthy manufacturer then Some manufacturer else None;
                di_configuration_url := Some ("homeassistant://hassio/addon/" +:+ slug) |}
  end end end end.

(** The add-ons are visited in the order [map_to_list] lists the values of
    the dictionary. *)
Definition async_register_addons_in_dev_reg (addons : list dict) : M unit :=
  for_each addons (λ addon,
    params ← lift (addon_device_info addon);
    w ← get_world;
    modify (set_devices (async_get_or_create (entry_id w) params))).

Definition async_register_os_in_dev_reg (os_dict : option dict) : M unit :=
  version ← lift (match os_dict with
                  | Some d => subscript (VDict d) ATTR_VERSION
                  | None => Raise TypeError
                  end);
  w ← get_world;
  modify (set_devices (async_get_or_create (entry_id w)
    {| di_identifier := (DOMAIN, "OS");
       di_model := SupervisorEntityModel.OS;
       di_sw_version := Some version;
       di_name := VStr "Home Assistant Operating System";
       di_manufacturer := Some (VStr "Home Assistant");
       di_configuration_url := None |})).

Definition async_register_host_in_dev_reg : M unit :=
  w ← get_world;
  modify (set_devices (async_get_or_create (entry_id w)
    {| di_identifier := (DOMAIN, "host");
       di_model := SupervisorEntityModel.HOST;
       di_sw_version := None;
       di_name := VStr "Home Assistant Host";
       di_manufacturer := Some (VStr "Home Assistant");
       di_configuration_url := None |})).

Definition async_register_core_in_dev_reg (core_dict : dict) : M unit :=
  version ← lift (subscript (VDict core_dict) ATTR_VERSION);
  w ← get_world;
  modify (set_devices (async_get_or_create (entry_id w)
    {| di_identifier := (DOMAIN, "core");
       di_model := SupervisorEntityModel.CORE;
       di_sw_version := Some version;
       di_name := VStr "Home Assistant Core";
       di_manufacturer := Some (VStr "Home Assistant");
       di_configuration_url := None |})).

Definition async_register_supervisor_in_dev_reg (supervisor_dict : dict) : M unit :=
  version ← lift (subscript (VDict supervisor_dict) ATTR_VERSION);
  w ← get_world;
  modify (set_devices (async_get_or_create (entry_id w)
    {| di_identifier := (DOMAIN, "supervisor");
       di_model := SupervisorEntityModel.SUPERVIOSR;
       di_sw_version := Some version;
       di_name := VStr "Home Assistant Supervisor";
       di_manufacturer := Some (VStr "Home Assistant");
       di_configuration_url := None |})).

(** [if dev := dev_reg.async_get_device(...): dev_reg.async_remove_device(dev.id)]
    for each slug of the set, in the order [elements] lists it (the removals
    commute). *)
Definition async_remove_addons_from_dev_reg (addons : gset string) : M unit :=
  for_each (elements addons) (λ addon_slug,
    w ← get_world;
    match async_get_device (DOMAIN, addon_slug) (devices w) with
    | Some _ => modify (set_devices (async_remove_device (DOMAIN, addon_slug)))
    | None => ret tt
    end).

(** The identities of the add-on devices this config entry owns
    ([supervisor_addon_devices]). *)
Definition supervisor_addon_devices (w : World) : gset string :=
  set_map snd
    (dom (filter (λ kd, entry_id w ∈ config_entries kd.2
                        ∧ model kd.2 = Some SupervisorEntityModel.ADDON)
                 (devices w))).

(** ** A cycle: [_async_update_data] *)

(** [# If this is the initial refresh, register all addons]: the
    registrations of the first cycle. *)
Definition register_all (new_data : Snapshot) : M unit :=
  async_register_addons_in_dev_reg (map_to_list (addons new_data)).*2;;
  async_register_core_in_dev_reg (core new_data);;
  async_register_supervisor_in_dev_reg (supervisor new_data);;
  async_register_host_in_dev_reg;;
  w ← get_world;
  if is_hass_os w
  then async_register_os_in_dev_reg (default None (os new_data))
  else ret tt.

(** [# Remove add-ons that are no longer installed from device registry] *)
Definition remove_stale_addons (new_data : Snapshot) : M unit :=
  w ← get_world;
  let stale_addons := supervisor_addon_devices w ∖ dom (addons new_data) in
  if bool_decide (stale_addons ≠ ∅)
  then async_remove_addons_from_dev_reg stale_addons
  else ret tt.

(** [# Remove the OS device if it exists and the installation is not hassos] *)
Definition remove_os_device : M unit :=
  w ← get_world;
  match negb (is_hass_os w), async_get_device (DOMAIN, "OS") (devices w) with
  | true, Some _ => modify (set_devices (async_remove_device (DOMAIN, "OS")))
  | _, _ => ret tt
  end.

(** [# If there are new add-ons, we should reload the config entry ...
    We can return an empty dict]; otherwise [return new_data]. *)
Definition answer (new_data : Snapshot) : M (option Snapshot) :=
  w ← get_world;
  match data w with
  | Some old =>
      if bool_decide (dom (addons new_data) ∖ dom (addons old) ≠ (∅ : gset string))
      then emit (ReloadEntry (entry_id w));; ret None
      else ret (Some new_data)
  | None => ret (Some new_data)
  end.

(** The part of [_async_update_data] that follows the assembly of
    [new_data]: the work on the device registry and the answer of the
    cycle. *)
Definition reconcile (is_first_update : bool) (new_data : Snapshot)
    : M (option Snapshot) :=
  (if is_first_update then register_all new_data else ret tt);;
  remove_stale_addons new_data;;
  remove_os_device;;
  answer new_data.

(** The body of [_async_update_data] once [is_first_update] is known. *)
Definition update_data_body (hassio : HassIO.t) (is_first_update : bool)
    : M (option Snapshot) :=
  try_except_api (force_data_refresh hassio is_first_update)
                 (λ err, raise (UpdateFailed ("Error on Supervisor API: " +:+ err)));;
  w ← get_world;
  new_data ← lift (build_new_data w);
  reconcile is_first_update new_data.

Definition _async_update_data (hassio : HassIO.t) : M (option Snapshot) :=
  w ← get_world;
  let is_first_update := bool_decide (data w = None) in
  update_data_body hassio is_first_update.

(** ** Refreshing *)

(** Modelled from the spec: the refresh of the base class
    ([DataUpdateCoordinator._async_refresh], not among the sources). It runs
    [_async_update_data]; the data it returns becomes the published
    snapshot; when the cycle fails the failure is reported (logged when
    [log_failures]) and the snapshot published before stays. No exception
    leaves it. *)
Definition super_async_refresh (hassio : HassIO.t) (log_failures : bool) : M unit := λ w,
  let r := _async_update_data hassio w in
  match out r with
  | Return d => mkRun (Return tt) (set_data d (post r)) (events r)
  | Raise (UpdateFailed msg) =>
      mkRun (Return tt) (post r)
            (events r ++ if log_failures
                         then [LogError ("Error fetching hassio data: " +:+ msg)]
                         else [])
  | Raise _ =>
      mkRun (Return tt) (post r)
            (events r ++ [LogError "Unexpected error fetching hassio data"])
  end.

Definition _async_refresh (hassio : HassIO.t) (log_failures scheduled : bool) : M unit :=
  (if negb scheduled then
     (* Force refreshing updates for non-scheduled updates *)
     try_except_api (request EP_refresh_updates (HassIO.refresh_updates hassio))
                    (λ err, emit (LogWarning ("Error on Supervisor API: " +:+ err)))
   else ret tt);;
  super_async_refresh hassio log_failures.

(** ** Sample runs *)

Module Samples.

Definition addon (slug state : string) : value :=
  VDict (<[ATTR_SLUG := VStr slug]>
        (<[ATTR_STATE := VStr state]>
        (<[ATTR_VERSION := VStr "1.0"]>
        (<[ATTR_NAME := VStr ("Add-on " +:+ slug)]> ∅)))).

Definition versioned : dict := {[ATTR_VERSION := VStr "2024.1"]}.

(** A Supervisor that lists [listing] and answers every request. *)
Definition supervisor_with (listing : list value) : HassIO.t :=
  HassIO.mk (ApiOk versioned) (ApiOk versioned)
            (ApiOk (<["addons" := VList listing]> versioned))
            (ApiOk versioned)
            (ApiOk {["cpu_percent" := VInt 1]}) (ApiOk {["cpu_percent" := VInt 2]})
            (λ slug, ApiOk {["cpu_percent" := VInt 3]})
            (λ slug, ApiOk ("changes of " +:+ slug))
            (λ slug, ApiOk {[ATTR_AUTO_UPDATE := VBool true]})
            (ApiOk tt).

(** The same Supervisor, except that the stats of add-on [b] cannot be read. *)
Definition flaky (listing : list value) : HassIO.t :=
  HassIO.mk (ApiOk versioned) (ApiOk versioned)
            (ApiOk (<["addons" := VList listing]> versioned))
            (ApiOk versioned)
            (ApiOk {["cpu_percent" := VInt 1]}) (ApiOk {["cpu_percent" := VInt 2]})
            (λ slug, if String.eqb slug "b" then ApiError "timeout"
                     else ApiOk {["cpu_percent" := VInt 3]})
            (λ slug, ApiOk ("changes of " +:+ slug))
            (λ slug, ApiOk {[ATTR_AUTO_UPDATE := VBool true]})
            (ApiOk tt).

(** A Supervisor whose add-on stats carry a slug of their own. *)
Definition impostor (listing : list value) : HassIO.t :=
  HassIO.mk (ApiOk versioned) (ApiOk versioned)
            (ApiOk (<["addons" := VList listing]> versioned))
            (ApiOk versioned)
            (ApiOk {["cpu_percent" := VInt 1]}) (ApiOk {["cpu_percent" := VInt 2]})
            (λ slug, ApiOk {[ATTR_SLUG := VStr "b"]})
            (λ slug, ApiOk ("changes of " +:+ slug))
            (λ slug, ApiOk {[ATTR_AUTO_UPDATE := VBool true]})
            (ApiOk tt).

(** A Supervisor that cannot be reached. *)
Definition unreachable : HassIO.t :=
  HassIO.mk (ApiError "down") (ApiError "down") (ApiError "down") (ApiError "down")
            (ApiError "down") (ApiError "down")
            (λ slug, ApiError "down") (λ slug, ApiError "down") (λ slug, ApiError "down")
            (ApiError "down").

Definition fresh : World := mkWorld ∅ ∅ None "entry" true ∅.

(** The world after the initial refresh with the add-ons [a] and [b]. *)
Definition after_first : World :=
  post (_async_refresh (supervisor_with [addon "a" "started"; addon "b" "stopped"])
                       true false fresh).

(** The world after the initial refresh, once two sensors of add-on [a]
    have subscribed to its stats. *)
Definition after_subscription : World :=
  post (async_enable_container_updates "a" "sensor.a_memory" {[CONTAINER_STATS]}
          (post (async_enable_container_updates "a" "sensor.a_cpu" {[CONTAINER_STATS]}
                   after_first))).

(** The world once the add-on [a] has been read in a first refresh of
    [hass.data], and the data assembled from it. *)
Definition refreshed : World :=
  post (force_data_refresh (supervisor_with [addon "a" "started"]) true fresh).

Definition assembled : Snapshot :=
  match build_new_data refreshed with
  | Return new_data => new_data
  | Raise _ => mkSnapshot ∅ None ∅ ∅ ∅
  end.

(** The data a first cycle with the add-on [a] answers. *)
Definition first_data : Snapshot :=
  match out (_async_update_data (supervisor_with [addon "a" "started"]) fresh) with
  | Return (Some new_data) => new_data
  | _ => mkSnapshot ∅ None ∅ ∅ ∅
  end.



End Samples.

(** ** Helpers of the module *)

(** [s.replace(old, new)] for one-character strings. *)
Fixpoint replace_char (old new : ascii) (s : string) : string :=
  match s with
  | EmptyString => EmptyString
  | String c rest =>
      String (if Ascii.eqb c old then new else c) (replace_char old new rest)
  end.

(** [addon_slug.replace("_", "-")] *)
Definition hostname_from_addon_slug (addon_slug : string) : string :=
  replace_char "_"%char "-"%char addon_slug.

(** The character class [[-_.A-Za-z0-9]]. *)
Definition slug_char (c : ascii) : bool :=
  let n := N_of_ascii c in
  (n =? 45)%N || (n =? 95)%N || (n =? 46)%N
  || ((65 <=? n)%N && (n <=? 90)%N)
  || ((97 <=? n)%N && (n <=? 122)%N)
  || ((48 <=? n)%N && (n <=? 57)%N).

(** The rest of a match of [[-_.A-Za-z0-9]+$] once a character of the class
    has been read: more characters of the class, then the end of the string
    or, as Python's [$] has it, one newline that ends the string. *)
Fixpoint slug_tail (s : string) : bool :=
  match s with
  | EmptyString => true
  | String c rest =>
      if slug_char c then slug_tail rest
      else Ascii.eqb c "010"%char && String.eqb rest ""
  end.

(** [re.compile(r"^[-_.A-Za-z0-9]+$").match(s)] finds a match. *)
Definition matches_slug (s : string) : bool :=
  match s with
  | EmptyString => false
  | String c rest => slug_char c && slug_tail rest
  end.

(** What a validator answers: the value, or [vol.Invalid] with its message. *)
Inductive validated : Type :=
| Accepted (v : string)
| Invalid (msg : string).

(** [VALID_ADDON_SLUG = vol.Match(...)]: the value itself when it is a
    string the expression matches. *)
Definition VALID_ADDON_SLUG (v : value) : validated :=
  match v with
  | VStr s => if matches_slug s then Accepted s
              else Invalid "does not match regular expression"
  | _ => Invalid "expected string or buffer"
  end.

(** [valid_addon(value)]; [hass] is the running instance [async_get_hass]
    finds, if there is one. *)
Definition valid_addon (v : value) (hass : option World) : validated :=
  match VALID_ADDON_SLUG v with
  | Invalid msg => Invalid msg
  | Accepted v =>
      match hass with
      | Some w =>
          match hass_data w !! DATA_ADDONS_INFO with
          | Some addons =>
              if bool_decide (v ∈ dom addons) then Accepted v
              else Invalid "Not a valid add-on slug"
          | None => Accepted v
          end
      | None => Accepted v
      end
  end.

(** [s.partition(sep)[0]] for a one-character separator: what precedes its
    first occurrence, the whole string when there is none. *)
Fixpoint partition_head (sep : ascii) (s : string) : string :=
  match s with
  | EmptyString => EmptyString
  | String c rest =>
      if Ascii.eqb c sep then EmptyString else String c (partition_head sep rest)
  end.

(** [get_supervisor_ip()], [environ] being [os.environ]. *)
Definition get_supervisor_ip (environ : gmap string string) : option string :=
  match environ !! "SUPERVISOR" with
  | None => None
  | Some v => Some (partition_head ":"%char v)
  end.

(** ** The set-up of the component: the closures of [async_setup] *)

(** What these closures do to the outside, in the order they do it. The
    command of a service is kept as its template and the two arguments
    [str.format] is given. *)
Inductive SetupEvent : Type :=
| Fetch (endpoint : string)               (* hassio.get_<endpoint>() *)
| LogSetupError (msg : string)            (* _LOGGER.error *)
| LogSetupWarning (msg : string)          (* _LOGGER.warning *)
| RemoveEntry (entry_id : string)         (* task: config_entries.async_remove *)
| CallLater (job : string)                (* async_call_later(hass, interval, job) *)
| UpdateTimezone (timezone : string)      (* hassio.update_hass_timezone *)
| SendCommand (template : string) (addon slug payload : value)
              (timeout : option nat)      (* hassio.send_command *)
| FlowInit (handler : string).            (* task: config_entries.flow.async_init *)

(** The check of the environment that opens [async_setup]: [None] when both
    variables are set (the set-up goes on), otherwise what is done before
    [return False]. [entries] are the ids of the config entries of the
    domain. *)
Fixpoint check_environment (names : list string) (environ : gmap string string)
    (entries : list string) : option (list SetupEvent) :=
  match names with
  | [] => None
  | env :: names' =>
      if negb (String.eqb (default "" (environ !! env)) "")
      then check_environment names' environ entries
      else Some (LogSetupError ("Missing " +:+ env +:+ " environment variable")
                 :: match entries with
                    | [] => []
                    | entry :: _ => [RemoveEntry entry]
                    end)
  end.

Definition check_local_setup (environ : gmap string string) (entries : list string)
    : option (list SetupEvent) :=
  check_environment ["SUPERVISOR"; "SUPERVISOR_TOKEN"] environ entries.

(** [await asyncio.gather] on requests: all the answers, or the error of the
    first request that failed. *)
Fixpoint gather_answers {A} (answers : list (api_result A)) : api_result (list A) :=
  match answers with
  | [] => ApiOk []
  | ApiError msg :: _ => ApiError msg
  | ApiOk a :: rest =>
      match gather_answers rest with
      | ApiOk l => ApiOk (a :: l)
      | ApiError msg => ApiError msg
      end
  end.

(** The six requests of [update_info_data], with the key of [hass.data]
    each answer is assigned to. *)
Record InfoAnswers : Type := mkInfoAnswers {
  answer_info : api_result dict;
  answer_host_info : api_result dict;
  answer_store : api_result dict;
  answer_core_info : api_result dict;
  answer_supervisor_info : api_result dict;
  answer_os_info : api_result dict
}.

Definition info_requests (answers : InfoAnswers)
    : list (string * (string * api_result dict)) :=
  [ (DATA_INFO, ("info", answer_info answers));
    (DATA_HOST_INFO, ("host_info", answer_host_info answers));
    (DATA_STORE, ("store", answer_store answers));
    (DATA_CORE_INFO, ("core_info", answer_core_info answers));
    (DATA_SUPERVISOR_INFO, ("supervisor_info", answer_supervisor_info answers));
    (DATA_OS_INFO, ("os_info", answer_os_info answers)) ].

(** [update_info_data]: the tuple assignment takes place only when
    [gather] has returned; the next run is scheduled in either case. *)
Definition update_info_data (answers : InfoAnswers) (data : gmap string dict)
    : gmap string dict * list SetupEvent :=
  let requests := info_requests answers in
  let sent : list SetupEvent := Fetch <$> requests.*2.*1 in
  match gather_answers requests.*2.*2 with
  | ApiOk results =>
      (foldl (λ d kr, <[kr.1 := kr.2]> d) data (zip requests.*1 results),
       (sent ++ [CallLater "update_info_data"])%list)
  | ApiError err =>
      (data,
       (sent ++ [LogSetupWarning ("Can't read Supervisor data: " +:+ err);
                 CallLater "update_info_data"])%list)
  end.

(** [push_config]: [last_timezone] is the variable of [async_setup] the
    closure shares between its runs; it is assigned before the request is
    awaited. (The [HassioAPIError] of the request is not caught here.) *)
Definition push_config (new_timezone : string) (answer : api_result unit)
    (last_timezone : option string)
    : outcome unit * option string * list SetupEvent :=
  if bool_decide (Some new_timezone = last_timezone)
  then (Return tt, last_timezone, [])
  else (api_outcome answer, Some new_timezone, [UpdateTimezone new_timezone]).

(** The runs of [push_config] for the timezones of a series of
    configuration updates, each with the answer its request would get: the
    requests sent, and the variable at the end. An exception of a run is
    left to the event bus; the variable keeps what the run assigned. *)
Fixpoint push_configs (updates : list (string * api_result unit))
    (last_timezone : option string) : list SetupEvent * option string :=
  match updates with
  | [] => ([], last_timezone)
  | (tz, answer) :: rest =>
      let r := push_config tz answer last_timezone in
      let rs := push_configs rest r.1.2 in
      ((r.2 ++ rs.1)%list, rs.2)
  end.

(** Settings for API endpoint; the schema, which the service registry
    applies before the handler runs, is left out. *)
Record APIEndpointSettings : Type := mkEndpoint {
  command : string;
  timeout : option nat;
  pass_data : bool
}.

Definition SERVICE_ADDON_START := "addon_start".
Definition SERVICE_ADDON_STOP := "addon_stop".
Definition SERVICE_ADDON_RESTART := "addon_restart".
Definition SERVICE_ADDON_UPDATE := "addon_update".
Definition SERVICE_ADDON_STDIN := "addon_stdin".
Definition SERVICE_HOST_SHUTDOWN := "host_shutdown".
Definition SERVICE_HOST_REBOOT := "host_reboot".
Definition SERVICE_BACKUP_FULL := "backup_full".
Definition SERVICE_BACKUP_PARTIAL := "backup_partial".
Definition SERVICE_RESTORE_FULL := "restore_full".
Definition SERVICE_RESTORE_PARTIAL := "restore_partial".

(** Modelled from the spec: [ATTR_ADDON] and [ATTR_INPUT] of [const.py]. *)
Definition ATTR_ADDON := "addon".
Definition ATTR_INPUT := "input".

Definition MAP_SERVICE_API : gmap string APIEndpointSettings :=
  list_to_map
    [ (SERVICE_ADDON_START, mkEndpoint "/addons/{addon}/start" (Some 60) false);
      (SERVICE_ADDON_STOP, mkEndpoint "/addons/{addon}/stop" (Some 60) false);
      (SERVICE_ADDON_RESTART, mkEndpoint "/addons/{addon}/restart" (Some 60) false);
      (SERVICE_ADDON_UPDATE, mkEndpoint "/addons/{addon}/update" (Some 60) false);
      (SERVICE_ADDON_STDIN, mkEndpoint "/addons/{addon}/stdin" (Some 60) false);
      (SERVICE_HOST_SHUTDOWN, mkEndpoint "/host/shutdown" (Some 60) false);
      (SERVICE_HOST_REBOOT, mkEndpoint "/host/reboot" (Some 60) false);
      (SERVICE_BACKUP_FULL, mkEndpoint "/backups/new/full" None true);
      (SERVICE_BACKUP_PARTIAL, mkEndpoint "/backups/new/partial" None true);
      (SERVICE_RESTORE_FULL, mkEndpoint "/backups/{slug}/restore/full" None true);
      (SERVICE_RESTORE_PARTIAL, mkEndpoint "/backups/{slug}/restore/partial" None true) ].

(** [async_service_handler(service)]: [service_name] and [service_data] are
    [service.service] and [service.data], [answer] what [send_command]
    gets. *)
Definition async_service_handler (service_name : string) (service_data : dict)
    (answer : api_result unit) : outcome unit * list SetupEvent :=
  match MAP_SERVICE_API !! service_name with
  | None => (Raise (KeyError service_name), [])
  | Some api_endpoint =>
      (* data = service.data.copy(); addon = data.pop(ATTR_ADDON, None);
         slug = data.pop(ATTR_SLUG, None) *)
      let addon := dict_get service_data ATTR_ADDON in
      let data := delete ATTR_ADDON service_data in
      let slug := dict_get data ATTR_SLUG in
      let data := delete ATTR_SLUG data in
      let payload :=
        if String.eqb service_name SERVICE_ADDON_STDIN
        then subscript (VDict data) ATTR_INPUT
        else if pass_data api_endpoint then Return (VDict data)
        else Return VNone in
      match payload with
      | Raise e => (Raise e, [])
      | Return payload =>
          (* with suppress(HassioAPIError): await hassio.send_command(...) *)
          (Return tt,
           [SendCommand (command api_endpoint) addon slug payload (timeout api_endpoint)])
      end
  end.

Definition HARDWARE_INTEGRATIONS : gmap string string :=
  list_to_map
    [ ("green", "homeassistant_green");
      ("odroid-c2", "hardkernel");
      ("odroid-c4", "hardkernel");
      ("odroid-m1", "hardkernel");
      ("odroid-n2", "hardkernel");
      ("odroid-xu4", "hardkernel");
      ("rpi2", "raspberry_pi");
      ("rpi3", "raspberry_pi");
      ("rpi3-64", "raspberry_pi");
      ("rpi4", "raspberry_pi");
      ("rpi4-64", "raspberry_pi");
      ("yellow", "homeassistant_yellow") ].

(** [_async_setup_hardware_integration]; the table has strings for keys, so
    a board that is another hashable object is not in it, and one that is
    not hashable makes [dict.get] raise. *)
Definition _async_setup_hardware_integration (data : gmap string dict)
    : outcome unit * list SetupEvent :=
  match data !! DATA_OS_INFO with
  | None =>
      (* os info not yet fetched from supervisor, retry later *)
      (Return tt, [CallLater "async_setup_hardware_integration_job"])
  | Some os_info =>
      match dict_get os_info "board" with
      | VNone => (Return tt, [])
      | VStr board =>
          match HARDWARE_INTEGRATIONS !! board with
          | None => (Return tt, [])
          | Some hw_integration => (Return tt, [FlowInit hw_integration])
          end
      | VList _ | VDict _ => (Raise TypeError, [])
      | _ => (Return tt, [])
      end
  end.

(** ** The coordinator: construction and forced update *)

(** [HassioDataUpdateCoordinator.__init__]: what the constructor sets, from
    [hass.data] and the device registry as they are then. *)
Definition __init__ (hass_data : gmap string dict)
    (dev_reg : gmap (string * string) DeviceEntry) (entry_id : string) : World :=
  mkWorld hass_data dev_reg None entry_id
          (match default ∅ (hass_data !! DATA_INFO) !! "hassos" with
           | None | Some VNone => false
           | Some _ => true
           end)
          ∅.

(** Modelled from the spec: [async_refresh] of the base class, the
    forced refresh: a refresh that is not scheduled and logs failures. *)
Definition async_refresh (hassio : HassIO.t) : M unit :=
  _async_refresh hassio true false.

(** [force_info_update_supervisor]; [answer] is what the request of the
    first line gets, [hassio] what the requests of the refresh get. *)
Definition force_info_update_supervisor (answer : api_result dict) (hassio : HassIO.t)
    : M unit :=
  info ← request EP_supervisor_info answer;
  modify (set_hass_data (insert DATA_SUPERVISOR_INFO info));;
  async_refresh hassio.

(** ** Notions used in the statements *)

(** The subscribers of [key] for [slug]. *)
Definition subscribers (w : World) (slug key : string) : gset string :=
  subscribers_of (enabled_updates_of (container_updates w) slug) key.

(** A world differs from another one in the interest registry only. *)
Definition same_but_registry (w w' : World) : Prop :=
  hass_data w' = hass_data w ∧ devices w' = devices w ∧ data w' = data w
  ∧ entry_id w' = entry_id w ∧ is_hass_os w' = is_hass_os w.

(** An update function of an add-on store: it sends its request, never
    raises, leaves the state alone and answers [(slug, val slug)]. *)
Definition tolerant (f : string → M (string * value))
    (val : string → value) (evs : string → list Event) : Prop :=
  ∀ slug w, f slug w = mkRun (Return (slug, val slug)) w (evs slug).

(** What an update function stores for a slug, and what it emits. *)
Definition fetched {A} (wrap : A → value) (r : api_result A) : value :=
  match r with
  | ApiOk a => wrap a
  | ApiError _ => VNone
  end.

Definition fetch_events {A} (ep : Endpoint) (what slug : string) (r : api_result A)
    : list Event :=
  Call ep ::
  match r with
  | ApiOk _ => []
  | ApiError err =>
      [LogWarning ("Could not fetch " +:+ what +:+ " for " +:+ slug +:+ ": " +:+ err)]
  end.

(** What a round of the loop over the stores leaves in [hass.data]. *)
Definition store_addons (data_key : string) (val : string → value)
    (tgts : list string) (w : World) : World :=
  set_hass_data (λ data,
    <[data_key := dict_update (default ∅ (data !! data_key))
                              ((λ slug, (slug, val slug)) <$> tgts)]> data) w.

(** [r] with [evs] emitted before it. *)
Definition prepend {A} (evs : list Event) (r : Run A) : Run A :=
  mkRun (out r) (post r) (evs ++ events r).

(** The stages of [force_data_refresh], spelled out. *)
Definition primary_results (hassio : HassIO.t) (first_update : bool) (w : World)
    : outcome (list dict) :=
  map_M (λ c, api_outcome c.2) (updates hassio first_update (container_updates w)).*2.

Definition primary_calls (hassio : HassIO.t) (first_update : bool) (w : World)
    : list Event :=
  Call <$> (updates hassio first_update (container_updates w)).*2.*1.

Definition store_primary (hassio : HassIO.t) (first_update : bool)
    (results : list dict) (w : World) : World :=
  set_hass_data (λ data,
    foldl (λ d kr, <[kr.1 := kr.2]> d) data
          (zip (updates hassio first_update (container_updates w)).*1 results)) w.

(** The listing of add-ons that [hass.data] holds. *)
Definition listing_of (w : World) : outcome (list value) :=
  iterate (default (VList [])
             (default ∅ (hass_data w !! DATA_SUPERVISOR_INFO) !! "addons")).

Definition stats_targets (first_update : bool) (w : World) (started_addons : list string) :=
  targets first_update (container_updates w) CONTAINER_STATS started_addons.

Definition changelog_targets (first_update : bool) (w : World) (all_addons : list string) :=
  targets first_update (container_updates w) CONTAINER_CHANGELOG all_addons.

Definition info_targets (first_update : bool) (w : World) (all_addons : list string) :=
  targets first_update (container_updates w) CONTAINER_INFO all_addons.

Definition stats_events (hassio : HassIO.t) (slug : string) : list Event :=
  fetch_events (EP_addon_stats slug) "stats" slug (HassIO.get_addon_stats hassio slug).

Definition changelog_events (hassio : HassIO.t) (slug : string) : list Event :=
  fetch_events (EP_addon_changelog slug) "changelog" slug
               (HassIO.get_addon_changelog hassio slug).

Definition info_events (hassio : HassIO.t) (slug : string) : list Event :=
  fetch_events (EP_addon_info slug) "info" slug (HassIO.get_addon_info hassio slug).

Definition store_secondary (hassio : HassIO.t) (first_update : bool)
    (all_addons started_addons : list string) (w : World) : World :=
  store_addons DATA_ADDONS_INFO
    (λ slug, fetched VDict (HassIO.get_addon_info hassio slug))
    (info_targets first_update w all_addons)
    (store_addons DATA_ADDONS_CHANGELOGS
       (λ slug, fetched VStr (HassIO.get_addon_changelog hassio slug))
       (changelog_targets first_update w all_addons)
       (store_addons DATA_ADDONS_STATS
          (λ slug, fetched VDict (HassIO.get_addon_stats hassio slug))
          (stats_targets first_update w started_addons) w)).

Definition secondary_events (hassio : HassIO.t) (first_update : bool)
    (all_addons started_addons : list string) (w : World) : list Event :=
  (stats_targets first_update w started_addons ≫= stats_events hassio)
  ++ (changelog_targets first_update w all_addons ≫= changelog_events hassio)
  ++ (info_targets first_update w all_addons ≫= info_events hassio).

(** The store of a kind of add-on data in [hass.data] (empty if unset). *)
Definition addon_store (w : World) (data_key : string) : dict :=
  default ∅ (hass_data w !! data_key).

(** A primary request has failed: some entry of [updates] holds an error. *)
Definition primary_failed (hassio : HassIO.t) (first_update : bool) (w : World) : Prop :=
  ∃ key ep msg,
    (key, (ep, ApiError msg)) ∈ updates hassio first_update (container_updates w).

(** What the request for a refresh of the known updates emits. *)
Definition refresh_updates_events (hassio : HassIO.t) : list Event :=
  Call EP_refresh_updates ::
  match HassIO.refresh_updates hassio with
  | ApiOk _ => []
  | ApiError err => [LogWarning ("Error on Supervisor API: " +:+ err)]
  end.

(** A world differs from another one in the device registry only. *)
Definition same_but_devices (w w' : World) : Prop :=
  hass_data w' = hass_data w ∧ data w' = data w ∧ entry_id w' = entry_id w
  ∧ is_hass_os w' = is_hass_os w ∧ container_updates w' = container_updates w.

(** A computation that works on the device registry only. *)
Definition devices_only {A} (m : M A) : Prop :=
  ∀ w, same_but_devices w (post (m w)).

(** The slug of an entry of the listing. *)
Definition slug_of (addon : value) : option string :=
  match addon with
  | VDict d => match d !! ATTR_SLUG with
               | Some (VStr slug) => Some slug
               | _ => None
               end
  | _ => None
  end.

(** The slugs the listing names. *)
Definition listed_slugs (listing : list value) : gset string :=
  list_to_set (omap slug_of listing).

(** The registry once the devices of [slugs] have been removed. *)
Definition remove_slugs (slugs : list string)
    (devs : gmap (string * string) DeviceEntry) : gmap (string * string) DeviceEntry :=
  foldl (λ devs slug, delete (DOMAIN, slug) devs) devs slugs.

(** New add-ons have appeared since the data of the cycle before. *)
Definition grew (new_data : Snapshot) (w : World) : bool :=
  match data w with
  | Some old => bool_decide (dom (addons new_data) ∖ dom (addons old) ≠ (∅ : gset string))
  | None => false
  end.

(** The registry after the clean-up of a cycle. *)
Definition cleaned (new_data : Snapshot) (w : World)
    : gmap (string * string) DeviceEntry :=
  let devs := remove_slugs (elements (supervisor_addon_devices w ∖ dom (addons new_data)))
                           (devices w) in
  if is_hass_os w then devs else delete (DOMAIN, "OS") devs.



(** The registry holds, under [slug], the device of an add-on record of
    [l]: owned by the config entry, of the model of add-ons, with the URL of
    the add-on and the version and name of the record. *)
Definition addon_device_of (l : list dict) (w : World) (slug : string) : Prop :=
  ∃ dev addon,
    async_get_device (DOMAIN, slug) (devices w) = Some dev
    ∧ entry_id w ∈ config_entries dev
    ∧ model dev = Some SupervisorEntityModel.ADDON
    ∧ configuration_url dev = Some ("homeassistant://hassio/addon/" +:+ slug)
    ∧ addon ∈ l
    ∧ addon !! ATTR_SLUG = Some (VStr slug)
    ∧ sw_version dev = addon !! ATTR_VERSION
    ∧ name dev = addon !! ATTR_NAME.




(** [first_update or enabled_key in self._container_updates[slug]] *)
Definition wanted (first_update : bool) (w : World) (enabled_key slug : string) : bool :=
  first_update || is_enabled (container_updates w) enabled_key slug.

(** * Properties *)

(** ** The interest registry *)

Lemma subscribers_of_insert eu key key' s :
  subscribers_of (<[key := s]> eu) key' =
  if decide (key = key') then s else subscribers_of eu key'.
Proof.
  unfold subscribers_of. rewrite lookup_insert.
  destruct (decide (key = key')); reflexivity.
Qed.

Lemma enabled_updates_of_insert cu slug slug' eu :
  enabled_updates_of (<[slug := eu]> cu) slug' =
  if decide (slug = slug') then eu else enabled_updates_of cu slug'.
Proof.
  unfold enabled_updates_of. rewrite lookup_insert.
  destruct (decide (slug = slug')); reflexivity.
Qed.

Lemma add_keys_subscribers entity_id keys eu key :
  subscribers_of (add_keys entity_id keys eu) key =
  if decide (key ∈ keys) then subscribers_of eu key ∪ {[entity_id]}
  else subscribers_of eu key.
Proof.
  unfold add_keys. revert eu.
  induction keys as [|k keys IH]; intros eu; simpl.
  - destruct (decide (key ∈ [])) as [Hin|]; [by apply elem_of_nil in Hin | done].
  - rewrite IH, subscribers_of_insert.
    repeat case_decide; subst; try reflexivity; set_solver.
Qed.

(** When every key still holds the subscriber, the removal goes through
    and takes the subscriber out of each of them. *)
Lemma remove_keys_ok entity_id keys : ∀ eu,
  NoDup keys →
  (∀ key, key ∈ keys → entity_id ∈ subscribers_of eu key) →
  ∃ eu', remove_keys entity_id keys eu = (Return tt, eu')
         ∧ dom eu' = dom eu ∪ list_to_set keys
         ∧ ∀ key, subscribers_of eu' key =
                  if decide (key ∈ keys) then subscribers_of eu key ∖ {[entity_id]}
                  else subscribers_of eu key.
Proof.
  induction keys as [|k keys IH]; intros eu Hnd Hall; simpl.
  - exists eu. split; [done|]. split; [set_solver|]. intros key.
    destruct (decide (key ∈ [])) as [Hin|]; [by apply elem_of_nil in Hin | done].
  - apply NoDup_cons in Hnd as [Hk Hnd].
    rewrite bool_decide_eq_true_2 by (apply Hall; set_solver).
    destruct (IH (<[k := subscribers_of eu k ∖ {[entity_id]}]> eu) Hnd)
      as (eu' & Heq & Hdom & Hsub).
    { intros key Hin. rewrite subscribers_of_insert.
      destruct (decide (k = key)) as [->|]; [done|]. apply Hall. set_solver. }
    exists eu'. split; [done|]. split.
    { rewrite Hdom, dom_insert_L. set_solver. }
    intros key. rewrite Hsub, subscribers_of_insert.
    repeat case_decide; subst; try reflexivity; set_solver.
Qed.

(** When some key does not hold the subscriber, [set.remove] raises. *)
Lemma remove_keys_raises entity_id keys : ∀ eu key,
  key ∈ keys → entity_id ∉ subscribers_of eu key →
  (remove_keys entity_id keys eu).1 = Raise (KeyError entity_id).
Proof.
  induction keys as [|k keys IH]; intros eu key Hin Hnot; simpl.
  - by apply elem_of_nil in Hin.
  - destruct (bool_decide (entity_id ∈ subscribers_of eu k)) eqn:Hk; [|done].
    apply bool_decide_eq_true_1 in Hk.
    apply elem_of_cons in Hin as [Heq|Hin]; [by subst|].
    apply (IH _ key Hin). rewrite subscribers_of_insert.
    destruct (decide (k = key)) as [Heq|]; [subst|]; set_solver.
Qed.

Lemma enable_subscribers slug entity_id types w s k :
  subscribers (post (async_enable_container_updates slug entity_id types w)) s k =
  if decide (s = slug ∧ k ∈ types) then subscribers w s k ∪ {[entity_id]}
  else subscribers w s k.
Proof.
  unfold subscribers, async_enable_container_updates; simpl.
  rewrite enabled_updates_of_insert.
  destruct (decide (slug = s)) as [->|Hne].
  - rewrite add_keys_subscribers.
    repeat case_decide; try reflexivity; set_solver.
  - case_decide; [naive_solver | reflexivity].
Qed.

Lemma remove_ok h w :
  (∀ k, k ∈ rm_types h → rm_entity_id h ∈ subscribers w (rm_slug h) k) →
  out (_remove h w) = Return tt
  ∧ ∀ s k, subscribers (post (_remove h w)) s k =
           if decide (s = rm_slug h ∧ k ∈ rm_types h)
           then subscribers w s k ∖ {[rm_entity_id h]}
           else subscribers w s k.
Proof.
  intros Hall. unfold _remove, subscribers in *; simpl.
  destruct (remove_keys_ok (rm_entity_id h) (elements (rm_types h))
              (enabled_updates_of (container_updates w) (rm_slug h)))
    as (eu' & Heq & _ & Hsub).
  { apply NoDup_elements. }
  { intros key Hin. apply Hall. set_solver. }
  rewrite Heq; simpl. split; [done|]. intros s k.
  rewrite enabled_updates_of_insert.
  destruct (decide (rm_slug h = s)) as [<-|Hne].
  - rewrite Hsub. repeat case_decide; try reflexivity; set_solver.
  - case_decide; [naive_solver | reflexivity].
Qed.

Lemma remove_raises h w k :
  k ∈ rm_types h → rm_entity_id h ∉ subscribers w (rm_slug h) k →
  out (_remove h w) = Raise (KeyError (rm_entity_id h)).
Proof.
  intros Hin Hnot. unfold _remove; simpl.
  apply (remove_keys_raises _ _ _ k); [set_solver | done].
Qed.

(** C3, as the code has it: subscribing never raises; invoking a handle
    returns normally when the subscriber is still registered for every kind
    the handle was made for, and then takes the subscriber out of exactly
    those kinds of that slug; when it is missing from one of them (the handle
    was invoked before, or an overlapping subscription of the same subscriber
    was withdrawn) the invocation raises [KeyError]. Neither operation
    produces an event or touches anything but the subscriber sets. *)
Theorem registry_operations (slug entity_id : string) (types : gset string)
    (h : RemoveHandle) (w : World) :
  (out (async_enable_container_updates slug entity_id types w)
     = Return (mkHandle slug entity_id types)
   ∧ events (async_enable_container_updates slug entity_id types w) = []
   ∧ same_but_registry w (post (async_enable_container_updates slug entity_id types w))
   ∧ ∀ s k, subscribers (post (async_enable_container_updates slug entity_id types w)) s k =
            if decide (s = slug ∧ k ∈ types) then subscribers w s k ∪ {[entity_id]}
            else subscribers w s k)
  ∧ (events (_remove h w) = []
     ∧ same_but_registry w (post (_remove h w))
     ∧ ((∀ k, k ∈ rm_types h → rm_entity_id h ∈ subscribers w (rm_slug h) k) →
        out (_remove h w) = Return tt
        ∧ ∀ s k, subscribers (post (_remove h w)) s k =
                 if decide (s = rm_slug h ∧ k ∈ rm_types h)
                 then subscribers w s k ∖ {[rm_entity_id h]}
                 else subscribers w s k)
     ∧ (∀ k, k ∈ rm_types h → rm_entity_id h ∉ subscribers w (rm_slug h) k →
        out (_remove h w) = Raise (KeyError (rm_entity_id h)))).
Proof.
  split; [|split; [|split; [|split]]].
  - split; [reflexivity|]. split; [reflexivity|].
    split; [by repeat split|]. apply enable_subscribers.
  - reflexivity.
  - by repeat split.
  - apply remove_ok.
  - apply remove_raises.
Qed.

(** C3 as stated fails: the handle of a subscription, invoked a second time,
    raises [KeyError]. *)
Lemma remove_twice_raises :
  out (async_enable_container_updates "a" "sensor.a_cpu" {[CONTAINER_STATS]} Samples.fresh)
    = Return (mkHandle "a" "sensor.a_cpu" {[CONTAINER_STATS]})
  ∧ out (_remove (mkHandle "a" "sensor.a_cpu" {[CONTAINER_STATS]})
           (post (async_enable_container_updates "a" "sensor.a_cpu" {[CONTAINER_STATS]}
                    Samples.fresh)))
    = Return tt
  ∧ out (_remove (mkHandle "a" "sensor.a_cpu" {[CONTAINER_STATS]})
           (post (_remove (mkHandle "a" "sensor.a_cpu" {[CONTAINER_STATS]})
              (post (async_enable_container_updates "a" "sensor.a_cpu" {[CONTAINER_STATS]}
                       Samples.fresh)))))
    = Raise (KeyError "sensor.a_cpu").
Proof. vm_compute. repeat split. Qed.

Lemma remove_keeps_keys h w :
  (∀ k, k ∈ rm_types h → rm_entity_id h ∈ subscribers w (rm_slug h) k) →
  dom (enabled_updates_of (container_updates (post (_remove h w))) (rm_slug h))
  = dom (enabled_updates_of (container_updates w) (rm_slug h)) ∪ rm_types h.
Proof.
  intros Hall. unfold _remove, subscribers in *; simpl.
  destruct (remove_keys_ok (rm_entity_id h) (elements (rm_types h))
              (enabled_updates_of (container_updates w) (rm_slug h)))
    as (eu' & Heq & Hdom & _).
  { apply NoDup_elements. }
  { intros key Hin. apply Hall. set_solver. }
  rewrite Heq; simpl. rewrite enabled_updates_of_insert.
  rewrite decide_True by done. rewrite Hdom. set_solver.
Qed.

Lemma elem_of_targets first_update cu enabled_key wanted_addons slug :
  slug ∈ targets first_update cu enabled_key wanted_addons
  ↔ slug ∈ wanted_addons
    ∧ (first_update = true ∨ enabled_key ∈ dom (enabled_updates_of cu slug)).
Proof.
  unfold targets, is_enabled. rewrite list_elem_of_filter.
  rewrite orb_true_iff, bool_decide_eq_true. tauto.
Qed.

(** C1 fails on the code: once STATS has been subscribed for a slug, the
    key stays in the dictionary of that slug. After the only subscriber has
    withdrawn (its set is empty again) the slug is still among the targets of
    the add-on stats of a cycle that is not the first one. *)
Theorem unsubscribed_slug_still_fetched
    (slug entity_id : string) (w : World) (started_addons : list string) :
  subscribers w slug CONTAINER_STATS = ∅ →
  slug ∈ started_addons →
  out (_remove (mkHandle slug entity_id {[CONTAINER_STATS]})
         (post (async_enable_container_updates slug entity_id {[CONTAINER_STATS]} w)))
    = Return tt
  ∧ subscribers
      (post (_remove (mkHandle slug entity_id {[CONTAINER_STATS]})
         (post (async_enable_container_updates slug entity_id {[CONTAINER_STATS]} w))))
      slug CONTAINER_STATS = ∅
  ∧ slug ∈ targets false
      (container_updates
         (post (_remove (mkHandle slug entity_id {[CONTAINER_STATS]})
            (post (async_enable_container_updates slug entity_id {[CONTAINER_STATS]} w)))))
      CONTAINER_STATS started_addons.
Proof.
  intros Hnone Hstarted.
  set (w1 := post (async_enable_container_updates slug entity_id {[CONTAINER_STATS]} w)).
  set (h := mkHandle slug entity_id {[CONTAINER_STATS]}).
  assert (Hall : ∀ k, k ∈ rm_types h → rm_entity_id h ∈ subscribers w1 (rm_slug h) k).
  { intros k Hk. unfold w1. rewrite enable_subscribers. simpl in *.
    rewrite decide_True by done. set_solver. }
  destruct (remove_ok h w1 Hall) as [Hout Hsub].
  split; [done|]. split.
  - rewrite Hsub. simpl. rewrite decide_True by (split; [done | set_solver]).
    unfold w1. rewrite enable_subscribers, decide_True by (split; [done | set_solver]).
    rewrite Hnone. apply set_eq. intros x.
    rewrite elem_of_difference, elem_of_union, !elem_of_singleton, elem_of_empty.
    tauto.
  - apply elem_of_targets. split; [done|]. right.
    pose proof (remove_keeps_keys h w1 Hall) as Hdom.
    change (rm_slug h) with slug in Hdom. rewrite Hdom.
    apply elem_of_union_r. unfold h. cbn [rm_types]. by apply elem_of_singleton.
Qed.

Lemma unsubscribed_slug_still_fetched_witness :
  subscribers Samples.fresh "a" CONTAINER_STATS = ∅
  ∧ "a" ∈ targets false
      (container_updates
         (post (_remove (mkHandle "a" "sensor.a_cpu" {[CONTAINER_STATS]})
            (post (async_enable_container_updates "a" "sensor.a_cpu" {[CONTAINER_STATS]}
                     Samples.fresh)))))
      CONTAINER_STATS ["a"].
Proof.
  split; [reflexivity|].
  apply (unsubscribed_slug_still_fetched "a" "sensor.a_cpu" Samples.fresh ["a"]).
  - reflexivity.
  - apply list_elem_of_here.
Defined.

(** ** Running computations *)

Lemma run_bind {A B} (m : M A) (k : A → M B) w :
  (m ≫= k) w =
  match out (m w) with
  | Return a => mkRun (out (k a (post (m w)))) (post (k a (post (m w))))
                      (events (m w) ++ events (k a (post (m w))))
  | Raise e => mkRun (Raise e) (post (m w)) (events (m w))
  end.
Proof. reflexivity. Qed.

Lemma _update_addon_stats_tolerant hassio :
  tolerant (_update_addon_stats hassio)
    (λ slug, fetched VDict (HassIO.get_addon_stats hassio slug))
    (λ slug, fetch_events (EP_addon_stats slug) "stats" slug
               (HassIO.get_addon_stats hassio slug)).
Proof.
  intros slug w. unfold _update_addon_stats, try_except_api, request, fetch_events.
  rewrite run_bind; simpl. by destruct (HassIO.get_addon_stats hassio slug).
Qed.

Lemma _update_addon_changelog_tolerant hassio :
  tolerant (_update_addon_changelog hassio)
    (λ slug, fetched VStr (HassIO.get_addon_changelog hassio slug))
    (λ slug, fetch_events (EP_addon_changelog slug) "changelog" slug
               (HassIO.get_addon_changelog hassio slug)).
Proof.
  intros slug w. unfold _update_addon_changelog, try_except_api, request, fetch_events.
  rewrite run_bind; simpl. by destruct (HassIO.get_addon_changelog hassio slug).
Qed.

Lemma _update_addon_info_tolerant hassio :
  tolerant (_update_addon_info hassio)
    (λ slug, fetched VDict (HassIO.get_addon_info hassio slug))
    (λ slug, fetch_events (EP_addon_info slug) "info" slug
               (HassIO.get_addon_info hassio slug)).
Proof.
  intros slug w. unfold _update_addon_info, try_except_api, request, fetch_events.
  rewrite run_bind; simpl. by destruct (HassIO.get_addon_info hassio slug).
Qed.

Lemma bind_returned {A B} (m : M A) (k : A → M B) w a w' evs :
  m w = mkRun (Return a) w' evs →
  bind m k w = mkRun (out (k a w')) (post (k a w')) (evs ++ events (k a w')).
Proof. intros Hm. unfold bind. by rewrite Hm. Qed.

Lemma gather_all_tolerant f val evs l w :
  tolerant f val evs →
  gather_all (f <$> l) w =
  mkRun (Return ((λ slug, (slug, val slug)) <$> l)) w (l ≫= evs).
Proof.
  intros Hf. induction l as [|slug l IH]; [reflexivity|].
  change (gather_all (f <$> slug :: l) w)
    with (bind (f slug) (λ x, bind (gather_all (f <$> l)) (λ xs, ret (x :: xs))) w).
  rewrite (bind_returned _ _ _ _ _ _ (Hf slug w)).
  rewrite (bind_returned _ _ _ _ _ _ IH). cbn [out post events ret].
  by rewrite app_nil_r.
Qed.

Lemma update_addons_tolerant first_update data_key f val evs enabled_key wanted w :
  tolerant f val evs →
  update_addons first_update data_key f enabled_key wanted w =
  let tgts := targets first_update (container_updates w) enabled_key wanted in
  mkRun (Return tt) (store_addons data_key val tgts w) (tgts ≫= evs).
Proof.
  intros Hf. unfold update_addons.
  change (get_world ≫= ?k) with (bind get_world k).
  erewrite bind_returned by reflexivity.
  change (gather_all ?c ≫= ?k) with (bind (gather_all c) k).
  rewrite (bind_returned _ _ _ _ _ _ (gather_all_tolerant _ _ _ _ _ Hf)).
  cbn [out post events modify]. by rewrite app_nil_r.
Qed.

Lemma prepend_nil {A} (r : Run A) : prepend [] r = r.
Proof. by destruct r. Qed.

Lemma prepend_mk {A} evs (o : outcome A) p e :
  prepend evs (mkRun o p e) = mkRun o p (evs ++ e).
Proof. reflexivity. Qed.

Lemma bind_get_world {B} (k : World → M B) w : (get_world ≫= k) w = k w w.
Proof. rewrite run_bind. apply prepend_nil. Qed.

Lemma bind_modify {B} f (k : unit → M B) w : (modify f ≫= k) w = k tt (f w).
Proof. rewrite run_bind. apply prepend_nil. Qed.

Lemma bind_emit {B} e (k : unit → M B) w : (emit e ≫= k) w = prepend [e] (k tt w).
Proof. by rewrite run_bind. Qed.

Lemma bind_lift {A B} (o : outcome A) (k : A → M B) w :
  (lift o ≫= k) w =
  match o with
  | Return a => k a w
  | Raise e => mkRun (Raise e) w []
  end.
Proof. rewrite run_bind. destruct o; simpl; [apply prepend_nil | done]. Qed.

Lemma bind_gather {A B} (calls : list (Endpoint * api_result A)) (k : list A → M B) w :
  (gather calls ≫= k) w =
  match map_M (λ c, api_outcome c.2) calls with
  | Return results => prepend (Call <$> calls.*1) (k results w)
  | Raise e => mkRun (Raise e) w (Call <$> calls.*1)
  end.
Proof. rewrite run_bind. unfold gather; simpl. by destruct (map_M _ calls). Qed.

Lemma bind_update_addons {B} first_update data_key f val evs enabled_key wanted
    (k : unit → M B) w :
  tolerant f val evs →
  (update_addons first_update data_key f enabled_key wanted ≫= k) w =
  let tgts := targets first_update (container_updates w) enabled_key wanted in
  prepend (tgts ≫= evs) (k tt (store_addons data_key val tgts w)).
Proof.
  intros Hf. rewrite run_bind. by rewrite (update_addons_tolerant _ _ _ _ _ _ _ _ Hf).
Qed.

(** [force_data_refresh], stage by stage. *)
Lemma force_data_refresh_unfold hassio first_update w :
  force_data_refresh hassio first_update w =
  match primary_results hassio first_update w with
  | Raise e => mkRun (Raise e) w (primary_calls hassio first_update w)
  | Return results =>
      let w1 := store_primary hassio first_update results w in
      match listing_of w1 with
      | Raise e => mkRun (Raise e) w1 (primary_calls hassio first_update w)
      | Return _addon_data =>
          match split_addons _addon_data with
          | Raise e => mkRun (Raise e) w1 (primary_calls hassio first_update w)
          | Return lists =>
              mkRun (Return tt)
                    (store_secondary hassio first_update lists.1 lists.2 w1)
                    (primary_calls hassio first_update w
                     ++ secondary_events hassio first_update lists.1 lists.2 w1)
          end
      end
  end.
Proof.
  unfold force_data_refresh.
  rewrite bind_get_world, bind_gather.
  fold (primary_results hassio first_update w).
  fold (primary_calls hassio first_update w).
  destruct (primary_results hassio first_update w) as [results|e]; [|reflexivity].
  rewrite bind_modify.
  fold (store_primary hassio first_update results w).
  set (w1 := store_primary hassio first_update results w).
  rewrite bind_get_world, bind_lift. fold (listing_of w1).
  destruct (listing_of w1) as [_addon_data|e]; [|by rewrite prepend_mk, app_nil_r].
  rewrite bind_lift.
  destruct (split_addons _addon_data) as [lists|e]; [|by rewrite prepend_mk, app_nil_r].
  cbv beta zeta.
  rewrite (bind_update_addons _ _ _ _ _ _ _ _ _ (_update_addon_stats_tolerant hassio)).
  cbv beta zeta.
  rewrite (bind_update_addons _ _ _ _ _ _ _ _ _ (_update_addon_changelog_tolerant hassio)).
  cbv beta zeta.
  rewrite (update_addons_tolerant _ _ _ _ _ _ _ _ (_update_addon_info_tolerant hassio)).
  cbv beta zeta. rewrite !prepend_mk.
  unfold secondary_events, store_secondary. reflexivity.
Qed.

(** ** Stores and listings *)

Lemma dict_update_lookup (val : string → value) l : ∀ (d : dict) k,
  dict_update d ((λ slug, (slug, val slug)) <$> l) !! k =
  if decide (k ∈ l) then Some (val k) else d !! k.
Proof.
  unfold dict_update. induction l as [|s l IH]; intros d k.
  - rewrite fmap_nil. cbn [foldl]. by rewrite decide_False by apply not_elem_of_nil.
  - rewrite fmap_cons. cbn [foldl fst snd].
    rewrite IH. destruct (decide (k ∈ l)) as [Hin|Hnin].
    + by rewrite decide_True by (by apply list_elem_of_further).
    + rewrite lookup_insert. destruct (decide (s = k)) as [->|Hne].
      * by rewrite decide_True by apply list_elem_of_here.
      * rewrite decide_False; [done|]. rewrite elem_of_cons. naive_solver.
Qed.

Lemma foldl_insert_lookup_notin {V} (l : list (string * V)) : ∀ (m : gmap string V) k,
  k ∉ l.*1 →
  foldl (λ d kr, <[kr.1 := kr.2]> d) m l !! k = m !! k.
Proof.
  induction l as [|[k' v] l IH]; intros m k Hk; simpl; [done|].
  rewrite fmap_cons, not_elem_of_cons in Hk. destruct Hk as [Hne Hk].
  rewrite IH by done. by rewrite lookup_insert_ne.
Qed.

Lemma zip_fst_subseteq {A B} (ks : list A) (rs : list B) x :
  x ∈ (zip ks rs).*1 → x ∈ ks.
Proof.
  revert rs. induction ks as [|k ks IH]; intros [|r rs]; simpl;
    rewrite ?elem_of_nil; try done.
  rewrite !elem_of_cons. intros [->|Hin]; [by left | right; eauto].
Qed.

Lemma updates_keys hassio first_update cu k :
  k ∈ (updates hassio first_update cu).*1 →
  k ∈ [DATA_INFO; DATA_CORE_INFO; DATA_SUPERVISOR_INFO; DATA_OS_INFO;
       DATA_CORE_STATS; DATA_SUPERVISOR_STATS].
Proof.
  unfold updates.
  destruct (first_update || is_enabled cu CONTAINER_STATS CORE_CONTAINER);
    destruct (first_update || is_enabled cu CONTAINER_STATS SUPERVISOR_CONTAINER);
    simpl; rewrite !elem_of_cons; naive_solver.
Qed.

Lemma store_primary_other hassio first_update results w k :
  k ∉ [DATA_INFO; DATA_CORE_INFO; DATA_SUPERVISOR_INFO; DATA_OS_INFO;
       DATA_CORE_STATS; DATA_SUPERVISOR_STATS] →
  hass_data (store_primary hassio first_update results w) !! k = hass_data w !! k.
Proof.
  intros Hk. unfold store_primary, set_hass_data. cbn [hass_data].
  apply foldl_insert_lookup_notin. intros Hin.
  apply zip_fst_subseteq, updates_keys in Hin. done.
Qed.

Lemma store_addons_lookup data_key val tgts w key :
  hass_data (store_addons data_key val tgts w) !! key =
  if decide (data_key = key)
  then Some (dict_update (addon_store w data_key) ((λ slug, (slug, val slug)) <$> tgts))
  else hass_data w !! key.
Proof.
  unfold store_addons, set_hass_data, addon_store. cbn [hass_data].
  by rewrite lookup_insert.
Qed.

Lemma addon_store_store_addons data_key val tgts w key slug :
  addon_store (store_addons data_key val tgts w) key !! slug =
  if decide (data_key = key ∧ slug ∈ tgts) then Some (val slug)
  else addon_store w key !! slug.
Proof.
  unfold addon_store at 1. rewrite store_addons_lookup.
  destruct (decide (data_key = key)) as [->|Hne]; simpl.
  - rewrite dict_update_lookup.
    destruct (decide (slug ∈ tgts)).
    + by rewrite decide_True.
    + rewrite decide_False; [done | naive_solver].
  - rewrite decide_False; [done | naive_solver].
Qed.

Lemma addon_store_store_primary hassio first_update results w key :
  key ∈ [DATA_ADDONS_STATS; DATA_ADDONS_CHANGELOGS; DATA_ADDONS_INFO] →
  addon_store (store_primary hassio first_update results w) key = addon_store w key.
Proof.
  intros Hkey. unfold addon_store. rewrite store_primary_other; [done|].
  rewrite !elem_of_cons, elem_of_nil in Hkey.
  rewrite !not_elem_of_cons.
  destruct Hkey as [->|[->|[->|[]]]]; repeat split; try done; apply not_elem_of_nil.
Qed.

(** The three stores after the per-add-on stage. *)
Lemma addon_store_store_secondary hassio first_update all_addons started_addons w slug :
  addon_store (store_secondary hassio first_update all_addons started_addons w)
              DATA_ADDONS_STATS !! slug
  = (if decide (slug ∈ stats_targets first_update w started_addons)
     then Some (fetched VDict (HassIO.get_addon_stats hassio slug))
     else addon_store w DATA_ADDONS_STATS !! slug)
  ∧ addon_store (store_secondary hassio first_update all_addons started_addons w)
                DATA_ADDONS_CHANGELOGS !! slug
  = (if decide (slug ∈ changelog_targets first_update w all_addons)
     then Some (fetched VStr (HassIO.get_addon_changelog hassio slug))
     else addon_store w DATA_ADDONS_CHANGELOGS !! slug)
  ∧ addon_store (store_secondary hassio first_update all_addons started_addons w)
                DATA_ADDONS_INFO !! slug
  = (if decide (slug ∈ info_targets first_update w all_addons)
     then Some (fetched VDict (HassIO.get_addon_info hassio slug))
     else addon_store w DATA_ADDONS_INFO !! slug).
Proof.
  unfold store_secondary. rewrite !addon_store_store_addons.
  repeat split.
  - rewrite (decide_False (P := DATA_ADDONS_INFO = DATA_ADDONS_STATS ∧ _)) by naive_solver.
    rewrite (decide_False (P := DATA_ADDONS_CHANGELOGS = DATA_ADDONS_STATS ∧ _))
      by naive_solver.
    repeat case_decide; naive_solver.
  - rewrite (decide_False (P := DATA_ADDONS_INFO = DATA_ADDONS_CHANGELOGS ∧ _))
      by naive_solver.
    rewrite (decide_False (P := DATA_ADDONS_STATS = DATA_ADDONS_CHANGELOGS ∧ _))
      by naive_solver.
    repeat case_decide; naive_solver.
  - rewrite (decide_False (P := DATA_ADDONS_CHANGELOGS = DATA_ADDONS_INFO ∧ _))
      by naive_solver.
    rewrite (decide_False (P := DATA_ADDONS_STATS = DATA_ADDONS_INFO ∧ _))
      by naive_solver.
    repeat case_decide; naive_solver.
Qed.

Lemma fetch_events_call {A} ep what slug (r : api_result A) :
  Call ep ∈ fetch_events ep what slug r.
Proof. apply list_elem_of_here. Qed.

Lemma elem_of_bind_events (evs : string → list Event) tgts slug e :
  slug ∈ tgts → e ∈ evs slug → e ∈ tgts ≫= evs.
Proof. intros Hin He. apply list_elem_of_bind. eauto. Qed.

(** After a refresh, an entry of a store is either what it was or what the
    request sent for it in this refresh answered. *)
Lemma force_data_refresh_stores hassio first_update w slug :
  (addon_store (post (force_data_refresh hassio first_update w)) DATA_ADDONS_STATS !! slug
     = addon_store w DATA_ADDONS_STATS !! slug
   ∨ Call (EP_addon_stats slug) ∈ events (force_data_refresh hassio first_update w))
  ∧ (addon_store (post (force_data_refresh hassio first_update w))
                 DATA_ADDONS_CHANGELOGS !! slug
     = addon_store w DATA_ADDONS_CHANGELOGS !! slug
   ∨ Call (EP_addon_changelog slug) ∈ events (force_data_refresh hassio first_update w))
  ∧ (addon_store (post (force_data_refresh hassio first_update w)) DATA_ADDONS_INFO !! slug
     = addon_store w DATA_ADDONS_INFO !! slug
   ∨ Call (EP_addon_info slug) ∈ events (force_data_refresh hassio first_update w)).
Proof.
  rewrite force_data_refresh_unfold.
  destruct (primary_results hassio first_update w) as [results|e]; [|by repeat split; left].
  cbv zeta.
  assert (Hp : ∀ key, key ∈ [DATA_ADDONS_STATS; DATA_ADDONS_CHANGELOGS; DATA_ADDONS_INFO] →
               addon_store (store_primary hassio first_update results w) key
               = addon_store w key)
    by (intros; by apply addon_store_store_primary).
  destruct (listing_of _) as [_addon_data|e];
    [|cbn [post]; rewrite !Hp by (rewrite !elem_of_cons; tauto); by repeat split; left].
  destruct (split_addons _addon_data) as [[all_addons started_addons]|e];
    [|cbn [post]; rewrite !Hp by (rewrite !elem_of_cons; tauto); by repeat split; left].
  cbn [post events fst snd].
  destruct (addon_store_store_secondary hassio first_update all_addons started_addons
              (store_primary hassio first_update results w) slug) as (Hs & Hc & Hi).
  rewrite Hs, Hc, Hi, !Hp by (rewrite !elem_of_cons; tauto).
  clear Hs Hc Hi. unfold secondary_events.
  split; [|split]; case_decide as Hin; try (by left); right;
    rewrite !elem_of_app; right.
  - left. apply (elem_of_bind_events (stats_events hassio) _ slug);
      [exact Hin | apply fetch_events_call].
  - right; left. apply (elem_of_bind_events (changelog_events hassio) _ slug);
      [exact Hin | apply fetch_events_call].
  - right; right. apply (elem_of_bind_events (info_events hassio) _ slug);
      [exact Hin | apply fetch_events_call].
Qed.


(** ** The first cycle *)

Lemma primary_calls_events hassio first_update w e :
  e ∈ primary_calls hassio first_update w →
  e ∈ events (force_data_refresh hassio first_update w).
Proof.
  intros He. rewrite force_data_refresh_unfold.
  destruct (primary_results _ _ _) as [results|]; [|done]. cbv zeta.
  destruct (listing_of _) as [l|]; [|done].
  destruct (split_addons l); [|done].
  cbn [events]. apply elem_of_app. by left.
Qed.

Lemma map_M_api_failed {A} (calls : list (Endpoint * api_result A)) ep msg :
  (ep, ApiError msg) ∈ calls →
  ∃ msg', map_M (λ c, api_outcome c.2) calls = Raise (HassioAPIError msg').
Proof.
  induction calls as [|[ep' r] calls IH]; [by rewrite elem_of_nil|].
  rewrite elem_of_cons. intros Hin. simpl.
  destruct r as [a|msg']; [|eauto].
  destruct Hin as [[=]|Hin]. destruct (IH Hin) as [msg' ->]. eauto.
Qed.

(** When the primary requests succeed, the payload of the listing is the
    one the Supervisor answered. *)
Lemma primary_ok_supervisor hassio first_update w results :
  primary_results hassio first_update w = Return results →
  ∃ sup, HassIO.get_supervisor_info hassio = ApiOk sup
         ∧ hass_data (store_primary hassio first_update results w) !! DATA_SUPERVISOR_INFO
           = Some sup.
Proof.
  unfold primary_results, store_primary, updates, set_hass_data. cbn [hass_data].
  destruct (first_update || is_enabled _ CONTAINER_STATS CORE_CONTAINER);
    destruct (first_update || is_enabled _ CONTAINER_STATS SUPERVISOR_CONTAINER);
    destruct hassio as [[?|?] [?|?] [sup|?] [?|?] [?|?] [?|?] ? ? ? ?];
    simpl; intros [= <-]; exists sup; (split; [reflexivity|]); simpl;
    repeat (rewrite lookup_insert_ne by done); by rewrite lookup_insert_eq.
Qed.

Lemma split_addons_elem _addon_data : ∀ all_addons started_addons d slug,
  split_addons _addon_data = Return (all_addons, started_addons) →
  VDict d ∈ _addon_data →
  d !! ATTR_SLUG = Some (VStr slug) →
  slug ∈ all_addons
  ∧ (d !! ATTR_STATE = Some (VStr ATTR_STARTED) → slug ∈ started_addons).
Proof.
  induction _addon_data as [|addon rest IH]; intros all_addons started_addons d slug;
    [by rewrite elem_of_nil|].
  cbn [split_addons].
  destruct (subscript addon ATTR_SLUG) as [k|] eqn:Hk; [|done].
  destruct (as_str k) as [slug'|] eqn:Hslug'; [|done].
  destruct (subscript addon ATTR_STATE) as [state|] eqn:Hstate; [|done].
  destruct (split_addons rest) as [[all' started']|] eqn:Hrest; [|done].
  intros [= <- <-]. rewrite elem_of_cons. intros [<-|Hin] Hd.
  - cbn [subscript] in Hk, Hstate. rewrite Hd in Hk. injection Hk as <-.
    cbn [as_str] in Hslug'. injection Hslug' as <-.
    split; [apply list_elem_of_here|]. intros Hst. rewrite Hst in Hstate.
    injection Hstate as <-. cbn. apply list_elem_of_here.
  - destruct (IH all' started' d slug eq_refl Hin Hd) as [Hall Hstarted].
    split; [by apply list_elem_of_further|]. intros Hst.
    destruct (eq_str state ATTR_STARTED); [apply list_elem_of_further|]; auto.
Qed.

Lemma targets_first cu enabled_key wanted_addons :
  targets true cu enabled_key wanted_addons = wanted_addons.
Proof.
  unfold targets. induction wanted_addons as [|s l IH]; [done|].
  rewrite filter_cons_True by done. by rewrite IH.
Qed.

Lemma first_cycle_addon_calls hassio w sup listing d slug :
  out (force_data_refresh hassio true w) = Return tt →
  HassIO.get_supervisor_info hassio = ApiOk sup →
  sup !! "addons" = Some (VList listing) →
  VDict d ∈ listing →
  d !! ATTR_SLUG = Some (VStr slug) →
  Call (EP_addon_changelog slug) ∈ events (force_data_refresh hassio true w)
  ∧ Call (EP_addon_info slug) ∈ events (force_data_refresh hassio true w)
  ∧ (d !! ATTR_STATE = Some (VStr ATTR_STARTED) →
     Call (EP_addon_stats slug) ∈ events (force_data_refresh hassio true w)).
Proof.
  rewrite force_data_refresh_unfold.
  destruct (primary_results hassio true w) as [results|] eqn:Hprimary; [|done].
  cbv zeta. intros Hout Hsup Haddons Hin Hslug.
  destruct (primary_ok_supervisor _ _ _ _ Hprimary) as (sup' & Hsup' & Hstored).
  rewrite Hsup in Hsup'. injection Hsup' as <-.
  assert (Hl : listing_of (store_primary hassio true results w) = Return listing).
  { unfold listing_of. rewrite Hstored. cbn [from_option id]. by rewrite Haddons. }
  rewrite Hl in Hout |- *.
  destruct (split_addons listing) as [[all_addons started_addons]|] eqn:Hsplit; [|done].
  destruct (split_addons_elem _ _ _ _ _ Hsplit Hin Hslug) as [Hall Hstarted].
  cbn [events fst snd]. unfold secondary_events, stats_targets, changelog_targets,
    info_targets. rewrite !targets_first.
  split; [|split; [|intros Hstate]]; rewrite !elem_of_app; right.
  - right; left. apply (elem_of_bind_events (changelog_events hassio) _ slug);
      [exact Hall | apply fetch_events_call].
  - right; right. apply (elem_of_bind_events (info_events hassio) _ slug);
      [exact Hall | apply fetch_events_call].
  - left. apply (elem_of_bind_events (stats_events hassio) _ slug);
      [exact (Hstarted Hstate) | apply fetch_events_call].
Qed.

Lemma first_cycle_primary_calls hassio w :
  primary_calls hassio true w =
  [Call EP_info; Call EP_core_info; Call EP_supervisor_info; Call EP_os_info;
   Call EP_core_stats; Call EP_supervisor_stats].
Proof. reflexivity. Qed.

(** On a first cycle with an empty registry: the stats of the started add-on
    and the changelog and info of both are requested. *)
Example first_cycle_run :
  events (force_data_refresh
            (Samples.supervisor_with [Samples.addon "a" "started"; Samples.addon "b" "stopped"])
            true Samples.fresh)
  = [Call EP_info; Call EP_core_info; Call EP_supervisor_info; Call EP_os_info;
     Call EP_core_stats; Call EP_supervisor_stats;
     Call (EP_addon_stats "a");
     Call (EP_addon_changelog "a"); Call (EP_addon_changelog "b");
     Call (EP_addon_info "a"); Call (EP_addon_info "b")].
Proof. vm_compute. reflexivity. Qed.

(** ** Failure of a primary request *)

Lemma bind_try_raised {A B} (m : M A) (k : A → M B) (e' : string → exn) w err w' evs :
  m w = mkRun (Raise (HassioAPIError err)) w' evs →
  (try_except_api m (λ err, raise (e' err)) ≫= k) w = mkRun (Raise (e' err)) w' evs.
Proof.
  intros Hm. rewrite run_bind. unfold try_except_api. rewrite Hm.
  cbn [out post events raise]. by rewrite app_nil_r.
Qed.

Lemma primary_failed_raises hassio first_update w :
  primary_failed hassio first_update w →
  ∃ msg, primary_results hassio first_update w = Raise (HassioAPIError msg).
Proof.
  intros (key & ep & msg & Hin). unfold primary_results.
  apply (map_M_api_failed _ ep msg).
  apply list_elem_of_fmap. exists (key, (ep, ApiError msg)). done.
Qed.

Lemma _async_update_data_primary_failed hassio w :
  primary_failed hassio (bool_decide (data w = None)) w →
  ∃ msg, _async_update_data hassio w
         = mkRun (Raise (UpdateFailed ("Error on Supervisor API: " +:+ msg))) w
                 (primary_calls hassio (bool_decide (data w = None)) w).
Proof.
  intros Hfailed. destruct (primary_failed_raises _ _ _ Hfailed) as [msg Hraise].
  exists msg. unfold _async_update_data. rewrite bind_get_world. cbv zeta.
  unfold update_data_body.
  apply (bind_try_raised _ _ (λ err, UpdateFailed ("Error on Supervisor API: " +:+ err))).
  by rewrite force_data_refresh_unfold, Hraise.
Qed.

(** C4: when a primary request fails, the cycle fails with [UpdateFailed];
    nothing has been written to [hass.data], to the device registry or to the
    data of the coordinator, and after the refresh of the base class the
    published data is still the one of the cycle before. *)
Theorem primary_failure_fails_cycle (hassio : HassIO.t) (w : World)
    (log_failures scheduled : bool) :
  primary_failed hassio (bool_decide (data w = None)) w →
  (∃ msg, out (_async_update_data hassio w) = Raise (UpdateFailed msg))
  ∧ post (_async_update_data hassio w) = w
  ∧ post (super_async_refresh hassio log_failures w) = w
  ∧ data (post (_async_refresh hassio log_failures scheduled w)) = data w
  ∧ hass_data (post (_async_refresh hassio log_failures scheduled w)) = hass_data w.
Proof.
  intros Hfailed.
  destruct (_async_update_data_primary_failed hassio w Hfailed) as [msg Hrun].
  assert (Hsuper : post (super_async_refresh hassio log_failures w) = w).
  { unfold super_async_refresh. by rewrite Hrun. }
  split; [rewrite Hrun; eauto|]. split; [by rewrite Hrun|]. split; [done|].
  unfold _async_refresh. rewrite run_bind.
  assert (Hpre : post ((if negb scheduled
            then try_except_api
                   (request EP_refresh_updates (HassIO.refresh_updates hassio))
                   (λ err, emit (LogWarning ("Error on Supervisor API: " +:+ err)))
            else ret tt) w) = w
          ∧ ∃ a, out ((if negb scheduled
            then try_except_api
                   (request EP_refresh_updates (HassIO.refresh_updates hassio))
                   (λ err, emit (LogWarning ("Error on Supervisor API: " +:+ err)))
            else ret tt) w) = Return a).
  { destruct scheduled; cbn [negb]; [by eauto|].
    unfold try_except_api, request.
    destruct (HassIO.refresh_updates hassio); cbn; eauto. }
  destruct Hpre as [Hpost [a Hout]]. rewrite Hout, Hpost. cbn [post].
  by rewrite Hsuper.
Qed.

Lemma primary_failure_fails_cycle_witness :
  primary_failed Samples.unreachable true Samples.fresh
  ∧ post (_async_update_data Samples.unreachable Samples.fresh) = Samples.fresh.
Proof.
  assert (H : primary_failed Samples.unreachable
                (bool_decide (data Samples.fresh = None)) Samples.fresh).
  { exists DATA_INFO, EP_info, "down". apply list_elem_of_here. }
  split; [exact H|].
  exact (proj1 (proj2 (primary_failure_fails_cycle Samples.unreachable Samples.fresh
                         true false H))).
Defined.

(** ** The refresh of known updates *)

(** C2, as the code has it: a refresh that is NOT scheduled (a forced or
    manual refresh, the initial refresh) first asks the Supervisor to refresh
    its known updates; a failure of that request is logged and the cycle then
    runs as it would have. A scheduled cycle sends no such request. *)
Theorem refresh_updates_unless_scheduled (hassio : HassIO.t) (log_failures : bool)
    (w : World) :
  _async_refresh hassio log_failures false w
    = prepend (refresh_updates_events hassio) (super_async_refresh hassio log_failures w)
  ∧ _async_refresh hassio log_failures true w = super_async_refresh hassio log_failures w.
Proof.
  unfold _async_refresh, refresh_updates_events. split; rewrite run_bind; cbn [negb].
  - unfold try_except_api, request.
    destruct (HassIO.refresh_updates hassio) as [[]|err]; reflexivity.
  - cbn [ret out post events]. apply prepend_nil.
Qed.

(** C2 as stated fails: a scheduled cycle (here the one that follows the
    initial refresh) sends no request for a refresh of the known updates. *)
Lemma scheduled_cycle_skips_refresh_updates :
  bool_decide
    (Call EP_refresh_updates
     ∈ events (_async_refresh (Samples.supervisor_with [Samples.addon "a" "started"])
                 true true
                 (post (_async_refresh
                          (Samples.supervisor_with [Samples.addon "a" "started"])
                          true false Samples.fresh))))
  = false
  ∧ events (_async_refresh (Samples.supervisor_with [Samples.addon "a" "started"])
              true true
              (post (_async_refresh
                       (Samples.supervisor_with [Samples.addon "a" "started"])
                       true false Samples.fresh)))
    = [Call EP_info; Call EP_core_info; Call EP_supervisor_info; Call EP_os_info].
Proof. vm_compute. split; reflexivity. Qed.

(** ** The cycle, stage by stage *)

Lemma same_but_devices_refl w : same_but_devices w w.
Proof. by repeat split. Qed.

Lemma same_but_devices_trans w1 w2 w3 :
  same_but_devices w1 w2 → same_but_devices w2 w3 → same_but_devices w1 w3.
Proof.
  unfold same_but_devices. intros (?&?&?&?&?) (?&?&?&?&?).
  repeat split; congruence.
Qed.

Lemma devices_only_ret {A} (a : A) : devices_only (ret a).
Proof. intros w. apply same_but_devices_refl. Qed.

Lemma devices_only_lift {A} (o : outcome A) : devices_only (lift o).
Proof. intros w. apply same_but_devices_refl. Qed.

Lemma devices_only_emit e : devices_only (emit e).
Proof. intros w. apply same_but_devices_refl. Qed.

Lemma devices_only_get_world : devices_only get_world.
Proof. intros w. apply same_but_devices_refl. Qed.

Lemma devices_only_modify f : devices_only (modify (set_devices f)).
Proof. intros w. by repeat split. Qed.

Lemma devices_only_bind {A B} (m : M A) (k : A → M B) :
  devices_only m → (∀ a, devices_only (k a)) → devices_only (m ≫= k).
Proof.
  intros Hm Hk w. rewrite run_bind.
  destruct (out (m w)) as [a|e]; cbn [post]; [|apply Hm].
  eapply same_but_devices_trans; [apply Hm | apply Hk].
Qed.

Lemma devices_only_for_each {A} (l : list A) (body : A → M unit) :
  (∀ x, devices_only (body x)) → devices_only (for_each l body).
Proof.
  intros Hbody. induction l as [|x l IH]; [apply devices_only_ret|].
  apply (devices_only_bind (body x) (λ _, for_each l body)); auto.
Qed.

Ltac devices_only_step :=
  first [ apply devices_only_ret | apply devices_only_lift | apply devices_only_emit
        | apply devices_only_get_world | apply devices_only_modify
        | apply devices_only_for_each; intros
        | apply devices_only_bind; [|intros] ].

Lemma devices_only_register_all new_data : devices_only (register_all new_data).
Proof.
  unfold register_all, async_register_addons_in_dev_reg, async_register_core_in_dev_reg,
    async_register_supervisor_in_dev_reg, async_register_host_in_dev_reg,
    async_register_os_in_dev_reg.
  repeat devices_only_step.
  destruct (is_hass_os _); repeat devices_only_step.
Qed.

Lemma devices_only_remove_addons s : devices_only (async_remove_addons_from_dev_reg s).
Proof.
  unfold async_remove_addons_from_dev_reg. repeat devices_only_step.
  destruct (async_get_device _ _); repeat devices_only_step.
Qed.

Lemma devices_only_reconcile first_update new_data :
  devices_only (reconcile first_update new_data).
Proof.
  unfold reconcile, remove_stale_addons, remove_os_device, answer.
  apply devices_only_bind; [|intros _].
  { destruct first_update; [apply devices_only_register_all | apply devices_only_ret]. }
  apply devices_only_bind; [|intros _].
  { apply devices_only_bind; [apply devices_only_get_world | intros w1].
    case_bool_decide; [apply devices_only_remove_addons | apply devices_only_ret]. }
  apply devices_only_bind; [|intros _].
  { apply devices_only_bind; [apply devices_only_get_world | intros w2].
    destruct (negb (is_hass_os w2)); [|apply devices_only_ret].
    destruct (async_get_device (DOMAIN, "OS") (devices w2)); repeat devices_only_step. }
  apply devices_only_bind; [apply devices_only_get_world | intros w3].
  destruct (data w3); [case_bool_decide|]; repeat devices_only_step.
Qed.

Lemma bind_returns_inv {A B} (m : M A) (k : A → M B) w x :
  out ((m ≫= k) w) = Return x →
  ∃ a, out (m w) = Return a ∧ out (k a (post (m w))) = Return x.
Proof. rewrite run_bind. destruct (out (m w)); [eauto | done]. Qed.

(** A cycle that answers data answers the data it assembled. *)
Lemma reconcile_returns first_update new_data w x :
  out (reconcile first_update new_data w) = Return (Some x) → x = new_data.
Proof.
  unfold reconcile, answer. intros H.
  apply bind_returns_inv in H as (_ & _ & H).
  apply bind_returns_inv in H as (_ & _ & H).
  apply bind_returns_inv in H as (_ & _ & H).
  apply bind_returns_inv in H as (w3 & _ & H).
  destruct (data w3); [case_bool_decide|]; rewrite ?bind_emit in H; cbn in H; congruence.
Qed.

(** [update_data_body], stage by stage. *)
Lemma update_data_body_unfold hassio first_update w :
  update_data_body hassio first_update w =
  match out (force_data_refresh hassio first_update w) with
  | Raise (HassioAPIError err) =>
      mkRun (Raise (UpdateFailed ("Error on Supervisor API: " +:+ err)))
            (post (force_data_refresh hassio first_update w))
            (events (force_data_refresh hassio first_update w))
  | Raise e =>
      mkRun (Raise e) (post (force_data_refresh hassio first_update w))
            (events (force_data_refresh hassio first_update w))
  | Return _ =>
      match build_new_data (post (force_data_refresh hassio first_update w)) with
      | Raise e =>
          mkRun (Raise e) (post (force_data_refresh hassio first_update w))
                (events (force_data_refresh hassio first_update w))
      | Return new_data =>
          prepend (events (force_data_refresh hassio first_update w))
                  (reconcile first_update new_data
                     (post (force_data_refresh hassio first_update w)))
      end
  end.
Proof.
  unfold update_data_body. rewrite run_bind. unfold try_except_api.
  destruct (force_data_refresh hassio first_update w) as [[[]|e] p evs];
    cbn [out post events].
  - rewrite bind_get_world, bind_lift.
    destruct (build_new_data p); [reflexivity|].
    cbn [out post events]. by rewrite app_nil_r.
  - destruct e; cbn [out post events raise]; try reflexivity.
    by rewrite app_nil_r.
Qed.

(** ** The add-ons of a snapshot *)

Lemma map_M_Forall2 {A B} (f : A → outcome B) l : ∀ ys,
  map_M f l = Return ys → Forall2 (λ x y, f x = Return y) l ys.
Proof.
  induction l as [|x l IH]; intros ys; simpl.
  - intros [= <-]. constructor.
  - destruct (f x) as [y|] eqn:Hx; [|done].
    destruct (map_M f l) as [ys'|]; [|done].
    intros [= <-]. constructor; auto.
Qed.

Lemma addon_record_inv addons_stats addons_info addons_changelogs repositories addon
    slug record :
  addon_record addons_stats addons_info addons_changelogs repositories addon
    = Return (slug, record) →
  slug_of addon = Some slug
  ∧ ∃ stats, unpack (py_or (dict_get addons_stats slug) (VDict ∅)) = Return stats
             ∧ record !! ATTR_SLUG = Some (default (VStr slug) (stats !! ATTR_SLUG)).
Proof.
  unfold addon_record, slug_of.
  destruct addon as [| | | | |d]; try done. cbn [subscript unpack].
  destruct (d !! ATTR_SLUG) as [[| | |slug'| |]|] eqn:Hslug; try done.
  cbn [as_str].
  destruct (unpack (py_or (dict_get addons_stats slug') (VDict ∅))) as [stats|] eqn:Hstats;
    [|done].
  destruct (get_or _ _ _) as [auto_update|]; [|done].
  destruct (repositories_get _ _ _) as [repository|]; [|done].
  intros [= <- <-]. split; [done|]. exists stats. split; [done|].
  rewrite !lookup_insert_ne by done.
  unfold dict_merge. rewrite lookup_union.
  destruct (stats !! ATTR_SLUG) as [v|]; rewrite Hslug; reflexivity.
Qed.

Lemma foldl_insert_dom {V} (pairs : list (string * V)) : ∀ (m : gmap string V),
  dom (foldl (λ m p, <[p.1 := p.2]> m) m pairs) = dom m ∪ list_to_set pairs.*1.
Proof.
  induction pairs as [|[k v] pairs IH]; intros m; simpl.
  - set_solver.
  - rewrite IH, dom_insert_L. set_solver.
Qed.

Lemma foldl_insert_lookup_Some {V} (pairs : list (string * V)) : ∀ (m : gmap string V) k v,
  foldl (λ m p, <[p.1 := p.2]> m) m pairs !! k = Some v →
  (k, v) ∈ pairs ∨ m !! k = Some v.
Proof.
  induction pairs as [|[k' v'] pairs IH]; intros m k v; simpl; [by right|].
  intros H. apply IH in H as [H|H]; [left; by apply list_elem_of_further|].
  rewrite lookup_insert in H. destruct (decide (k' = k)) as [->|].
  - injection H as ->. left. apply list_elem_of_here.
  - by right.
Qed.

Lemma addons_dict_dom pairs : dom (addons_dict pairs) = list_to_set pairs.*1.
Proof. unfold addons_dict. rewrite foldl_insert_dom. set_solver. Qed.

Lemma addons_dict_lookup pairs k record :
  addons_dict pairs !! k = Some record → (k, record) ∈ pairs.
Proof.
  unfold addons_dict. intros H. apply foldl_insert_lookup_Some in H as [H|H]; [done|].
  by rewrite lookup_empty in H.
Qed.

Lemma build_new_data_inv w new_data :
  build_new_data w = Return new_data →
  ∃ listing pairs repositories,
    listing_of w = Return listing
    ∧ map_M (addon_record (addon_store w DATA_ADDONS_STATS)
                          (default ∅ (get_addons_info w))
                          (addon_store w DATA_ADDONS_CHANGELOGS) repositories) listing
      = Return pairs
    ∧ addons new_data = addons_dict pairs.
Proof.
  unfold build_new_data.
  destruct (iterate (default (VList []) (default ∅ (get_store w) !! "repositories")));
    [|done].
  destruct (repositories_of _ _) as [repositories|]; [|done].
  destruct (iterate _) as [listing|] eqn:Hlisting; [|done].
  destruct (map_M _ listing) as [pairs|] eqn:Hpairs; [|done].
  destruct (merge_required _ (get_core_stats w)); [|done].
  destruct (merge_required _ (get_supervisor_stats w)); [|done].
  intros [= <-]. exists listing, pairs, repositories. auto.
Qed.

Lemma records_of_listing (f : value → outcome (string * dict)) listing pairs :
  (∀ addon slug record, f addon = Return (slug, record) → slug_of addon = Some slug) →
  Forall2 (λ addon p, f addon = Return p) listing pairs →
  omap slug_of listing = pairs.*1
  ∧ Forall (λ addon, is_Some (slug_of addon)) listing
  ∧ ∀ p, p ∈ pairs → ∃ addon, addon ∈ listing ∧ f addon = Return p.
Proof.
  intros Hf Hp.
  induction Hp as [|addon [slug record] listing pairs Hx _ (IH1 & IH2 & IH3)].
  - repeat split; [constructor|]. intros p Hin. by apply elem_of_nil in Hin.
  - pose proof (Hf _ _ _ Hx) as Hslug. split; [|split].
    + cbn. by rewrite Hslug, IH1.
    + constructor; [by rewrite Hslug | done].
    + intros p. rewrite elem_of_cons. intros [->|Hin].
      * exists addon. split; [apply list_elem_of_here | done].
      * destruct (IH3 p Hin) as (addon' & Hin' & Hp').
        exists addon'. split; [by apply list_elem_of_further | done].
Qed.

(** The add-ons of the assembled data: their keys are the slugs of the
    listing, and the slug a record carries is the one of its key unless the
    stats cached for the slug bring a slug of their own. *)
Lemma build_new_data_addons w new_data :
  build_new_data w = Return new_data →
  ∃ listing,
    listing_of w = Return listing
    ∧ Forall (λ addon, is_Some (slug_of addon)) listing
    ∧ dom (addons new_data) = listed_slugs listing
    ∧ ∀ slug record,
        addons new_data !! slug = Some record →
        (∀ stats, addon_store w DATA_ADDONS_STATS !! slug = Some (VDict stats) →
                  stats !! ATTR_SLUG = None) →
        record !! ATTR_SLUG = Some (VStr slug).
Proof.
  intros H. apply build_new_data_inv in H as (listing & pairs & repos & Hl & Hp & ->).
  apply map_M_Forall2 in Hp.
  apply records_of_listing in Hp as (Hslugs & Hall & Hsrc);
    [|intros addon slug record Hx; by apply addon_record_inv in Hx as [Hx _]].
  exists listing. split; [done|]. split; [done|]. split.
  - unfold listed_slugs. by rewrite addons_dict_dom, Hslugs.
  - intros slug record Hlookup Hstats.
    apply addons_dict_lookup, Hsrc in Hlookup as (addon & _ & Hrec).
    apply addon_record_inv in Hrec as (_ & stats & Hunpack & ->).
    f_equal. unfold py_or, dict_get in Hunpack.
    destruct (addon_store w DATA_ADDONS_STATS !! slug) as [v|] eqn:Hv; cbn in Hunpack.
    + destruct (truthy v) eqn:Htruthy.
      * destruct v; try done. injection Hunpack as <-. by rewrite (Hstats _ eq_refl).
      * injection Hunpack as <-. by rewrite lookup_empty.
    + injection Hunpack as <-. by rewrite lookup_empty.
Qed.

Lemma force_data_refresh_ok_supervisor hassio first_update w :
  out (force_data_refresh hassio first_update w) = Return tt →
  ∃ sup, HassIO.get_supervisor_info hassio = ApiOk sup
         ∧ hass_data (post (force_data_refresh hassio first_update w))
             !! DATA_SUPERVISOR_INFO = Some sup.
Proof.
  rewrite force_data_refresh_unfold.
  destruct (primary_results hassio first_update w) as [results|] eqn:Hprimary; [|done].
  cbv zeta. destruct (listing_of _) as [l|]; [|done].
  destruct (split_addons l) as [lists|]; [|done]. intros _. cbn [post].
  destruct (primary_ok_supervisor _ _ _ _ Hprimary) as (sup & Hsup & Hstored).
  exists sup. split; [done|].
  unfold store_secondary. by rewrite !store_addons_lookup, !decide_False by done.
Qed.

(** What a cycle that answers data went through. *)
Lemma _async_update_data_returns hassio w new_data :
  out (_async_update_data hassio w) = Return (Some new_data) →
  out (force_data_refresh hassio (bool_decide (data w = None)) w) = Return tt
  ∧ build_new_data (post (force_data_refresh hassio (bool_decide (data w = None)) w))
    = Return new_data
  ∧ _async_update_data hassio w
    = prepend (events (force_data_refresh hassio (bool_decide (data w = None)) w))
        (reconcile (bool_decide (data w = None)) new_data
           (post (force_data_refresh hassio (bool_decide (data w = None)) w))).
Proof.
  unfold _async_update_data. rewrite bind_get_world. cbv zeta.
  rewrite update_data_body_unfold.
  destruct (out (force_data_refresh _ _ _)) as [[]|e] eqn:Hout.
  - destruct (build_new_data _) as [nd|] eqn:Hnd; [|done].
    cbn [prepend out]. intros Hrec.
    apply reconcile_returns in Hrec as ->. done.
  - by destruct e.
Qed.

(** C5 as stated fails: when the stats the Supervisor answers for add-on
    [a] carry a slug, the record stored under the key [a] carries that
    slug. *)
Lemma record_slug_overridden_by_stats :
  match out (_async_update_data (Samples.impostor [Samples.addon "a" "started"])
               Samples.fresh) with
  | Return (Some new_data) =>
      (addons new_data !! "a") ≫= (λ record : dict, record !! ATTR_SLUG)
  | _ => None
  end = Some (VStr "b").
Proof. vm_compute. reflexivity. Qed.

(** ** Reconciliation of the device registry *)

Lemma set_devices_id w devs : devs = devices w → set_devices (λ _, devs) w = w.
Proof. intros ->. by destruct w. Qed.

Lemma remove_step slug w :
  (get_world ≫= λ w0,
     match async_get_device (DOMAIN, slug) (devices w0) with
     | Some _ => modify (set_devices (async_remove_device (DOMAIN, slug)))
     | None => ret tt
     end) w
  = mkRun (Return tt) (set_devices (λ _, delete (DOMAIN, slug) (devices w)) w) [].
Proof.
  rewrite bind_get_world. unfold async_get_device.
  destruct (devices w !! (DOMAIN, slug)) eqn:Hdev; [reflexivity|].
  cbn. by rewrite set_devices_id by (by rewrite delete_id).
Qed.

Lemma async_remove_addons_run s w :
  async_remove_addons_from_dev_reg s w =
  mkRun (Return tt) (set_devices (λ _, remove_slugs (elements s) (devices w)) w) [].
Proof.
  unfold async_remove_addons_from_dev_reg.
  generalize (elements s) as slugs. intros slugs. revert w.
  induction slugs as [|slug slugs IH]; intros w.
  - cbn. by rewrite set_devices_id.
  - cbn [for_each]. rewrite (bind_returned _ _ _ _ _ _ (remove_step slug w)).
    rewrite IH. reflexivity.
Qed.

Lemma remove_stale_addons_run new_data w :
  remove_stale_addons new_data w =
  mkRun (Return tt)
        (set_devices (λ _,
           remove_slugs (elements (supervisor_addon_devices w ∖ dom (addons new_data)))
                        (devices w)) w) [].
Proof.
  unfold remove_stale_addons. rewrite bind_get_world. cbv zeta.
  case_bool_decide as Hstale; [apply async_remove_addons_run|].
  rewrite Hstale, elements_empty. cbn.
  by rewrite set_devices_id.
Qed.

Lemma remove_os_device_run w :
  remove_os_device w =
  mkRun (Return tt)
        (set_devices (λ _, if is_hass_os w then devices w
                           else delete (DOMAIN, "OS") (devices w)) w) [].
Proof.
  unfold remove_os_device. rewrite bind_get_world. unfold async_get_device.
  destruct (is_hass_os w); cbn [negb]; [cbn; by rewrite set_devices_id|].
  destruct (devices w !! (DOMAIN, "OS")) eqn:Hos; [reflexivity|].
  cbn. by rewrite set_devices_id by (by rewrite delete_id).
Qed.

Lemma answer_run new_data w :
  answer new_data w =
  mkRun (Return (if grew new_data w then None else Some new_data)) w
        (if grew new_data w then [ReloadEntry (entry_id w)] else []).
Proof.
  unfold answer, grew. rewrite bind_get_world.
  destruct (data w); [case_bool_decide|]; try reflexivity.
Qed.

(** What follows the registrations: stale add-ons, the OS device, the
    answer. *)
Lemma finish_run new_data w :
  (remove_stale_addons new_data;; remove_os_device;; answer new_data) w =
  mkRun (Return (if grew new_data w then None else Some new_data))
        (set_devices (λ _, cleaned new_data w) w)
        (if grew new_data w then [ReloadEntry (entry_id w)] else []).
Proof.
  rewrite run_bind, remove_stale_addons_run. cbn [out post events].
  rewrite run_bind, remove_os_device_run. cbn [out post events].
  rewrite answer_run. reflexivity.
Qed.

Lemma reconcile_later_run new_data w :
  reconcile false new_data w =
  mkRun (Return (if grew new_data w then None else Some new_data))
        (set_devices (λ _, cleaned new_data w) w)
        (if grew new_data w then [ReloadEntry (entry_id w)] else []).
Proof.
  unfold reconcile. rewrite run_bind. cbn [ret out post events].
  rewrite finish_run. reflexivity.
Qed.

(** The refresh writes to [hass.data] only. *)
Lemma force_data_refresh_frame hassio first_update w :
  devices (post (force_data_refresh hassio first_update w)) = devices w
  ∧ data (post (force_data_refresh hassio first_update w)) = data w
  ∧ entry_id (post (force_data_refresh hassio first_update w)) = entry_id w
  ∧ is_hass_os (post (force_data_refresh hassio first_update w)) = is_hass_os w
  ∧ container_updates (post (force_data_refresh hassio first_update w))
    = container_updates w.
Proof.
  rewrite force_data_refresh_unfold.
  destruct (primary_results _ _ _); [|by repeat split]. cbv zeta.
  destruct (listing_of _) as [l|]; [|by repeat split].
  destruct (split_addons l); by repeat split.
Qed.

(** C8: a cycle that is not the first one, with add-ons {A, B} in the data
    of the cycle before and {A, C} in the new listing, the registry holding
    the add-on devices A and B of this entry as the cycle before left it:
    the device of B is removed and no other (none for C in particular), the
    reload of the config entry is requested, and the cycle answers the empty
    data. *)
Theorem growth_reconciliation (hassio : HassIO.t) (w : World)
    (old new_data : Snapshot) (A B C : string) :
  data w = Some old →
  dom (addons old) = {[A; B]} →
  out (force_data_refresh hassio false w) = Return tt →
  build_new_data (post (force_data_refresh hassio false w)) = Return new_data →
  dom (addons new_data) = {[A; C]} →
  B ≠ A → B ≠ C → C ≠ A →
  supervisor_addon_devices w = {[A; B]} →
  (is_hass_os w = true ∨ devices w !! (DOMAIN, "OS") = None) →
  out (_async_update_data hassio w) = Return None
  ∧ ReloadEntry (entry_id w) ∈ events (_async_update_data hassio w)
  ∧ devices (post (_async_update_data hassio w)) = delete (DOMAIN, B) (devices w)
  ∧ devices (post (_async_update_data hassio w)) !! (DOMAIN, C)
    = devices w !! (DOMAIN, C).
Proof.
  intros Hdata Hold Hout Hnd Hnew HBA HBC HCA Hreg Hos.
  unfold _async_update_data. rewrite bind_get_world. cbv zeta.
  rewrite (bool_decide_eq_false_2 (data w = None)) by (by rewrite Hdata).
  rewrite update_data_body_unfold, Hout, Hnd, reconcile_later_run.
  destruct (force_data_refresh_frame hassio false w) as (Hdev & Hdat & Hid & Hhos & _).
  set (w2 := post (force_data_refresh hassio false w)) in *.
  assert (Hgrew : grew new_data w2 = true).
  { unfold grew. rewrite Hdat, Hdata. apply bool_decide_eq_true_2.
    rewrite Hnew, Hold. intros Hempty.
    assert (HC : C ∈ ({[A; C]} ∖ {[A; B]} : gset string)) by set_solver.
    rewrite Hempty in HC. by apply elem_of_empty in HC. }
  assert (Hclean : cleaned new_data w2 = delete (DOMAIN, B) (devices w)).
  { unfold cleaned.
    assert (Hstale : supervisor_addon_devices w2 ∖ dom (addons new_data) = {[B]}).
    { unfold supervisor_addon_devices. rewrite Hid, Hdev.
      fold (supervisor_addon_devices w). rewrite Hreg, Hnew. set_solver. }
    rewrite Hstale, elements_singleton, Hhos, Hdev. cbn [remove_slugs foldl].
    destruct Hos as [->| Hnone]; [done|].
    destruct (is_hass_os w); [done|].
    apply delete_id. by rewrite lookup_delete_None; right. }
  rewrite Hgrew, Hclean, Hid. cbn [prepend out post events devices set_devices].
  split; [done|]. split.
  { apply elem_of_app. right. apply list_elem_of_here. }
  split; [done|]. apply lookup_delete_ne. congruence.
Qed.

Lemma growth_reconciliation_witness :
  supervisor_addon_devices Samples.after_first = {["a"; "b"]}
  ∧ out (_async_update_data
           (Samples.supervisor_with [Samples.addon "a" "started"; Samples.addon "c" "started"])
           Samples.after_first) = Return None
  ∧ ReloadEntry (entry_id Samples.after_first)
    ∈ events (_async_update_data
                (Samples.supervisor_with
                   [Samples.addon "a" "started"; Samples.addon "c" "started"])
                Samples.after_first)
  ∧ devices (post (_async_update_data
                (Samples.supervisor_with
                   [Samples.addon "a" "started"; Samples.addon "c" "started"])
                Samples.after_first))
    = delete (DOMAIN, "b") (devices Samples.after_first)
  ∧ devices (post (_async_update_data
                (Samples.supervisor_with
                   [Samples.addon "a" "started"; Samples.addon "c" "started"])
                Samples.after_first)) !! (DOMAIN, "c")
    = devices Samples.after_first !! (DOMAIN, "c").
Proof.
  split; [vm_compute; reflexivity|].
  eapply (growth_reconciliation
            (Samples.supervisor_with [Samples.addon "a" "started"; Samples.addon "c" "started"])
            Samples.after_first _ _ "a" "b" "c").
  - vm_compute. reflexivity.
  - vm_compute. reflexivity.
  - vm_compute. reflexivity.
  - vm_compute. reflexivity.
  - vm_compute. reflexivity.
  - discriminate.
  - discriminate.
  - discriminate.
  - vm_compute. reflexivity.
  - left. reflexivity.
Defined.

(** ** The registrations of a first cycle *)



Lemma register_one_run {A} (o : outcome A) (mk : A → DeviceInfo) w :
  (lift o ≫= λ a, get_world ≫= λ w,
     modify (set_devices (async_get_or_create (entry_id w) (mk a)))) w
  = match o with
    | Return a =>
        mkRun (Return tt) (set_devices (async_get_or_create (entry_id w) (mk a)) w) []
    | Raise e => mkRun (Raise e) w []
    end.
Proof. rewrite bind_lift. destruct o; [by rewrite bind_get_world | done]. Qed.













Lemma bind_ok_inv {A B} (m : M A) (k : A → M B) w x :
  out ((m ≫= k) w) = Return x →
  ∃ a, out (m w) = Return a
       ∧ out (k a (post (m w))) = Return x
       ∧ post ((m ≫= k) w) = post (k a (post (m w))).
Proof.
  rewrite run_bind. destruct (out (m w)) as [a|]; [|done].
  intros H. exists a. auto.
Qed.


Lemma refresh_events_in_body hassio first_update w e :
  e ∈ events (force_data_refresh hassio first_update w) →
  e ∈ events (update_data_body hassio first_update w).
Proof.
  intros He. rewrite update_data_body_unfold.
  destruct (out (force_data_refresh hassio first_update w)) as [[]|err].
  - destruct (build_new_data _); [|done]. cbn [prepend events].
    apply elem_of_app. by left.
  - by destruct err.
Qed.

Lemma first_cycle_is_body hassio w :
  data w = None → _async_update_data hassio w = update_data_body hassio true w.
Proof.
  intros Hdata. unfold _async_update_data. rewrite bind_get_world. cbv zeta.
  by rewrite bool_decide_eq_true_2.
Qed.

(** A cycle itself writes neither the data of the coordinator nor its
    registry of interests. *)
Lemma _async_update_data_frame hassio w :
  data (post (_async_update_data hassio w)) = data w
  ∧ entry_id (post (_async_update_data hassio w)) = entry_id w
  ∧ is_hass_os (post (_async_update_data hassio w)) = is_hass_os w
  ∧ container_updates (post (_async_update_data hassio w)) = container_updates w.
Proof.
  unfold _async_update_data. rewrite bind_get_world. cbv zeta.
  rewrite update_data_body_unfold.
  destruct (force_data_refresh_frame hassio (bool_decide (data w = None)) w)
    as (_ & Hdat & Hid & Hhos & Hcu).
  destruct (out (force_data_refresh _ _ _)) as [[]|err].
  - destruct (build_new_data _) as [new_data|]; [|done].
    cbn [prepend post].
    destruct (devices_only_reconcile (bool_decide (data w = None)) new_data
                (post (force_data_refresh hassio (bool_decide (data w = None)) w)))
      as (_ & -> & -> & -> & ->).
    done.
  - by destruct err.
Qed.



(** ** Cycles and their requests *)

Lemma cycle_hass_data hassio w :
  hass_data (post (_async_update_data hassio w))
  = hass_data (post (force_data_refresh hassio (bool_decide (data w = None)) w)).
Proof.
  unfold _async_update_data. rewrite bind_get_world. cbv zeta.
  rewrite update_data_body_unfold.
  destruct (out (force_data_refresh _ _ _)) as [[]|err].
  - destruct (build_new_data _) as [new_data|]; [|done]. cbn [prepend post].
    by destruct (devices_only_reconcile (bool_decide (data w = None)) new_data
                   (post (force_data_refresh hassio (bool_decide (data w = None)) w)))
      as (-> & _).
  - by destruct err.
Qed.

Lemma refresh_events_in_cycle hassio w e :
  e ∈ events (force_data_refresh hassio (bool_decide (data w = None)) w) →
  e ∈ events (_async_update_data hassio w).
Proof.
  intros He. unfold _async_update_data. rewrite bind_get_world. cbv zeta.
  by apply refresh_events_in_body.
Qed.

(** C9: a cycle leaves alone the cached stats (changelog, info) of every
    slug for which it did not send the stats (changelog, info) request: only
    the entries of the slugs it fetched are written. *)
Theorem unfetched_entries_kept (hassio : HassIO.t) (w : World) (slug : string) :
  (Call (EP_addon_stats slug) ∉ events (_async_update_data hassio w) →
   addon_store (post (_async_update_data hassio w)) DATA_ADDONS_STATS !! slug
   = addon_store w DATA_ADDONS_STATS !! slug)
  ∧ (Call (EP_addon_changelog slug) ∉ events (_async_update_data hassio w) →
     addon_store (post (_async_update_data hassio w)) DATA_ADDONS_CHANGELOGS !! slug
     = addon_store w DATA_ADDONS_CHANGELOGS !! slug)
  ∧ (Call (EP_addon_info slug) ∉ events (_async_update_data hassio w) →
     addon_store (post (_async_update_data hassio w)) DATA_ADDONS_INFO !! slug
     = addon_store w DATA_ADDONS_INFO !! slug).
Proof.
  unfold addon_store. rewrite cycle_hass_data.
  destruct (force_data_refresh_stores hassio (bool_decide (data w = None)) w slug)
    as (Hs & Hc & Hi).
  repeat split; intros Hnot; [destruct Hs as [Hs|Hs] | destruct Hc as [Hc|Hc]
                              | destruct Hi as [Hi|Hi]];
    try done; by apply refresh_events_in_cycle in Hs || apply refresh_events_in_cycle in Hc
                  || apply refresh_events_in_cycle in Hi.
Qed.

(** A cycle that is not the first one and in which nobody is interested in
    add-on [a]: its cached stats are still there afterwards. *)
Example cached_stats_survive_run :
  addon_store (post (_async_update_data
                       (Samples.flaky [Samples.addon "a" "started"])
                       Samples.after_first)) DATA_ADDONS_STATS !! "a"
  = Some (VDict {["cpu_percent" := VInt 3]})
  ∧ events (_async_update_data (Samples.flaky [Samples.addon "a" "started"])
              Samples.after_first)
    = [Call EP_info; Call EP_core_info; Call EP_supervisor_info; Call EP_os_info].
Proof. vm_compute. split; reflexivity. Qed.

(** C6: on the first cycle (the coordinator holds no data), whatever the
    interest registry holds, the requests for the core and supervisor
    container stats are sent, and when the refresh goes through, a changelog
    and an info request have been sent for every add-on the Supervisor
    listed and a stats request for every listed add-on whose state is
    "started". *)
Theorem first_cycle_fetches_everything (hassio : HassIO.t) (w : World) :
  data w = None →
  Call EP_core_stats ∈ events (_async_update_data hassio w)
  ∧ Call EP_supervisor_stats ∈ events (_async_update_data hassio w)
  ∧ ∀ sup listing d slug,
      out (force_data_refresh hassio true w) = Return tt →
      HassIO.get_supervisor_info hassio = ApiOk sup →
      sup !! "addons" = Some (VList listing) →
      VDict d ∈ listing →
      d !! ATTR_SLUG = Some (VStr slug) →
      Call (EP_addon_changelog slug) ∈ events (_async_update_data hassio w)
      ∧ Call (EP_addon_info slug) ∈ events (_async_update_data hassio w)
      ∧ (d !! ATTR_STATE = Some (VStr ATTR_STARTED) →
         Call (EP_addon_stats slug) ∈ events (_async_update_data hassio w)).
Proof.
  intros Hdata. rewrite first_cycle_is_body by done.
  split; [|split].
  - apply refresh_events_in_body, primary_calls_events.
    rewrite first_cycle_primary_calls. rewrite !elem_of_cons. tauto.
  - apply refresh_events_in_body, primary_calls_events.
    rewrite first_cycle_primary_calls. rewrite !elem_of_cons. tauto.
  - intros sup listing d slug Hout Hsup Hl Hd Hslug.
    destruct (first_cycle_addon_calls hassio w sup listing d slug Hout Hsup Hl Hd Hslug)
      as (Hc & Hi & Hs).
    repeat split; [| |intros Hstate]; apply refresh_events_in_body; auto.
Qed.

Lemma first_cycle_fetches_everything_witness :
  data Samples.fresh = None
  ∧ Call EP_core_stats
    ∈ events (_async_update_data
                (Samples.supervisor_with
                   [Samples.addon "a" "started"; Samples.addon "b" "stopped"])
                Samples.fresh)
  ∧ Call (EP_addon_stats "a")
    ∈ events (_async_update_data
                (Samples.supervisor_with
                   [Samples.addon "a" "started"; Samples.addon "b" "stopped"])
                Samples.fresh)
  ∧ Call (EP_addon_changelog "b")
    ∈ events (_async_update_data
                (Samples.supervisor_with
                   [Samples.addon "a" "started"; Samples.addon "b" "stopped"])
                Samples.fresh).
Proof.
  split; [reflexivity|].
  destruct (first_cycle_fetches_everything
              (Samples.supervisor_with
                 [Samples.addon "a" "started"; Samples.addon "b" "stopped"])
              Samples.fresh eq_refl) as (Hcore & _ & Haddons).
  split; [exact Hcore|]. split.
  - refine (proj2 (proj2 (Haddons (<["addons" := VList [Samples.addon "a" "started";
                                               Samples.addon "b" "stopped"]]>
                                    Samples.versioned)
                            [Samples.addon "a" "started"; Samples.addon "b" "stopped"]
                            _ "a" _ eq_refl eq_refl _ _)) _).
    + vm_compute. reflexivity.
    + apply list_elem_of_here.
    + reflexivity.
    + reflexivity.
  - refine (proj1 (Haddons (<["addons" := VList [Samples.addon "a" "started";
                                               Samples.addon "b" "stopped"]]>
                                    Samples.versioned)
                            [Samples.addon "a" "started"; Samples.addon "b" "stopped"]
                            _ "b" _ eq_refl eq_refl _ _)).
    + vm_compute. reflexivity.
    + apply list_elem_of_further, list_elem_of_here.
    + reflexivity.
Defined.

(** The slug whose only subscriber has withdrawn is still fetched: the run
    of a later cycle. *)
Example stats_requested_after_unsubscribe_run :
  bool_decide
    (Call (EP_addon_stats "a")
     ∈ events (_async_update_data (Samples.supervisor_with [Samples.addon "a" "started"])
                 (post (_remove (mkHandle "a" "sensor.a_cpu" {[CONTAINER_STATS]})
                    (post (async_enable_container_updates "a" "sensor.a_cpu"
                             {[CONTAINER_STATS]} Samples.after_first))))))
  = true
  ∧ bool_decide
      (Call (EP_addon_stats "a")
       ∈ events (_async_update_data (Samples.supervisor_with [Samples.addon "a" "started"])
                   Samples.after_first))
    = false.
Proof. vm_compute. split; reflexivity. Qed.

(** A cycle in which the stats of add-on [b] cannot be read answers data
    all the same; the record of [a] has its stats, the one of [b] has none. *)
Example flaky_cycle_run :
  match out (_async_update_data
               (Samples.flaky [Samples.addon "a" "started"; Samples.addon "b" "started"])
               Samples.fresh) with
  | Return (Some new_data) =>
      ((addons new_data !! "a") ≫= (λ record : dict, record !! "cpu_percent"),
       (addons new_data !! "b") ≫= (λ record : dict, record !! "cpu_percent"),
       (addons new_data !! "b") ≫= (λ record : dict, record !! ATTR_SLUG))
  | _ => (None, None, None)
  end = (Some (VInt 3), None, Some (VStr "b")).
Proof. vm_compute. reflexivity. Qed.

(** * Further properties *)

(** ** More on the interest registry *)

Lemma add_keys_lookup entity_id keys : ∀ eu key,
  add_keys entity_id keys eu !! key =
  if decide (key ∈ keys) then Some (subscribers_of eu key ∪ {[entity_id]})
  else eu !! key.
Proof.
  unfold add_keys. induction keys as [|k keys IH]; intros eu key; cbn [foldl].
  - by rewrite decide_False by apply not_elem_of_nil.
  - rewrite IH, subscribers_of_insert, lookup_insert.
    destruct (decide (key ∈ keys)) as [Hin|Hnin];
      destruct (decide (k = key)) as [->|Hne];
      destruct (decide (_ ∈ _ :: _)) as [Hc|Hc]; try done.
    + f_equal. set_solver.
    + destruct Hc. by apply list_elem_of_further.
    + destruct Hc. by apply list_elem_of_further.
    + destruct Hc. apply list_elem_of_here.
    + apply elem_of_cons in Hc. naive_solver.
Qed.

Lemma remove_keys_dom entity_id keys : ∀ eu,
  dom eu ⊆ dom (remove_keys entity_id keys eu).2.
Proof.
  induction keys as [|k keys IH]; intros eu; cbn [remove_keys]; [done|].
  destruct (bool_decide _).
  - etrans; [|apply IH]. rewrite dom_insert. set_solver.
  - cbn [snd]. rewrite dom_insert. set_solver.
Qed.

Lemma remove_keys_others entity_id keys : ∀ eu key,
  subscribers_of (remove_keys entity_id keys eu).2 key ∖ {[entity_id]}
  = subscribers_of eu key ∖ {[entity_id]}.
Proof.
  induction keys as [|k keys IH]; intros eu key; cbn [remove_keys]; [done|].
  destruct (bool_decide _).
  - rewrite IH, subscribers_of_insert. case_decide; [subst; set_solver | done].
  - cbn [snd]. rewrite subscribers_of_insert. case_decide; [by subst | done].
Qed.

(** X1: subscribing and then invoking the handle that was returned always
    goes through. It leaves every subscriber set without the subscriber for
    the kinds passed: as it was when the subscriber was not registered for
    them, and short of an earlier subscription of the same subscriber when
    there was one. All other sets are as before. *)
Theorem subscribe_then_unsubscribe (slug entity_id : string) (types : gset string)
    (w : World) :
  out (_remove (mkHandle slug entity_id types)
         (post (async_enable_container_updates slug entity_id types w))) = Return tt
  ∧ ∀ s k,
      subscribers (post (_remove (mkHandle slug entity_id types)
                     (post (async_enable_container_updates slug entity_id types w)))) s k
      = if decide (s = slug ∧ k ∈ types) then subscribers w s k ∖ {[entity_id]}
        else subscribers w s k.
Proof.
  set (w1 := post (async_enable_container_updates slug entity_id types w)).
  destruct (remove_ok (mkHandle slug entity_id types) w1) as [Hout Hsub].
  { intros k Hk. unfold w1. rewrite enable_subscribers. cbn [rm_slug rm_entity_id rm_types] in *.
    rewrite decide_True by done. apply elem_of_union_r. by apply elem_of_singleton. }
  split; [done|]. intros s k. rewrite Hsub. cbn [rm_slug rm_entity_id rm_types].
  unfold w1. rewrite enable_subscribers.
  case_decide; [|done]. apply set_eq. intros x.
  rewrite !elem_of_difference, elem_of_union, !elem_of_singleton. tauto.
Qed.

(** X2: subscribing again with the same arguments changes nothing: the
    world after two identical subscriptions is the world after one. *)
Theorem subscribe_idempotent (slug entity_id : string) (types : gset string) (w : World) :
  post (async_enable_container_updates slug entity_id types
          (post (async_enable_container_updates slug entity_id types w)))
  = post (async_enable_container_updates slug entity_id types w).
Proof.
  unfold async_enable_container_updates, set_container_updates.
  cbn [post container_updates hass_data devices data entry_id is_hass_os].
  f_equal. rewrite enabled_updates_of_insert, decide_True by done.
  rewrite insert_insert_eq. f_equal.
  apply map_eq. intros key. rewrite !add_keys_lookup.
  case_decide as Hin; [|done]. f_equal.
  unfold subscribers_of at 1. rewrite add_keys_lookup, decide_True by done.
  cbn [default from_option id]. apply set_eq. intros x.
  rewrite !elem_of_union, !elem_of_singleton. tauto.
Qed.

(** X3: a key that is enabled for a slug stays enabled: neither a
    subscription, nor the invocation of any handle (whether it returns or
    raises), nor a cycle takes a key out of the dictionary of a slug. *)
Theorem enabled_keys_stay (hassio : HassIO.t) (slug entity_id : string)
    (types : gset string) (h : RemoveHandle) (w : World) (key s : string) :
  is_enabled (container_updates w) key s = true →
  is_enabled (container_updates
                (post (async_enable_container_updates slug entity_id types w))) key s = true
  ∧ is_enabled (container_updates (post (_remove h w))) key s = true
  ∧ is_enabled (container_updates (post (_async_update_data hassio w))) key s = true.
Proof.
  unfold is_enabled. rewrite !bool_decide_eq_true. intros Hkey.
  split; [|split].
  - unfold async_enable_container_updates, set_container_updates. cbn [post container_updates].
    rewrite enabled_updates_of_insert. case_decide as Hs; [subst s|done].
    apply elem_of_dom. rewrite add_keys_lookup.
    case_decide; [done|]. by apply elem_of_dom.
  - unfold _remove, set_container_updates. cbn [post container_updates].
    rewrite enabled_updates_of_insert. case_decide as Hs; [subst s|done].
    by apply remove_keys_dom.
  - by destruct (_async_update_data_frame hassio w) as (_ & _ & _ & ->).
Qed.

Lemma enabled_keys_stay_witness :
  is_enabled (container_updates Samples.after_subscription) CONTAINER_STATS "a" = true
  ∧ is_enabled
      (container_updates
         (post (_remove (mkHandle "a" "sensor.a_cpu" {[CONTAINER_STATS]})
                  Samples.after_subscription))) CONTAINER_STATS "a" = true.
Proof.
  assert (H : is_enabled (container_updates Samples.after_subscription)
                CONTAINER_STATS "a" = true) by reflexivity.
  split; [exact H|].
  exact (proj1 (proj2 (enabled_keys_stay (Samples.supervisor_with []) "a" "sensor.a_cpu"
                         ∅ (mkHandle "a" "sensor.a_cpu" {[CONTAINER_STATS]})
                         Samples.after_subscription CONTAINER_STATS "a" H))).
Defined.

(** X4: invoking a handle concerns its own subscriber only: whether it
    returns or raises, every other subscriber is in exactly the sets it was
    in. *)
Theorem unsubscribe_spares_others (h : RemoveHandle) (w : World)
    (s k other : string) :
  other ≠ rm_entity_id h →
  (other ∈ subscribers (post (_remove h w)) s k ↔ other ∈ subscribers w s k).
Proof.
  intros Hother. unfold subscribers, _remove, set_container_updates.
  cbn [post container_updates]. rewrite enabled_updates_of_insert.
  case_decide as Hs; [subst s|done].
  pose proof (remove_keys_others (rm_entity_id h) (elements (rm_types h))
                (enabled_updates_of (container_updates w) (rm_slug h)) k) as Heq.
  pose proof (proj1 (set_eq _ _) Heq other) as Hiff. clear Heq.
  rewrite !elem_of_difference, !elem_of_singleton in Hiff. tauto.
Qed.

Lemma unsubscribe_spares_others_witness :
  "sensor.a_memory" ≠ "sensor.a_cpu"
  ∧ ("sensor.a_memory"
       ∈ subscribers (post (_remove (mkHandle "a" "sensor.a_cpu" {[CONTAINER_STATS]})
                              Samples.after_subscription)) "a" CONTAINER_STATS
     ↔ "sensor.a_memory" ∈ subscribers Samples.after_subscription "a" CONTAINER_STATS).
Proof.
  assert (H : "sensor.a_memory" ≠ "sensor.a_cpu") by discriminate.
  split; [exact H|].
  exact (unsubscribe_spares_others (mkHandle "a" "sensor.a_cpu" {[CONTAINER_STATS]})
           Samples.after_subscription "a" CONTAINER_STATS "sensor.a_memory" H).
Defined.

(** ** More on the refresh of [hass.data] *)

Lemma eq_str_true v s : eq_str v s = true ↔ v = VStr s.
Proof.
  destruct v as [| | |s'| |]; cbn [eq_str]; try (split; discriminate).
  rewrite String.eqb_eq. split; [by intros -> | by intros [= ->]].
Qed.

(** What the loop over the listing computes when it goes through. *)
Lemma split_addons_spec _addon_data : ∀ all_addons started_addons,
  split_addons _addon_data = Return (all_addons, started_addons) →
  all_addons = omap slug_of _addon_data
  ∧ ∀ slug, slug ∈ started_addons ↔
      ∃ d, VDict d ∈ _addon_data ∧ d !! ATTR_SLUG = Some (VStr slug)
           ∧ d !! ATTR_STATE = Some (VStr ATTR_STARTED).
Proof.
  induction _addon_data as [|addon rest IH]; intros all_addons started_addons.
  { intros [= <- <-]. split; [done|]. intros slug.
    rewrite elem_of_nil. split; [done|]. intros (d & Hd & _). by apply elem_of_nil in Hd. }
  cbn [split_addons].
  destruct (subscript addon ATTR_SLUG) as [k|] eqn:Hk; [|done].
  destruct (as_str k) as [slug'|] eqn:Hslug'; [|done].
  destruct (subscript addon ATTR_STATE) as [state|] eqn:Hstate; [|done].
  destruct (split_addons rest) as [[all' started']|] eqn:Hrest; [|done].
  destruct (IH all' started' eq_refl) as [Hall Hstarted].
  intros [= <- <-].
  destruct addon as [| | | | |d]; try discriminate.
  cbn [subscript] in Hk, Hstate.
  destruct (d !! ATTR_SLUG) as [k'|] eqn:Hd; [|discriminate]. injection Hk as ->.
  destruct k as [| | |s| |]; try discriminate. injection Hslug' as ->.
  destruct (d !! ATTR_STATE) as [state'|] eqn:Hs; [|discriminate]. injection Hstate as ->.
  split.
  - change (omap slug_of (VDict d :: rest))
      with (match slug_of (VDict d) with
            | Some y => y :: omap slug_of rest
            | None => omap slug_of rest
            end).
    cbn [slug_of]. rewrite Hd. by rewrite Hall.
  - intros slug. split.
    + intros Hin.
      assert (Hcase : (slug = slug' ∧ state = VStr ATTR_STARTED) ∨ slug ∈ started').
      { destruct (eq_str state ATTR_STARTED) eqn:Heq; [|by right].
        apply elem_of_cons in Hin as [->|Hin]; [|by right].
        left. split; [done|]. by apply eq_str_true. }
      destruct Hcase as [[-> ->]|Hin'].
      * exists d. split; [apply list_elem_of_here | done].
      * apply Hstarted in Hin' as (d' & Hd' & ?). exists d'.
        split; [by apply list_elem_of_further | done].
    + intros (d' & Hd' & Hslug & Hst). apply elem_of_cons in Hd' as [[= ->]|Hd'].
      * rewrite Hd in Hslug. injection Hslug as ->.
        rewrite Hs in Hst. injection Hst as ->.
        cbn. apply list_elem_of_here.
      * assert (slug ∈ started') by (apply Hstarted; eauto).
        destruct (eq_str state ATTR_STARTED); [by apply list_elem_of_further | done].
Qed.

Lemma elem_of_listed_slugs listing slug :
  slug ∈ listed_slugs listing
  ↔ ∃ d, VDict d ∈ listing ∧ d !! ATTR_SLUG = Some (VStr slug).
Proof.
  unfold listed_slugs. rewrite elem_of_list_to_set, list_elem_of_omap. split.
  - intros (addon & Hin & Hslug). destruct addon as [| | | | |d]; try discriminate.
    exists d. split; [done|]. cbn [slug_of] in Hslug.
    destruct (d !! ATTR_SLUG) as [[| | |s| |]|]; try discriminate. by injection Hslug as ->.
  - intros (d & Hin & Hd). exists (VDict d). split; [done|]. cbn [slug_of]. by rewrite Hd.
Qed.

(** The requests the per-add-on stage sends. *)
Lemma call_in_fetch_events {A} ep ep' what slug (r : api_result A) :
  Call ep' ∈ fetch_events ep what slug r ↔ ep' = ep.
Proof.
  unfold fetch_events. destruct r; rewrite ?elem_of_cons, ?elem_of_nil; split;
    try (intros ->; by left); intros H; repeat destruct H as [H|H];
    try done; by injection H.
Qed.

Lemma call_in_bind_events {A} (ep : string → Endpoint) what (r : string → api_result A)
    tgts ep' :
  Call ep' ∈ (tgts ≫= λ slug, fetch_events (ep slug) what slug (r slug))
  ↔ ∃ slug, slug ∈ tgts ∧ ep' = ep slug.
Proof.
  rewrite list_elem_of_bind. split.
  - intros (slug & Hev & Hin). exists slug. split; [done|].
    by apply call_in_fetch_events in Hev.
  - intros (slug & Hin & ->). exists slug. split; [|done]. by apply call_in_fetch_events.
Qed.

Lemma call_in_secondary_events hassio first_update all_addons started_addons w ep :
  Call ep ∈ secondary_events hassio first_update all_addons started_addons w
  ↔ (∃ slug, slug ∈ stats_targets first_update w started_addons ∧ ep = EP_addon_stats slug)
    ∨ (∃ slug, slug ∈ changelog_targets first_update w all_addons
               ∧ ep = EP_addon_changelog slug)
    ∨ (∃ slug, slug ∈ info_targets first_update w all_addons ∧ ep = EP_addon_info slug).
Proof.
  unfold secondary_events. rewrite !elem_of_app.
  rewrite <- (call_in_bind_events EP_addon_stats "stats" (HassIO.get_addon_stats hassio)).
  rewrite <- (call_in_bind_events EP_addon_changelog "changelog"
                (HassIO.get_addon_changelog hassio)).
  rewrite <- (call_in_bind_events EP_addon_info "info" (HassIO.get_addon_info hassio)).
  reflexivity.
Qed.

Lemma call_in_primary_calls hassio first_update w ep :
  Call ep ∈ primary_calls hassio first_update w
  ↔ ep ∈ [EP_info; EP_core_info; EP_supervisor_info; EP_os_info]
    ∨ (ep = EP_core_stats
       ∧ first_update || is_enabled (container_updates w) CONTAINER_STATS CORE_CONTAINER
         = true)
    ∨ (ep = EP_supervisor_stats
       ∧ first_update || is_enabled (container_updates w) CONTAINER_STATS
                                    SUPERVISOR_CONTAINER = true).
Proof.
  unfold primary_calls, updates.
  destruct (first_update || is_enabled _ CONTAINER_STATS CORE_CONTAINER);
    destruct (first_update || is_enabled _ CONTAINER_STATS SUPERVISOR_CONTAINER);
    cbn [fmap list_fmap app fst snd]; rewrite !elem_of_cons, !elem_of_nil;
    assert (Hc : ∀ x, Call ep = Call x ↔ ep = x) by (intros; split; congruence);
    rewrite !Hc; intuition (subst; try discriminate; auto).
Qed.

Lemma map_M_api_raise {A} (calls : list (Endpoint * api_result A)) e :
  map_M (λ c, api_outcome c.2) calls = Raise e →
  ∃ ep msg, (ep, ApiError msg) ∈ calls.
Proof.
  induction calls as [|[ep r] calls IH]; [done|]. simpl.
  destruct r as [a|msg]; [|intros _; exists ep, msg; apply list_elem_of_here].
  destruct (map_M _ calls); [done|]. intros [= ->].
  destruct (IH eq_refl) as (ep' & msg & Hin). exists ep', msg.
  by apply list_elem_of_further.
Qed.

Lemma primary_not_failed hassio first_update w :
  ¬ primary_failed hassio first_update w →
  ∃ results, primary_results hassio first_update w = Return results.
Proof.
  intros Hok. unfold primary_results.
  destruct (map_M _ _) as [results|e] eqn:Hm; [eauto|].
  destruct Hok. apply map_M_api_raise in Hm as (ep & msg & Hin).
  apply list_elem_of_fmap in Hin as ([key c] & Hc & Hin). cbn [snd] in Hc. subst c.
  by exists key, ep, msg.
Qed.

Lemma store_secondary_other hassio first_update all_addons started_addons w key :
  key ∉ [DATA_ADDONS_STATS; DATA_ADDONS_CHANGELOGS; DATA_ADDONS_INFO] →
  hass_data (store_secondary hassio first_update all_addons started_addons w) !! key
  = hass_data w !! key.
Proof.
  rewrite !not_elem_of_cons. intros (? & ? & ? & _).
  unfold store_secondary. rewrite !store_addons_lookup.
  by rewrite !decide_False by done.
Qed.

(** The refresh once the primary requests have succeeded and the payload of
    the Supervisor carries a list of add-ons. *)
Lemma force_data_refresh_listed hassio first_update w sup listing :
  ¬ primary_failed hassio first_update w →
  HassIO.get_supervisor_info hassio = ApiOk sup →
  sup !! "addons" = Some (VList listing) →
  ∃ results,
    primary_results hassio first_update w = Return results
    ∧ hass_data (store_primary hassio first_update results w) !! DATA_SUPERVISOR_INFO
      = Some sup
    ∧ force_data_refresh hassio first_update w =
      let w1 := store_primary hassio first_update results w in
      match split_addons listing with
      | Raise e => mkRun (Raise e) w1 (primary_calls hassio first_update w)
      | Return lists =>
          mkRun (Return tt)
                (store_secondary hassio first_update lists.1 lists.2 w1)
                (primary_calls hassio first_update w
                 ++ secondary_events hassio first_update lists.1 lists.2 w1)
      end.
Proof.
  intros Hok Hsup Haddons.
  destruct (primary_not_failed _ _ _ Hok) as [results Hprimary].
  exists results. split; [done|].
  destruct (primary_ok_supervisor _ _ _ _ Hprimary) as (sup' & Hsup' & Hstored).
  rewrite Hsup in Hsup'. injection Hsup' as <-. split; [done|].
  rewrite force_data_refresh_unfold, Hprimary. cbv zeta.
  assert (Hl : listing_of (store_primary hassio first_update results w) = Return listing).
  { unfold listing_of. rewrite Hstored. cbn [from_option id]. by rewrite Haddons. }
  by rewrite Hl.
Qed.

(** X5: in a refresh whose primary requests succeed and whose listing is
    read, the requests for add-ons are exactly these: the stats of a slug are
    requested if and only if the listing names it as started and the refresh
    is a first one or the stats key is enabled for it; its changelog and its
    info if and only if the listing names it and the refresh is a first one
    or the respective key is enabled for it. *)
Theorem addon_requests_follow_interest (hassio : HassIO.t) (first_update : bool)
    (w : World) (sup : dict) (listing : list value) (slug : string) :
  out (force_data_refresh hassio first_update w) = Return tt →
  HassIO.get_supervisor_info hassio = ApiOk sup →
  sup !! "addons" = Some (VList listing) →
  (Call (EP_addon_stats slug) ∈ events (force_data_refresh hassio first_update w)
   ↔ (∃ d, VDict d ∈ listing ∧ d !! ATTR_SLUG = Some (VStr slug)
           ∧ d !! ATTR_STATE = Some (VStr ATTR_STARTED))
     ∧ first_update || is_enabled (container_updates w) CONTAINER_STATS slug = true)
  ∧ (Call (EP_addon_changelog slug) ∈ events (force_data_refresh hassio first_update w)
     ↔ slug ∈ listed_slugs listing
       ∧ first_update || is_enabled (container_updates w) CONTAINER_CHANGELOG slug = true)
  ∧ (Call (EP_addon_info slug) ∈ events (force_data_refresh hassio first_update w)
     ↔ slug ∈ listed_slugs listing
       ∧ first_update || is_enabled (container_updates w) CONTAINER_INFO slug = true).
Proof.
  intros Hout Hsup Haddons.
  assert (Hok : ¬ primary_failed hassio first_update w).
  { intros Hfailed. apply primary_failed_raises in Hfailed as [msg Hraise].
    rewrite force_data_refresh_unfold, Hraise in Hout. done. }
  destruct (force_data_refresh_listed _ _ _ _ _ Hok Hsup Haddons)
    as (results & _ & _ & Hrun).
  rewrite Hrun in Hout |- *. cbv zeta in *.
  destruct (split_addons listing) as [[all_addons started_addons]|] eqn:Hsplit; [|done].
  destruct (split_addons_spec _ _ _ Hsplit) as [Hall Hstarted].
  cbn [events fst snd]. rewrite !elem_of_app, !call_in_primary_calls,
    !call_in_secondary_events, !elem_of_cons, !elem_of_nil.
  unfold stats_targets, changelog_targets, info_targets, targets.
  setoid_rewrite list_elem_of_filter.
  assert (Hlisted : slug ∈ all_addons ↔ slug ∈ listed_slugs listing).
  { unfold listed_slugs. by rewrite elem_of_list_to_set, Hall. }
  rewrite <- Hlisted, <- Hstarted.
  change (container_updates (store_primary hassio first_update results w))
    with (container_updates w).
  split; [|split]; split.
  - intros [H|H]; [naive_solver|].
    destruct H as [(s & [? ?] & [= ->])|[(s & _ & ?)|(s & _ & ?)]]; done.
  - intros [? ?]. right. left. by exists slug.
  - intros [H|H]; [naive_solver|].
    destruct H as [(s & _ & ?)|[(s & [? ?] & [= ->])|(s & _ & ?)]]; done.
  - intros [? ?]. right. right. left. by exists slug.
  - intros [H|H]; [naive_solver|].
    destruct H as [(s & _ & ?)|[(s & _ & ?)|(s & [? ?] & [= ->])]]; done.
  - intros [? ?]. right. right. right. by exists slug.
Qed.

Lemma addon_requests_follow_interest_witness :
  Call (EP_addon_stats "a")
    ∈ events (force_data_refresh
                (Samples.supervisor_with
                   [Samples.addon "a" "started"; Samples.addon "b" "stopped"])
                false Samples.after_subscription)
  ↔ (∃ d, VDict d ∈ [Samples.addon "a" "started"; Samples.addon "b" "stopped"]
          ∧ d !! ATTR_SLUG = Some (VStr "a")
          ∧ d !! ATTR_STATE = Some (VStr ATTR_STARTED))
    ∧ false || is_enabled (container_updates Samples.after_subscription)
                          CONTAINER_STATS "a" = true.
Proof.
  refine (proj1 (addon_requests_follow_interest
            (Samples.supervisor_with
               [Samples.addon "a" "started"; Samples.addon "b" "stopped"])
            false Samples.after_subscription
            (<["addons" := VList [Samples.addon "a" "started"; Samples.addon "b" "stopped"]]>
               Samples.versioned)
            [Samples.addon "a" "started"; Samples.addon "b" "stopped"] "a" _ _ _)).
  - vm_compute. reflexivity.
  - reflexivity.
  - vm_compute. reflexivity.
Defined.

(** X6: the four primary requests (info, core info, supervisor info, OS
    info) are sent in every refresh, whatever its outcome; the stats of Core
    and of the Supervisor are requested if and only if the refresh is a first
    one or the stats key is enabled for the respective container. *)
Theorem container_stats_follow_interest (hassio : HassIO.t) (first_update : bool)
    (w : World) :
  (∀ ep, ep ∈ [EP_info; EP_core_info; EP_supervisor_info; EP_os_info] →
         Call ep ∈ events (force_data_refresh hassio first_update w))
  ∧ (Call EP_core_stats ∈ events (force_data_refresh hassio first_update w)
     ↔ first_update || is_enabled (container_updates w) CONTAINER_STATS CORE_CONTAINER
       = true)
  ∧ (Call EP_supervisor_stats ∈ events (force_data_refresh hassio first_update w)
     ↔ first_update || is_enabled (container_updates w) CONTAINER_STATS
                                  SUPERVISOR_CONTAINER = true).
Proof.
  assert (Hev : ∀ ep,
            (∀ slug, ep ≠ EP_addon_stats slug ∧ ep ≠ EP_addon_changelog slug
                     ∧ ep ≠ EP_addon_info slug) →
            Call ep ∈ events (force_data_refresh hassio first_update w)
            ↔ Call ep ∈ primary_calls hassio first_update w).
  { intros ep Hep. split; [|apply primary_calls_events].
    rewrite force_data_refresh_unfold.
    destruct (primary_results _ _ _) as [results|]; [|done]. cbv zeta.
    destruct (listing_of _) as [l|]; [|done].
    destruct (split_addons l); [|done].
    cbn [events]. rewrite elem_of_app, call_in_secondary_events.
    intros [H|[(s & _ & ->)|[(s & _ & ->)|(s & _ & ->)]]]; [done| | |];
      by destruct (Hep s) as (? & ? & ?). }
  split; [|split].
  - intros ep Hep. apply primary_calls_events, call_in_primary_calls. by left.
  - rewrite Hev by done. rewrite call_in_primary_calls, !elem_of_cons, elem_of_nil.
    naive_solver.
  - rewrite Hev by done. rewrite call_in_primary_calls, !elem_of_cons, elem_of_nil.
    naive_solver.
Qed.

Lemma primary_ok_stored hassio first_update w results :
  primary_results hassio first_update w = Return results →
  ∃ info core sup os,
    HassIO.get_info hassio = ApiOk info
    ∧ HassIO.get_core_info hassio = ApiOk core
    ∧ HassIO.get_supervisor_info hassio = ApiOk sup
    ∧ HassIO.get_os_info hassio = ApiOk os
    ∧ hass_data (store_primary hassio first_update results w) !! DATA_INFO = Some info
    ∧ hass_data (store_primary hassio first_update results w) !! DATA_CORE_INFO = Some core
    ∧ hass_data (store_primary hassio first_update results w) !! DATA_SUPERVISOR_INFO
      = Some sup
    ∧ hass_data (store_primary hassio first_update results w) !! DATA_OS_INFO = Some os
    ∧ hass_data (store_primary hassio first_update results w) !! DATA_CORE_STATS
      = (if first_update || is_enabled (container_updates w) CONTAINER_STATS CORE_CONTAINER
         then match HassIO.get_core_stats hassio with
              | ApiOk stats => Some stats
              | ApiError _ => None
              end
         else hass_data w !! DATA_CORE_STATS)
    ∧ hass_data (store_primary hassio first_update results w) !! DATA_SUPERVISOR_STATS
      = (if first_update || is_enabled (container_updates w) CONTAINER_STATS
                                       SUPERVISOR_CONTAINER
         then match HassIO.get_supervisor_stats hassio with
              | ApiOk stats => Some stats
              | ApiError _ => None
              end
         else hass_data w !! DATA_SUPERVISOR_STATS)
    ∧ (first_update || is_enabled (container_updates w) CONTAINER_STATS CORE_CONTAINER
       = true → ∃ stats, HassIO.get_core_stats hassio = ApiOk stats)
    ∧ (first_update || is_enabled (container_updates w) CONTAINER_STATS
                                  SUPERVISOR_CONTAINER = true →
       ∃ stats, HassIO.get_supervisor_stats hassio = ApiOk stats).
Proof.
  unfold primary_results, store_primary, updates, set_hass_data. cbn [hass_data].
  destruct (first_update || is_enabled _ CONTAINER_STATS CORE_CONTAINER);
    destruct (first_update || is_enabled _ CONTAINER_STATS SUPERVISOR_CONTAINER);
    destruct hassio as [[info|?] [core|?] [sup|?] [os|?] [?|?] [?|?] ? ? ? ?];
    simpl; intros [= <-]; exists info, core, sup, os; simpl;
    repeat apply conj; try reflexivity;
    try (repeat (rewrite lookup_insert_ne by done); rewrite ?lookup_insert_eq;
         reflexivity);
    try discriminate; intros _; eauto.
Qed.

Lemma force_data_refresh_os_info hassio first_update w :
  out (force_data_refresh hassio first_update w) = Return tt →
  ∃ os_info, HassIO.get_os_info hassio = ApiOk os_info
             ∧ get_os_info (post (force_data_refresh hassio first_update w))
               = Some os_info.
Proof.
  rewrite force_data_refresh_unfold.
  destruct (primary_results hassio first_update w) as [results|] eqn:Hprimary; [|done].
  cbv zeta.
  destruct (listing_of _) as [l|]; [|done].
  destruct (split_addons l) as [lists|]; [|done]. intros _. cbn [post].
  destruct (primary_ok_stored _ _ _ _ Hprimary)
    as (info & core & sup & os_info & _ & _ & _ & Hanswer & _ & _ & _ & Ho & _).
  exists os_info. split; [done|]. unfold get_os_info.
  rewrite store_secondary_other; [done|].
  rewrite !not_elem_of_cons; repeat split; try done; apply not_elem_of_nil.
Qed.

(** X7: after a refresh that goes through, the getters of the module
    answer what the Supervisor answered in this refresh for info, core info,
    supervisor info and OS info; the stats of Core and of the Supervisor are
    the ones of this refresh when they were requested and the ones held
    before otherwise; host info and store, which the refresh does not
    request, are as they were. *)
Theorem refresh_publishes_answers (hassio : HassIO.t) (first_update : bool) (w : World) :
  out (force_data_refresh hassio first_update w) = Return tt →
  ∃ info core sup os,
    HassIO.get_info hassio = ApiOk info
    ∧ HassIO.get_core_info hassio = ApiOk core
    ∧ HassIO.get_supervisor_info hassio = ApiOk sup
    ∧ HassIO.get_os_info hassio = ApiOk os
    ∧ get_info (post (force_data_refresh hassio first_update w)) = Some info
    ∧ get_core_info (post (force_data_refresh hassio first_update w)) = Some core
    ∧ get_supervisor_info (post (force_data_refresh hassio first_update w)) = Some sup
    ∧ get_os_info (post (force_data_refresh hassio first_update w)) = Some os
    ∧ (if first_update || is_enabled (container_updates w) CONTAINER_STATS CORE_CONTAINER
       then ∃ stats, HassIO.get_core_stats hassio = ApiOk stats
                     ∧ get_core_stats (post (force_data_refresh hassio first_update w))
                       = Some stats
       else get_core_stats (post (force_data_refresh hassio first_update w))
            = get_core_stats w)
    ∧ (if first_update || is_enabled (container_updates w) CONTAINER_STATS
                                     SUPERVISOR_CONTAINER
       then ∃ stats, HassIO.get_supervisor_stats hassio = ApiOk stats
                     ∧ get_supervisor_stats
                         (post (force_data_refresh hassio first_update w)) = Some stats
       else get_supervisor_stats (post (force_data_refresh hassio first_update w))
            = get_supervisor_stats w)
    ∧ get_host_info (post (force_data_refresh hassio first_update w)) = get_host_info w
    ∧ get_store (post (force_data_refresh hassio first_update w)) = get_store w.
Proof.
  rewrite force_data_refresh_unfold.
  destruct (primary_results hassio first_update w) as [results|] eqn:Hprimary; [|done].
  cbv zeta.
  destruct (listing_of _) as [l|]; [|done].
  destruct (split_addons l) as [lists|]; [|done]. intros _. cbn [post].
  destruct (primary_ok_stored _ _ _ _ Hprimary)
    as (info & core & sup & os & ? & ? & ? & ? & Hi & Hc & Hs & Ho & Hcs & Hss & Hce & Hse).
  exists info, core, sup, os.
  unfold get_info, get_core_info, get_supervisor_info, get_os_info, get_core_stats,
    get_supervisor_stats, get_host_info, get_store.
  rewrite !store_secondary_other
    by (rewrite !not_elem_of_cons; repeat split; try done; apply not_elem_of_nil).
  rewrite Hi, Hc, Hs, Ho, Hcs, Hss.
  rewrite !store_primary_other
    by (rewrite !not_elem_of_cons; repeat split; try done; apply not_elem_of_nil).
  repeat (split; [done|]).
  split; [|split; [|done]].
  - destruct (first_update || is_enabled _ CONTAINER_STATS CORE_CONTAINER); [|done].
    destruct (Hce eq_refl) as [stats ->]. eauto.
  - destruct (first_update || is_enabled _ CONTAINER_STATS SUPERVISOR_CONTAINER); [|done].
    destruct (Hse eq_refl) as [stats ->]. eauto.
Qed.

Lemma refresh_publishes_answers_witness :
  out (force_data_refresh (Samples.supervisor_with [Samples.addon "a" "started"])
                          true Samples.fresh) = Return tt
  ∧ ∃ info core sup os,
      HassIO.get_info (Samples.supervisor_with [Samples.addon "a" "started"]) = ApiOk info
      ∧ HassIO.get_core_info (Samples.supervisor_with [Samples.addon "a" "started"])
        = ApiOk core
      ∧ HassIO.get_supervisor_info (Samples.supervisor_with [Samples.addon "a" "started"])
        = ApiOk sup
      ∧ HassIO.get_os_info (Samples.supervisor_with [Samples.addon "a" "started"])
        = ApiOk os
      ∧ get_info (post (force_data_refresh
                          (Samples.supervisor_with [Samples.addon "a" "started"])
                          true Samples.fresh)) = Some info.
Proof.
  assert (H : out (force_data_refresh
                     (Samples.supervisor_with [Samples.addon "a" "started"])
                     true Samples.fresh) = Return tt) by (vm_compute; reflexivity).
  split; [exact H|].
  destruct (refresh_publishes_answers _ _ _ H)
    as (info & core & sup & os & ? & ? & ? & ? & ? & _).
  exists info, core, sup, os. auto.
Defined.






(** ** More on the device registry in a cycle *)

Lemma remove_slugs_lookup slugs : ∀ devs k,
  remove_slugs slugs devs !! k =
  if decide (k.1 = DOMAIN ∧ k.2 ∈ slugs) then None else devs !! k.
Proof.
  unfold remove_slugs. induction slugs as [|s slugs IH]; intros devs [dom_ id_];
    cbn [foldl fst snd].
  - rewrite decide_False; [done|]. intros [_ H]. by apply elem_of_nil in H.
  - rewrite IH. cbn [fst snd].
    destruct (decide (dom_ = DOMAIN ∧ id_ ∈ slugs)) as [[-> Hin]|Hnin].
    + rewrite decide_True; [done|]. split; [done | by apply list_elem_of_further].
    + destruct (decide ((DOMAIN, s) = (dom_, id_))) as [[= <- <-]|Hne].
      * rewrite lookup_delete_eq. rewrite decide_True; [done|].
        split; [done | apply list_elem_of_here].
      * rewrite lookup_delete_ne by done. rewrite decide_False; [done|].
        intros [-> Hin]. apply elem_of_cons in Hin as [->|Hin]; [done|]. by apply Hnin.
Qed.

(** X9: the removal of the devices of a set of add-ons never raises and
    emits nothing; it deletes exactly the devices registered under the
    domain of the integration for a slug of the set (a slug without a device
    is passed over) and leaves every other device, and everything but the
    registry, as it was. *)
Theorem remove_addons_characterised (addons : gset string) (w : World) :
  out (async_remove_addons_from_dev_reg addons w) = Return tt
  ∧ events (async_remove_addons_from_dev_reg addons w) = []
  ∧ same_but_devices w (post (async_remove_addons_from_dev_reg addons w))
  ∧ ∀ k, devices (post (async_remove_addons_from_dev_reg addons w)) !! k
         = if decide (k.1 = DOMAIN ∧ k.2 ∈ addons) then None else devices w !! k.
Proof.
  rewrite async_remove_addons_run. cbn [out post events].
  split; [done|]. split; [done|]. split; [done|].
  intros k. unfold set_devices. cbn [devices]. rewrite remove_slugs_lookup.
  destruct (decide (k.1 = DOMAIN ∧ k.2 ∈ elements addons)) as [[? Hin]|Hnin].
  - apply elem_of_elements in Hin. by rewrite decide_True.
  - rewrite decide_False; [done|]. intros [? Hin]. apply Hnin.
    split; [done|]. by apply elem_of_elements.
Qed.

Lemma cleaned_lookup_Some new_data w k dev :
  cleaned new_data w !! k = Some dev → devices w !! k = Some dev.
Proof.
  unfold cleaned. cbv zeta. intros H.
  assert (H' : remove_slugs
                 (elements (supervisor_addon_devices w ∖ dom (addons new_data)))
                 (devices w) !! k = Some dev).
  { destruct (is_hass_os w); [done|]. by apply lookup_delete_Some in H as [_ H]. }
  rewrite remove_slugs_lookup in H'. by case_decide.
Qed.

Lemma cleaned_os new_data w :
  is_hass_os w = false → cleaned new_data w !! (DOMAIN, "OS") = None.
Proof. intros Hos. unfold cleaned. cbv zeta. rewrite Hos. apply lookup_delete_eq. Qed.

Lemma cleaned_stale new_data w slug dev :
  cleaned new_data w !! (DOMAIN, slug) = Some dev →
  entry_id w ∈ config_entries dev →
  model dev = Some SupervisorEntityModel.ADDON →
  slug ∈ dom (addons new_data).
Proof.
  intros Hdev Howner Hmodel.
  assert (Hreg : devices w !! (DOMAIN, slug) = Some dev)
    by (by apply cleaned_lookup_Some in Hdev).
  assert (Hsad : slug ∈ supervisor_addon_devices w).
  { unfold supervisor_addon_devices. apply elem_of_map. exists (DOMAIN, slug).
    split; [done|]. apply elem_of_dom. exists dev.
    apply map_lookup_filter_Some. done. }
  destruct (decide (slug ∈ dom (addons new_data))) as [|Hnin]; [done|].
  exfalso. unfold cleaned in Hdev. cbv zeta in Hdev.
  assert (H' : remove_slugs
                 (elements (supervisor_addon_devices w ∖ dom (addons new_data)))
                 (devices w) !! (DOMAIN, slug) = Some dev).
  { destruct (is_hass_os w); [done|]. by apply lookup_delete_Some in Hdev as [_ H]. }
  rewrite remove_slugs_lookup in H'. rewrite decide_True in H'; [done|].
  split; [done|]. cbn [snd]. apply elem_of_elements, elem_of_difference. done.
Qed.

(** What a cycle that completes went through. *)
Lemma cycle_completed hassio w x :
  out (_async_update_data hassio w) = Return x →
  ∃ new_data w3,
    out (force_data_refresh hassio (bool_decide (data w = None)) w) = Return tt
    ∧ build_new_data (post (force_data_refresh hassio (bool_decide (data w = None)) w))
      = Return new_data
    ∧ same_but_devices (post (force_data_refresh hassio (bool_decide (data w = None)) w)) w3
    ∧ (bool_decide (data w = None) = false →
       w3 = post (force_data_refresh hassio (bool_decide (data w = None)) w))
    ∧ x = (if grew new_data w then None else Some new_data)
    ∧ post (_async_update_data hassio w) = set_devices (λ _, cleaned new_data w3) w3.
Proof.
  unfold _async_update_data. rewrite bind_get_world. cbv zeta.
  rewrite update_data_body_unfold.
  destruct (force_data_refresh_frame hassio (bool_decide (data w = None)) w)
    as (_ & Hdat & _).
  destruct (out (force_data_refresh _ _ _)) as [[]|e] eqn:Hout; [|by destruct e].
  destruct (build_new_data _) as [new_data|] eqn:Hnd; [|done].
  cbn [prepend out post].
  set (p := post (force_data_refresh hassio (bool_decide (data w = None)) w)) in *.
  assert (Hgrew : ∀ w', data w' = data w → grew new_data w' = grew new_data w)
    by (intros w' Hw'; unfold grew; by rewrite Hw').
  destruct (bool_decide (data w = None)) eqn:Hfirst.
  - unfold reconcile. intros H.
    apply bind_ok_inv in H as ([] & Hreg & H & ->).
    destruct (devices_only_register_all new_data p) as (Hhd & Hd & Hrest).
    rewrite finish_run in H |- *. cbn [out post] in *.
    exists new_data, (post (register_all new_data p)).
    repeat split; try done; try apply Hrest.
    rewrite Hgrew in H by congruence. by injection H as <-.
  - rewrite reconcile_later_run. cbn [out post]. intros [= <-].
    exists new_data, p. rewrite Hgrew by done.
    repeat split; try done.
Qed.

(** X10: a cycle that is not the first one creates no device and changes
    none, whatever its outcome: every device the registry holds afterwards
    was there before, with the same content. *)
Theorem later_cycle_only_removes (hassio : HassIO.t) (w : World) :
  bool_decide (data w = None) = false →
  devices (post (_async_update_data hassio w)) ⊆ devices w.
Proof.
  intros Hfirst. unfold _async_update_data. rewrite bind_get_world. cbv zeta.
  rewrite Hfirst, update_data_body_unfold.
  destruct (force_data_refresh_frame hassio false w) as (Hdev & _).
  destruct (out (force_data_refresh _ _ _)) as [[]|e];
    [|destruct e; cbn [post]; by rewrite Hdev].
  destruct (build_new_data _) as [new_data|]; [|cbn [post]; by rewrite Hdev].
  rewrite reconcile_later_run. cbn [prepend post]. unfold set_devices. cbn [devices].
  apply map_subseteq_spec. intros k dev Hk.
  apply cleaned_lookup_Some in Hk. by rewrite Hdev in Hk.
Qed.

Lemma later_cycle_only_removes_witness :
  devices (post (_async_update_data (Samples.supervisor_with [Samples.addon "a" "started"])
                                    Samples.after_first))
  ⊆ devices Samples.after_first.
Proof.
  apply (later_cycle_only_removes (Samples.supervisor_with [Samples.addon "a" "started"])
           Samples.after_first).
  vm_compute. reflexivity.
Defined.

(** X11: the answer of a completed cycle is the empty data if and only if
    there is data from the cycle before and the listing the Supervisor
    answered in this cycle names a slug that data does not have. A first
    cycle, and a cycle whose listing only lost add-ons, answer their data. *)
Theorem cycle_answer_follows_growth (hassio : HassIO.t) (w : World)
    (x : option Snapshot) (sup : dict) (listing : list value) :
  out (_async_update_data hassio w) = Return x →
  HassIO.get_supervisor_info hassio = ApiOk sup →
  sup !! "addons" = Some (VList listing) →
  (x = None
   ↔ ∃ old, data w = Some old
            ∧ listed_slugs listing ∖ dom (addons old) ≠ (∅ : gset string)).
Proof.
  intros Hout Hsup Haddons.
  apply cycle_completed in Hout as (new_data & w3 & Hfdr & Hnd & _ & _ & -> & _).
  destruct (force_data_refresh_ok_supervisor _ _ _ Hfdr) as (sup' & Hsup' & Hstored).
  rewrite Hsup in Hsup'. injection Hsup' as <-.
  apply build_new_data_addons in Hnd as (listing' & Hl & _ & Hdom & _).
  unfold listing_of in Hl. rewrite Hstored in Hl. cbn [from_option id] in Hl.
  rewrite Haddons in Hl. cbn [from_option id iterate] in Hl. injection Hl as <-.
  unfold grew. rewrite Hdom. destruct (data w) as [old|].
  - match goal with
    | |- context [bool_decide ?P] => destruct (bool_decide_reflect P) as [Hg|Hg]
    end; split; try done.
    + intros _. by exists old.
    + intros (old' & [= <-] & Hne). done.
  - split; [done|]. by intros (old & ? & _).
Qed.

Lemma cycle_answer_follows_growth_witness :
  out (_async_update_data
         (Samples.supervisor_with [Samples.addon "a" "started"; Samples.addon "c" "started"])
         Samples.after_first) = Return None
  ∧ ∃ old, data Samples.after_first = Some old
           ∧ listed_slugs [Samples.addon "a" "started"; Samples.addon "c" "started"]
               ∖ dom (addons old) ≠ (∅ : gset string).
Proof.
  assert (H : out (_async_update_data
                     (Samples.supervisor_with
                        [Samples.addon "a" "started"; Samples.addon "c" "started"])
                     Samples.after_first) = Return None) by (vm_compute; reflexivity).
  split; [exact H|].
  apply (cycle_answer_follows_growth
           (Samples.supervisor_with
              [Samples.addon "a" "started"; Samples.addon "c" "started"])
           Samples.after_first None
           (<["addons" := VList [Samples.addon "a" "started"; Samples.addon "c" "started"]]>
              Samples.versioned)
           [Samples.addon "a" "started"; Samples.addon "c" "started"] H);
    [reflexivity | vm_compute; reflexivity | reflexivity].
Defined.

(** X12: on an installation without the OS layer no OS device is left
    after a cycle that completes, be it the first one or a later one. *)
Theorem no_os_device_without_os (hassio : HassIO.t) (w : World) (x : option Snapshot) :
  is_hass_os w = false →
  out (_async_update_data hassio w) = Return x →
  async_get_device (DOMAIN, "OS") (devices (post (_async_update_data hassio w))) = None.
Proof.
  intros Hos Hout.
  apply cycle_completed in Hout as (new_data & w3 & _ & _ & Hsame & _ & _ & ->).
  unfold async_get_device, set_devices. cbn [devices]. apply cleaned_os.
  destruct Hsame as (_ & _ & _ & -> & _).
  by destruct (force_data_refresh_frame hassio (bool_decide (data w = None)) w)
    as (_ & _ & _ & -> & _).
Qed.

Lemma no_os_device_without_os_witness :
  async_get_device (DOMAIN, "OS")
    (devices (post (_async_update_data (Samples.supervisor_with [])
                                       (mkWorld ∅ ∅ None "entry" false ∅)))) = None.
Proof.
  refine (no_os_device_without_os (Samples.supervisor_with [])
            (mkWorld ∅ ∅ None "entry" false ∅)
            (match out (_async_update_data (Samples.supervisor_with [])
                                           (mkWorld ∅ ∅ None "entry" false ∅)) with
             | Return x => x
             | Raise _ => None
             end) _ _).
  - reflexivity.
  - vm_compute. reflexivity.
Defined.

(** X13: after a cycle that completes, every add-on device of the
    integration that the config entry owns belongs to an add-on of the
    listing the Supervisor answered in this cycle. *)
Theorem addon_devices_follow_listing (hassio : HassIO.t) (w : World)
    (x : option Snapshot) (sup : dict) (listing : list value) :
  out (_async_update_data hassio w) = Return x →
  HassIO.get_supervisor_info hassio = ApiOk sup →
  sup !! "addons" = Some (VList listing) →
  map_Forall (λ k dev, k.1 = DOMAIN ∧ entry_id w ∈ config_entries dev
                       ∧ model dev = Some SupervisorEntityModel.ADDON →
                       k.2 ∈ listed_slugs listing)
             (devices (post (_async_update_data hassio w))).
Proof.
  intros Hout Hsup Haddons.
  apply cycle_completed in Hout as (new_data & w3 & Hfdr & Hnd & Hsame & _ & _ & ->).
  destruct (force_data_refresh_ok_supervisor _ _ _ Hfdr) as (sup' & Hsup' & Hstored).
  rewrite Hsup in Hsup'. injection Hsup' as <-.
  apply build_new_data_addons in Hnd as (listing' & Hl & _ & Hdom & _).
  unfold listing_of in Hl. rewrite Hstored in Hl. cbn [from_option id] in Hl.
  rewrite Haddons in Hl. cbn [from_option id iterate] in Hl. injection Hl as <-.
  intros [dom_ slug] dev Hdev (Hd & Howner & Hmodel). cbn [fst snd] in *. subst dom_.
  rewrite <- Hdom. unfold set_devices in Hdev. cbn [devices] in Hdev.
  apply (cleaned_stale new_data w3 slug dev); [done| |done].
  destruct Hsame as (_ & _ & -> & _).
  by destruct (force_data_refresh_frame hassio (bool_decide (data w = None)) w)
    as (_ & _ & -> & _).
Qed.

Lemma addon_devices_follow_listing_witness :
  map_Forall (λ k dev, k.1 = DOMAIN ∧ entry_id Samples.after_first ∈ config_entries dev
                       ∧ model dev = Some SupervisorEntityModel.ADDON →
                       k.2 ∈ listed_slugs [Samples.addon "a" "started"])
    (devices (post (_async_update_data
                      (Samples.supervisor_with [Samples.addon "a" "started"])
                      Samples.after_first))).
Proof.
  refine (addon_devices_follow_listing
            (Samples.supervisor_with [Samples.addon "a" "started"]) Samples.after_first
            (match out (_async_update_data
                          (Samples.supervisor_with [Samples.addon "a" "started"])
                          Samples.after_first) with
             | Return x => x
             | Raise _ => None
             end)
            (<["addons" := VList [Samples.addon "a" "started"]]> Samples.versioned)
            [Samples.addon "a" "started"] _ _ _).
  - vm_compute. reflexivity.
  - reflexivity.
  - vm_compute. reflexivity.
Defined.

(** ** More on the registrations *)

Lemma addon_device_info_inv addon params :
  addon_device_info addon = Return params →
  ∃ slug version name,
    addon !! ATTR_SLUG = Some (VStr slug)
    ∧ addon !! ATTR_VERSION = Some version
    ∧ addon !! ATTR_NAME = Some name
    ∧ di_identifier params = (DOMAIN, slug)
    ∧ di_model params = SupervisorEntityModel.ADDON
    ∧ di_sw_version params = Some version
    ∧ di_name params = name
    ∧ di_configuration_url params = Some ("homeassistant://hassio/addon/" +:+ slug).
Proof.
  unfold addon_device_info. cbn [subscript].
  destruct (addon !! ATTR_SLUG) as [[| | |slug| |]|]; try done. cbn [as_str].
  destruct (addon !! ATTR_VERSION) as [version|]; [|done].
  destruct (addon !! ATTR_NAME) as [name|]; [|done].
  intros [= <-]. exists slug, version, name. done.
Qed.

Lemma register_addons_devices (L : list dict) : ∀ l w,
  (∀ addon, addon ∈ l → addon ∈ L) →
  out (async_register_addons_in_dev_reg l w) = Return tt →
  (∀ slug, addon_device_of L w slug →
           addon_device_of L (post (async_register_addons_in_dev_reg l w)) slug)
  ∧ ∀ addon, addon ∈ l →
      ∃ slug, addon !! ATTR_SLUG = Some (VStr slug)
              ∧ addon_device_of L (post (async_register_addons_in_dev_reg l w)) slug.
Proof.
  unfold async_register_addons_in_dev_reg.
  induction l as [|x l IH]; intros w HL Hout.
  { split; [done|]. intros addon Hin. by apply elem_of_nil in Hin. }
  cbn [for_each] in *. change (bind ?m ?k) with (m ≫= k) in *.
  pose proof Hout as Hout'.
  apply bind_returns_inv in Hout' as ([] & Hx & Hrest).
  rewrite run_bind, Hx. cbn [post].
  rewrite register_one_run in Hx, Hrest |- *.
  destruct (addon_device_info x) as [params|] eqn:Hparams; [|done].
  cbn [post] in *.
  apply addon_device_info_inv in Hparams
    as (slug & version & nm & Hslug & Hversion & Hname & Hid & Hmodel & Hsw & Hnm & Hurl).
  set (w1 := set_devices (async_get_or_create (entry_id w) params) w) in *.
  assert (Hnew : addon_device_of L w1 slug).
  { exists (mkDevice ({[entry_id w]} ∪ config_entries
                        (default (mkDevice ∅ None None None None None)
                                 (devices w !! (DOMAIN, slug))))
                     (Some SupervisorEntityModel.ADDON) (Some version) (Some nm)
                     (match di_manufacturer params with
                      | Some v => Some v
                      | None => manufacturer (default (mkDevice ∅ None None None None None)
                                                      (devices w !! (DOMAIN, slug)))
                      end)
                     (Some ("homeassistant://hassio/addon/" +:+ slug))), x.
    unfold w1, async_get_device, set_devices, async_get_or_create.
    cbn [devices entry_id]. rewrite Hid, Hmodel, Hsw, Hnm, Hurl, lookup_insert_eq.
    cbn [config_entries model sw_version name configuration_url].
    repeat split; try done.
    - apply elem_of_union_l. by apply elem_of_singleton.
    - apply HL, list_elem_of_here. }
  assert (Hkeep : ∀ slug', addon_device_of L w slug' → addon_device_of L w1 slug').
  { intros slug' Hold. destruct (decide (slug' = slug)) as [->|Hne]; [done|].
    destruct Hold as (dev & addon & Hdev & Hrest').
    exists dev, addon. split; [|done].
    unfold w1, async_get_device, set_devices, async_get_or_create in *.
    cbn [devices]. rewrite Hid, lookup_insert_ne; [done|]. intros [= ?]. done. }
  destruct (IH w1 (λ a Ha, HL a (list_elem_of_further _ _ _ Ha)) Hrest) as [IHkeep IHnew].
  split.
  - intros slug' Hold. by apply IHkeep, Hkeep.
  - intros addon Hin. apply elem_of_cons in Hin as [->|Hin]; [|by apply IHnew].
    exists slug. split; [done|]. by apply IHkeep.
Qed.

(** X14: when the registration of add-ons goes through, the registry
    answers for every record of the list: under the slug of the record it
    holds a device owned by the config entry, of the model of add-ons, with
    the URL of that add-on, whose version and name are those of a record of
    the list with this slug. *)
Theorem registered_addons_are_found (l : list dict) (w : World) (addon : dict) :
  out (async_register_addons_in_dev_reg l w) = Return tt →
  addon ∈ l →
  ∃ slug, addon !! ATTR_SLUG = Some (VStr slug)
          ∧ addon_device_of l (post (async_register_addons_in_dev_reg l w)) slug.
Proof.
  intros Hout Hin.
  by apply (register_addons_devices l l w (λ _ H, H) Hout).
Qed.

Lemma registered_addons_are_found_witness :
  ∃ slug, ({[ATTR_SLUG := VStr "a"; ATTR_VERSION := VStr "1.0";
             ATTR_NAME := VStr "Add-on a"]} : dict) !! ATTR_SLUG = Some (VStr slug)
          ∧ addon_device_of
              [{[ATTR_SLUG := VStr "a"; ATTR_VERSION := VStr "1.0";
                 ATTR_NAME := VStr "Add-on a"]}]
              (post (async_register_addons_in_dev_reg
                       [{[ATTR_SLUG := VStr "a"; ATTR_VERSION := VStr "1.0";
                          ATTR_NAME := VStr "Add-on a"]}] Samples.fresh)) slug.
Proof.
  apply (registered_addons_are_found
           [{[ATTR_SLUG := VStr "a"; ATTR_VERSION := VStr "1.0";
              ATTR_NAME := VStr "Add-on a"]}] Samples.fresh
           {[ATTR_SLUG := VStr "a"; ATTR_VERSION := VStr "1.0";
             ATTR_NAME := VStr "Add-on a"]}).
  - vm_compute. reflexivity.
  - apply list_elem_of_here.
Defined.

(** ** More on the records of a snapshot *)

Lemma unpack_stats_or_empty (addons_stats : dict) slug stats :
  unpack (py_or (dict_get addons_stats slug) (VDict ∅)) = Return stats →
  stats = match addons_stats !! slug with
          | Some (VDict s) => s
          | _ => ∅
          end.
Proof.
  unfold py_or, dict_get. destruct (addons_stats !! slug) as [v|]; cbn [from_option id].
  - destruct (truthy v) eqn:Htruthy.
    + destruct v; try done. cbn [unpack]. by intros [= <-].
    + cbn [unpack]. intros [= <-]. destruct v as [| | | | |s]; try done.
      cbn [truthy] in Htruthy. apply negb_false_iff, bool_decide_eq_true in Htruthy.
      by apply dom_empty_inv_L in Htruthy.
  - cbn [truthy unpack]. by intros [= <-].
Qed.

Lemma auto_update_or_false (addons_info : dict) slug auto_update :
  get_or (py_or (dict_get addons_info slug) (VDict ∅)) ATTR_AUTO_UPDATE (VBool false)
    = Return auto_update →
  auto_update = match addons_info !! slug with
                | Some (VDict info) => default (VBool false) (info !! ATTR_AUTO_UPDATE)
                | _ => VBool false
                end.
Proof.
  unfold py_or, dict_get. destruct (addons_info !! slug) as [v|]; cbn [from_option id].
  - destruct (truthy v) eqn:Htruthy.
    + destruct v; try done. cbn [get_or]. by intros [= <-].
    + cbn [get_or]. rewrite lookup_empty. cbn [from_option id]. intros [= <-].
      destruct v as [| | | | |info]; try done.
      cbn [truthy] in Htruthy. apply negb_false_iff, bool_decide_eq_true in Htruthy.
      apply dom_empty_inv_L in Htruthy. subst info. by rewrite lookup_empty.
  - cbn [truthy get_or]. rewrite lookup_empty. by intros [= <-].
Qed.

Lemma repository_resolved repositories (d : dict) repository :
  repositories_get repositories (dict_get d ATTR_REPOSITORY)
                   (default (VStr "") (d !! ATTR_REPOSITORY)) = Return repository →
  repository = match d !! ATTR_REPOSITORY with
               | None => VStr ""
               | Some (VStr r) => default (VStr r) (repositories !! r)
               | Some v => v
               end.
Proof.
  unfold dict_get. destruct (d !! ATTR_REPOSITORY) as [v|]; cbn [from_option id].
  - destruct v; cbn [repositories_get]; try done; by intros [= <-].
  - cbn [repositories_get]. by intros [= <-].
Qed.

Lemma addon_record_fields addons_stats addons_info addons_changelogs repositories addon
    slug record :
  addon_record addons_stats addons_info addons_changelogs repositories addon
    = Return (slug, record) →
  ∃ d, addon = VDict d
       ∧ d !! ATTR_SLUG = Some (VStr slug)
       ∧ record !! ATTR_CHANGELOG = Some (dict_get addons_changelogs slug)
       ∧ record !! ATTR_AUTO_UPDATE
         = Some (match addons_info !! slug with
                 | Some (VDict info) => default (VBool false) (info !! ATTR_AUTO_UPDATE)
                 | _ => VBool false
                 end)
       ∧ record !! ATTR_REPOSITORY
         = Some (match d !! ATTR_REPOSITORY with
                 | None => VStr ""
                 | Some (VStr r) => default (VStr r) (repositories !! r)
                 | Some v => v
                 end)
       ∧ ∀ k, k ∉ [ATTR_REPOSITORY; ATTR_CHANGELOG; ATTR_AUTO_UPDATE] →
              record !! k = match addons_stats !! slug with
                            | Some (VDict stats) => (stats ∪ d) !! k
                            | _ => d !! k
                            end.
Proof.
  unfold addon_record.
  destruct addon as [| | | | |d]; try done. cbn [subscript unpack].
  destruct (d !! ATTR_SLUG) as [[| | |slug'| |]|] eqn:Hslug; try done.
  cbn [as_str].
  destruct (unpack (py_or (dict_get addons_stats slug') (VDict ∅))) as [stats|] eqn:Hstats;
    [|done].
  destruct (get_or _ _ _) as [auto_update|] eqn:Hauto; [|done].
  destruct (repositories_get _ _ _) as [repository|] eqn:Hrepo; [|done].
  intros [= <- <-]. exists d.
  apply unpack_stats_or_empty in Hstats. apply auto_update_or_false in Hauto.
  apply repository_resolved in Hrepo.
  split; [done|]. split; [done|].
  split; [by rewrite lookup_insert_ne, lookup_insert_eq by done|].
  split; [by rewrite !lookup_insert_ne, lookup_insert_eq, Hauto by done|].
  split; [by rewrite lookup_insert_eq, Hrepo|].
  intros k Hk. rewrite !not_elem_of_cons in Hk. destruct Hk as (? & ? & ? & _).
  rewrite !lookup_insert_ne by done. unfold dict_merge. rewrite Hstats.
  destruct (addons_stats !! slug') as [[| | | | |s]|]; try done;
    by rewrite (left_id_L ∅ (∪) d).
Qed.

Lemma build_new_data_enrichment w new_data slug record :
  build_new_data w = Return new_data →
  addons new_data !! slug = Some record →
  ∃ listing d,
    listing_of w = Return listing
    ∧ VDict d ∈ listing
    ∧ d !! ATTR_SLUG = Some (VStr slug)
    ∧ record !! ATTR_CHANGELOG
      = Some (dict_get (addon_store w DATA_ADDONS_CHANGELOGS) slug)
    ∧ record !! ATTR_AUTO_UPDATE
      = Some (match addon_store w DATA_ADDONS_INFO !! slug with
              | Some (VDict info) => default (VBool false) (info !! ATTR_AUTO_UPDATE)
              | _ => VBool false
              end)
    ∧ ∀ k, k ∉ [ATTR_REPOSITORY; ATTR_CHANGELOG; ATTR_AUTO_UPDATE] →
           record !! k = match addon_store w DATA_ADDONS_STATS !! slug with
                         | Some (VDict stats) => (stats ∪ d) !! k
                         | _ => d !! k
                         end.
Proof.
  intros Hnd Hrecord.
  apply build_new_data_inv in Hnd as (listing & pairs & repositories & Hl & Hpairs & Hnd).
  rewrite Hnd in Hrecord. apply map_M_Forall2 in Hpairs.
  apply records_of_listing in Hpairs as (_ & _ & Hsrc);
    [|intros addon s r Hx; by apply addon_record_inv in Hx as [Hx _]].
  apply addons_dict_lookup, Hsrc in Hrecord as (addon & Hin & Hrec).
  apply addon_record_fields in Hrec as (d & -> & Hslug & Hcl & Hau & _ & Hother).
  exists listing, d. done.
Qed.

(** X15: how a record of the assembled data comes out of [hass.data]. Its
    changelog is the cached changelog of its slug, or [None]; its
    auto-update flag is the one of the cached info of its slug, or [False]
    when there is no info, or none with that key; its repository is the name
    the store lists for the repository of the listing entry, the value of the
    entry itself when the store does not know it, and the empty string when
    the entry names none. Every other key comes from the cached stats of the
    slug if they have it, and from the listing entry otherwise. *)
Theorem snapshot_record_merge (w : World) (new_data : Snapshot) (slug : string)
    (record : dict) :
  build_new_data w = Return new_data →
  addons new_data !! slug = Some record →
  ∃ listing repos repositories d,
    listing_of w = Return listing
    ∧ iterate (default (VList []) (default ∅ (get_store w) !! "repositories")) = Return repos
    ∧ repositories_of repos ∅ = Return repositories
    ∧ VDict d ∈ listing
    ∧ d !! ATTR_SLUG = Some (VStr slug)
    ∧ record !! ATTR_CHANGELOG
      = Some (dict_get (addon_store w DATA_ADDONS_CHANGELOGS) slug)
    ∧ record !! ATTR_AUTO_UPDATE
      = Some (match addon_store w DATA_ADDONS_INFO !! slug with
              | Some (VDict info) => default (VBool false) (info !! ATTR_AUTO_UPDATE)
              | _ => VBool false
              end)
    ∧ record !! ATTR_REPOSITORY
      = Some (match d !! ATTR_REPOSITORY with
              | None => VStr ""
              | Some (VStr r) => default (VStr r) (repositories !! r)
              | Some v => v
              end)
    ∧ ∀ k, k ∉ [ATTR_REPOSITORY; ATTR_CHANGELOG; ATTR_AUTO_UPDATE] →
           record !! k = match addon_store w DATA_ADDONS_STATS !! slug with
                         | Some (VDict stats) => (stats ∪ d) !! k
                         | _ => d !! k
                         end.
Proof.
  unfold build_new_data.
  destruct (iterate (default (VList []) (default ∅ (get_store w) !! "repositories")))
    as [repos|] eqn:Hrepos; [|done].
  destruct (repositories_of _ _) as [repositories|] eqn:Hrepositories; [|done].
  destruct (iterate (default (VList []) (default ∅ (get_supervisor_info w) !! "addons")))
    as [listing|] eqn:Hlisting; [|done].
  destruct (map_M _ listing) as [pairs|] eqn:Hpairs; [|done].
  destruct (merge_required _ (get_core_stats w)); [|done].
  destruct (merge_required _ (get_supervisor_stats w)); [|done].
  intros [= <-]. cbn [addons]. intros Hrecord.
  apply map_M_Forall2 in Hpairs.
  apply records_of_listing in Hpairs as (_ & _ & Hsrc);
    [|intros addon s r Hx; by apply addon_record_inv in Hx as [Hx _]].
  apply addons_dict_lookup, Hsrc in Hrecord as (addon & Hin & Hrec).
  apply addon_record_fields in Hrec as (d & -> & Hslug & Hcl & Hau & Hrepo & Hother).
  exists listing, repos, repositories, d. done.
Qed.

Lemma snapshot_record_merge_witness :
  default ∅ (addons Samples.assembled !! "a") !! ATTR_CHANGELOG
  = Some (dict_get (addon_store Samples.refreshed DATA_ADDONS_CHANGELOGS) "a").
Proof.
  destruct (snapshot_record_merge Samples.refreshed Samples.assembled "a"
              (default ∅ (addons Samples.assembled !! "a")))
    as (_ & _ & _ & _ & _ & _ & _ & _ & _ & Hchangelog & _).
  - vm_compute. reflexivity.
  - vm_compute. reflexivity.
  - exact Hchangelog.
Defined.

(** X16: in the data a first cycle answers, the changelog of every add-on
    is the one the Supervisor answered in this very cycle ([None] when that
    request failed), and its auto-update flag is the one of the info answered
    in this cycle ([False] when that request failed or the info has no such
    key). *)
Theorem first_cycle_records_are_fresh (hassio : HassIO.t) (w : World)
    (new_data : Snapshot) (slug : string) (record : dict) :
  bool_decide (data w = None) = true →
  out (_async_update_data hassio w) = Return (Some new_data) →
  addons new_data !! slug = Some record →
  record !! ATTR_CHANGELOG
    = Some (fetched VStr (HassIO.get_addon_changelog hassio slug))
  ∧ record !! ATTR_AUTO_UPDATE
    = Some (match HassIO.get_addon_info hassio slug with
            | ApiOk info => default (VBool false) (info !! ATTR_AUTO_UPDATE)
            | ApiError _ => VBool false
            end).
Proof.
  intros Hfirst Hout Hrec.
  apply _async_update_data_returns in Hout as (Hfdr & Hnd & _).
  rewrite Hfirst in Hfdr, Hnd.
  destruct (build_new_data_enrichment _ _ _ _ Hnd Hrec)
    as (listing & d & Hl & Hin & Hslug & -> & -> & _).
  revert Hfdr Hl. rewrite force_data_refresh_unfold.
  destruct (primary_results hassio true w) as [results|]; [|done]. cbv zeta.
  destruct (listing_of _) as [l|] eqn:Hl1; [|done].
  destruct (split_addons l) as [[all_addons started_addons]|] eqn:Hsplit; [|done].
  cbn [out post fst snd]. intros _ Hl.
  unfold listing_of in Hl, Hl1. rewrite store_secondary_other in Hl
    by (rewrite !not_elem_of_cons; repeat split; try done; apply not_elem_of_nil).
  rewrite Hl1 in Hl. injection Hl as ->.
  apply split_addons_spec in Hsplit as [Hall _].
  assert (Hslug_in : slug ∈ all_addons).
  { rewrite Hall. apply list_elem_of_omap. exists (VDict d). split; [done|].
    cbn [slug_of]. by rewrite Hslug. }
  destruct (addon_store_store_secondary hassio true all_addons started_addons
              (store_primary hassio true results w) slug) as (_ & Hc & Hi).
  unfold changelog_targets, info_targets in Hc, Hi. rewrite targets_first in Hc, Hi.
  rewrite decide_True in Hc, Hi by done.
  unfold dict_get. rewrite Hc, Hi. cbn [from_option id]. split; [done|].
  by destruct (HassIO.get_addon_info hassio slug).
Qed.

Lemma first_cycle_records_are_fresh_witness :
  default ∅ (addons Samples.first_data !! "a") !! ATTR_CHANGELOG
  = Some (fetched VStr (HassIO.get_addon_changelog
                          (Samples.supervisor_with [Samples.addon "a" "started"]) "a")).
Proof.
  refine (proj1 (first_cycle_records_are_fresh
                   (Samples.supervisor_with [Samples.addon "a" "started"]) Samples.fresh
                   Samples.first_data "a"
                   (default ∅ (addons Samples.first_data !! "a")) _ _ _)).
  - reflexivity.
  - vm_compute. reflexivity.
  - vm_compute. reflexivity.
Defined.

(** ** The coordinator: construction and forced update *)

Lemma build_new_data_os w new_data :
  build_new_data w = Return new_data →
  os new_data = if is_hass_os w then Some (get_os_info w) else None.
Proof.
  unfold build_new_data.
  destruct (iterate (default (VList []) (default ∅ (get_store w) !! "repositories")));
    [|done].
  destruct (repositories_of _ _); [|done].
  destruct (iterate (default (VList []) (default ∅ (get_supervisor_info w) !! "addons")))
    as [listing|]; [|done].
  destruct (map_M _ listing); [|done].
  destruct (merge_required _ (get_core_stats w)); [|done].
  destruct (merge_required _ (get_supervisor_stats w)); [|done].
  by intros [= <-].
Qed.

(** X17: whether the installation has an OS layer is settled when the
    coordinator is constructed, from the info [hass.data] holds then, and
    not from what the Supervisor answers later. The first cycle of a
    coordinator constructed without such info (no info, no ["hassos"] entry,
    or [None] for it) answers data without the OS part and leaves no OS
    device; constructed with it, the data carries the OS info answered in
    this cycle. *)
Theorem os_layer_fixed_at_construction (hassio : HassIO.t)
    (hass_data : gmap string dict) (dev_reg : gmap (string * string) DeviceEntry)
    (entry_id : string) (x : option Snapshot) :
  out (_async_update_data hassio (__init__ hass_data dev_reg entry_id)) = Return x →
  ∃ new_data,
    x = Some new_data
    ∧ match default ∅ (hass_data !! DATA_INFO) !! "hassos" with
      | None | Some VNone =>
          os new_data = None
          ∧ async_get_device (DOMAIN, "OS")
              (devices (post (_async_update_data hassio
                                (__init__ hass_data dev_reg entry_id)))) = None
      | Some _ =>
          ∃ os_info, HassIO.get_os_info hassio = ApiOk os_info
                     ∧ os new_data = Some (Some os_info)
      end.
Proof.
  remember (__init__ hass_data dev_reg entry_id) as w0 eqn:Hw0.
  assert (Hos : is_hass_os w0
                = match default ∅ (hass_data !! DATA_INFO) !! "hassos" with
                  | None | Some VNone => false
                  | Some _ => true
                  end) by (by rewrite Hw0).
  assert (Hdata0 : data w0 = None) by (by rewrite Hw0).
  clear Hw0. intros Hout.
  apply cycle_completed in Hout as (new_data & w3 & Hfdr & Hnd & Hsame3 & _ & Hx & Hpost).
  apply build_new_data_os in Hnd.
  destruct (force_data_refresh_frame hassio (bool_decide (data w0 = None)) w0)
    as (_ & _ & _ & Hsame & _).
  rewrite Hsame in Hnd.
  destruct (force_data_refresh_os_info _ _ _ Hfdr) as (os_info & Hanswer & Hstored).
  assert (Hno : is_hass_os w0 = false →
                os new_data = None
                ∧ async_get_device (DOMAIN, "OS")
                    (devices (post (_async_update_data hassio w0))) = None).
  { intros Hfalse. split; [by rewrite Hnd, Hfalse|].
    rewrite Hpost. unfold async_get_device, set_devices. cbn [devices].
    apply cleaned_os. destruct Hsame3 as (_ & _ & _ & -> & _). by rewrite Hsame. }
  assert (Hyes : is_hass_os w0 = true →
                 ∃ os_info, HassIO.get_os_info hassio = ApiOk os_info
                            ∧ os new_data = Some (Some os_info)).
  { intros Htrue. exists os_info. split; [done|]. by rewrite Hnd, Htrue, Hstored. }
  exists new_data. split.
  - rewrite Hx. unfold grew. by rewrite Hdata0.
  - destruct (default ∅ (hass_data !! DATA_INFO) !! "hassos") as [[]|]; auto.
Qed.

Lemma os_layer_fixed_at_construction_witness :
  ∃ new_data,
    out (_async_update_data (Samples.supervisor_with []) (__init__ ∅ ∅ "entry"))
    = Return (Some new_data)
    ∧ os new_data = None.
Proof.
  destruct (os_layer_fixed_at_construction (Samples.supervisor_with []) ∅ ∅ "entry"
              (match out (_async_update_data (Samples.supervisor_with [])
                                             (__init__ ∅ ∅ "entry")) with
               | Return x => x
               | Raise _ => None
               end)) as (new_data & Hx & Hos).
  - vm_compute. reflexivity.
  - exists new_data. split.
    + rewrite <- Hx. vm_compute. reflexivity.
    + exact (proj1 Hos).
Defined.

Lemma async_refresh_run hassio w :
  async_refresh hassio w
  = prepend (refresh_updates_events hassio) (super_async_refresh hassio true w).
Proof.
  unfold async_refresh, _async_refresh, refresh_updates_events.
  rewrite run_bind; cbn [negb]. unfold try_except_api, request.
  destruct (HassIO.refresh_updates hassio) as [[]|err]; reflexivity.
Qed.

Lemma super_async_refresh_run hassio log_failures w :
  out (super_async_refresh hassio log_failures w) = Return tt
  ∧ hass_data (post (super_async_refresh hassio log_failures w))
    = hass_data (post (_async_update_data hassio w)).
Proof.
  unfold super_async_refresh.
  destruct (out (_async_update_data hassio w)) as [d|[]]; done.
Qed.

Lemma force_data_refresh_keeps_supervisor hassio first_update w :
  ¬ primary_failed hassio first_update w →
  ∃ sup, HassIO.get_supervisor_info hassio = ApiOk sup
         ∧ get_supervisor_info (post (force_data_refresh hassio first_update w))
           = Some sup.
Proof.
  intros Hok. destruct (primary_not_failed _ _ _ Hok) as [results Hprimary].
  destruct (primary_ok_supervisor _ _ _ _ Hprimary) as (sup & Hsup & Hstored).
  exists sup. split; [done|].
  rewrite force_data_refresh_unfold, Hprimary. cbv zeta.
  destruct (listing_of _) as [l|]; [|done].
  destruct (split_addons l) as [lists|]; [|done]. cbn [post].
  unfold get_supervisor_info. rewrite store_secondary_other; [done|].
  rewrite !not_elem_of_cons; repeat split; try done; apply not_elem_of_nil.
Qed.

Lemma force_info_update_supervisor_failed msg hassio w :
  force_info_update_supervisor (ApiError msg) hassio w
  = mkRun (Raise (HassioAPIError msg)) w [Call EP_supervisor_info].
Proof. unfold force_info_update_supervisor. by rewrite run_bind. Qed.

Lemma force_info_update_supervisor_run info hassio w :
  force_info_update_supervisor (ApiOk info) hassio w
  = prepend (Call EP_supervisor_info :: refresh_updates_events hassio)
            (super_async_refresh hassio true
               (set_hass_data (insert DATA_SUPERVISOR_INFO info) w)).
Proof.
  unfold force_info_update_supervisor. rewrite run_bind. unfold request.
  cbn [out post events api_outcome]. rewrite bind_modify, async_refresh_run.
  unfold prepend. cbn [out post events app]. reflexivity.
Qed.

(** X18: the forced update of the supervisor info. When its own request
    fails, the error leaves the method: nothing is stored and no refresh
    takes place. When it succeeds, the answer is stored and the forced
    refresh follows (its first request asks for the refresh of the known
    updates) and no error leaves the method; the stored answer is still there
    when a primary request of that refresh fails, and it is replaced by the
    supervisor info the refresh itself got when none fails. *)
Theorem forced_supervisor_info (answer : api_result dict) (hassio : HassIO.t) (w : World) :
  match answer with
  | ApiError msg =>
      force_info_update_supervisor answer hassio w
      = mkRun (Raise (HassioAPIError msg)) w [Call EP_supervisor_info]
  | ApiOk info =>
      out (force_info_update_supervisor answer hassio w) = Return tt
      ∧ (∃ evs, events (force_info_update_supervisor answer hassio w)
                = Call EP_supervisor_info :: Call EP_refresh_updates :: evs)
      ∧ (primary_failed hassio (bool_decide (data w = None)) w →
         get_supervisor_info (post (force_info_update_supervisor answer hassio w))
         = Some info)
      ∧ (¬ primary_failed hassio (bool_decide (data w = None)) w →
         ∃ sup, HassIO.get_supervisor_info hassio = ApiOk sup
                ∧ get_supervisor_info (post (force_info_update_supervisor answer hassio w))
                  = Some sup)
  end.
Proof.
  destruct answer as [info|msg]; [|apply force_info_update_supervisor_failed].
  rewrite force_info_update_supervisor_run.
  set (w' := set_hass_data (insert DATA_SUPERVISOR_INFO info) w).
  destruct (super_async_refresh_run hassio true w') as [Hout Hdata].
  cbn [prepend out post events].
  split; [done|]. split; [unfold refresh_updates_events; eauto|].
  unfold get_supervisor_info. rewrite Hdata. split.
  - intros Hfailed.
    destruct (_async_update_data_primary_failed hassio w' Hfailed) as [msg Hrun].
    rewrite Hrun. cbn [post]. apply lookup_insert_eq.
  - intros Hok. rewrite cycle_hass_data.
    by apply (force_data_refresh_keeps_supervisor hassio _ w').
Qed.

(** ** The helpers of the module *)

Lemma replace_char_spec old new s :
  String.length (replace_char old new s) = String.length s
  ∧ (old ≠ new → old ∉ String.list_ascii_of_string (replace_char old new s))
  ∧ (replace_char old new s = s ↔ old = new ∨ old ∉ String.list_ascii_of_string s)
  ∧ replace_char old new (replace_char old new s) = replace_char old new s.
Proof.
  induction s as [|c s (IHlen & IHnot & IHfix & IHidem)];
    cbn [replace_char String.length String.list_ascii_of_string].
  { repeat split; try done.
    - intros _. apply not_elem_of_nil.
    - intros _. destruct (decide (old = new)); [by left | right; apply not_elem_of_nil]. }
  split; [by rewrite IHlen|]. split; [|split].
  - intros Hne. rewrite not_elem_of_cons. split; [|by apply IHnot].
    destruct (Ascii.eqb_spec c old) as [->|Hc]; congruence.
  - rewrite not_elem_of_cons. split.
    + intros [= Hc Hs]. apply IHfix in Hs as [->|Hs]; [by left|].
      destruct (Ascii.eqb_spec c old) as [->|Hne]; [by left|]. right. split; congruence.
    + intros Hor.
      assert (Hs : replace_char old new s = s) by (apply IHfix; tauto).
      rewrite Hs. f_equal.
      destruct (Ascii.eqb_spec c old) as [->|Hne]; [|done].
      destruct Hor as [->|[? _]]; done.
  - rewrite IHidem. f_equal.
    destruct (Ascii.eqb_spec c old) as [->|Hne].
    + destruct (Ascii.eqb_spec new old); congruence.
    + by destruct (Ascii.eqb_spec c old).
Qed.

(** X19: the host name of an add-on has the length of its slug and no
    underscore; it is the slug itself exactly when the slug has no
    underscore, and taking the host name of a host name changes nothing. *)
Theorem hostname_has_no_underscore (addon_slug : string) :
  String.length (hostname_from_addon_slug addon_slug) = String.length addon_slug
  ∧ (("_"%char) ∉ String.list_ascii_of_string (hostname_from_addon_slug addon_slug))
  ∧ (hostname_from_addon_slug addon_slug = addon_slug
     ↔ ("_"%char) ∉ String.list_ascii_of_string addon_slug)
  ∧ hostname_from_addon_slug (hostname_from_addon_slug addon_slug)
    = hostname_from_addon_slug addon_slug.
Proof.
  unfold hostname_from_addon_slug.
  destruct (replace_char_spec "_"%char "-"%char addon_slug) as (Hlen & Hnot & Hfix & Hidem).
  split; [done|]. split; [by apply Hnot|]. split; [|done].
  rewrite Hfix. split; [|by right]. by intros [|].
Qed.

Lemma slug_tail_spec s :
  slug_tail s = true
  ↔ ∃ body, (s = body ∨ s = body +:+ String "010"%char "")
            ∧ Forall (λ c, slug_char c = true) (String.list_ascii_of_string body).
Proof.
  split.
  - induction s as [|c rest IH]; cbn [slug_tail].
    + intros _. exists "". split; [by left | constructor].
    + destruct (slug_char c) eqn:Hc.
      * intros Hrest. destruct (IH Hrest) as (body & Hs & Hall).
        exists (String c body). split.
        -- destruct Hs as [->| ->]; [by left | by right].
        -- cbn [String.list_ascii_of_string]. by constructor.
      * intros H. apply andb_true_iff in H as [Hnl Hrest].
        apply Ascii.eqb_eq in Hnl. apply String.eqb_eq in Hrest. subst.
        exists "". split; [by right | constructor].
  - intros (body & Hs & Hall). revert s Hs.
    induction body as [|c body IH]; intros s Hs.
    + destruct Hs as [->| ->]; reflexivity.
    + cbn [String.list_ascii_of_string] in Hall. apply Forall_cons in Hall as [Hc Hall].
      destruct Hs as [->| ->];
        [|change (String c body +:+ String "010"%char "")
            with (String c (body +:+ String "010"%char ""))];
        cbn [slug_tail]; rewrite Hc; apply IH; auto.
Qed.

Lemma matches_slug_spec s :
  matches_slug s = true
  ↔ ∃ body, body ≠ ""
            ∧ (s = body ∨ s = body +:+ String "010"%char "")
            ∧ Forall (λ c, slug_char c = true) (String.list_ascii_of_string body).
Proof.
  unfold matches_slug. split.
  - destruct s as [|c rest]; [done|]. intros H.
    apply andb_true_iff in H as [Hc Hrest].
    apply slug_tail_spec in Hrest as (body & Hs & Hall).
    exists (String c body). split; [done|]. split.
    + destruct Hs as [->| ->]; [by left | by right].
    + cbn [String.list_ascii_of_string]. by constructor.
  - intros (body & Hne & Hs & Hall). destruct body as [|c body]; [done|].
    cbn [String.list_ascii_of_string] in Hall. apply Forall_cons in Hall as [Hc Hall].
    destruct Hs as [->| ->];
      [|change (String c body +:+ String "010"%char "")
          with (String c (body +:+ String "010"%char ""))];
      cbv beta iota; rewrite Hc; cbn [andb]; apply slug_tail_spec; exists body; auto.
Qed.

(** X20: what the validator of add-on slugs accepts, and what it answers.
    A value is accepted exactly when it is a string made of one or more
    characters of [-_.A-Za-z0-9], possibly followed by one final newline
    (which the [$] of the expression lets through), and, when a running
    instance holds the info of the add-ons, is the slug of one of them. The
    answer is the value itself, newline included. *)
Theorem valid_addon_accepts (v : value) (hass : option World) (s : string) :
  valid_addon v hass = Accepted s
  ↔ v = VStr s
    ∧ (∃ body, body ≠ ""
               ∧ (s = body ∨ s = body +:+ String "010"%char "")
               ∧ Forall (λ c, slug_char c = true) (String.list_ascii_of_string body))
    ∧ (∀ w addons, hass = Some w → get_addons_info w = Some addons → s ∈ dom addons).
Proof.
  rewrite <- matches_slug_spec. unfold valid_addon, VALID_ADDON_SLUG, get_addons_info.
  split.
  - destruct v as [| | |s'| |]; try done.
    destruct (matches_slug s') eqn:Hm; [|done].
    destruct hass as [w|].
    + destruct (hass_data w !! DATA_ADDONS_INFO) as [addons|] eqn:Haddons.
      * case_bool_decide as Hin; [|done]. intros [= <-].
        split; [done|]. split; [done|]. intros w' addons' [= <-]. rewrite Haddons.
        by intros [= <-].
      * intros [= <-]. split; [done|]. split; [done|]. intros w' addons' [= <-].
        by rewrite Haddons.
    + intros [= <-]. split; [done|]. split; [done|]. by intros w' addons' [=].
  - intros (-> & Hm & Hknown). rewrite Hm.
    destruct hass as [w|]; [|done].
    destruct (hass_data w !! DATA_ADDONS_INFO) as [addons|] eqn:Haddons; [|done].
    rewrite bool_decide_eq_true_2; [done|]. by apply (Hknown w).
Qed.

Lemma hostname_of_tail s :
  slug_tail s = true →
  Forall (λ c, (slug_char c = true ∧ c ≠ "_"%char) ∨ c = "010"%char)
         (String.list_ascii_of_string (hostname_from_addon_slug s)).
Proof.
  unfold hostname_from_addon_slug.
  induction s as [|c rest IH]; cbn [slug_tail replace_char String.list_ascii_of_string];
    [constructor|].
  destruct (slug_char c) eqn:Hc.
  - intros Hrest. constructor; [|by apply IH]. left.
    destruct (Ascii.eqb_spec c "_"%char) as [->|Hne]; [by split | done].
  - intros H. apply andb_true_iff in H as [Hnl Hrest].
    apply Ascii.eqb_eq in Hnl. apply String.eqb_eq in Hrest. subst.
    cbn. constructor; [by right | constructor].
Qed.

(** X21: the host name of a slug the validator accepts is made of
    characters of [-.A-Za-z0-9] only (the underscore is gone), apart from the
    final newline the validator may have let through. *)
Theorem hostname_of_valid_slug (v : value) (hass : option World) (s : string) :
  valid_addon v hass = Accepted s →
  Forall (λ c, (slug_char c = true ∧ c ≠ "_"%char) ∨ c = "010"%char)
         (String.list_ascii_of_string (hostname_from_addon_slug s)).
Proof.
  intros Hvalid.
  assert (Hm : matches_slug s = true).
  { unfold valid_addon, VALID_ADDON_SLUG in Hvalid.
    destruct v as [| | |s'| |]; try done.
    destruct (matches_slug s') eqn:Hm; [|done].
    destruct hass as [w|]; [|by injection Hvalid as <-].
    destruct (hass_data w !! DATA_ADDONS_INFO); [|by injection Hvalid as <-].
    case_bool_decide; [by injection Hvalid as <- | done]. }
  apply hostname_of_tail. unfold matches_slug in Hm.
  destruct s as [|c rest]; [done|]. apply andb_true_iff in Hm as [Hc Hrest].
  cbn [slug_tail]. by rewrite Hc.
Qed.

Lemma hostname_of_valid_slug_witness :
  Forall (λ c, (slug_char c = true ∧ c ≠ "_"%char) ∨ c = "010"%char)
         (String.list_ascii_of_string (hostname_from_addon_slug "core_ssh")).
Proof.
  apply (hostname_of_valid_slug (VStr "core_ssh") None "core_ssh").
  vm_compute. reflexivity.
Defined.

Lemma partition_head_spec sep s :
  (sep ∉ String.list_ascii_of_string (partition_head sep s))
  ∧ (s = partition_head sep s
     ∨ ∃ rest, s = partition_head sep s +:+ String sep rest).
Proof.
  induction s as [|c s [IHnot IHs]]; cbn [partition_head].
  { split; [apply not_elem_of_nil | by left]. }
  destruct (Ascii.eqb_spec c sep) as [->|Hne].
  - split; [apply not_elem_of_nil|]. right. by exists s.
  - cbn [String.list_ascii_of_string]. split.
    + rewrite not_elem_of_cons. split; [congruence | done].
    + destruct IHs as [<-|[rest Hrest]]; [by left|]. right. exists rest.
      change (String c (partition_head sep s) +:+ String sep rest)
        with (String c (partition_head sep s +:+ String sep rest)).
      by rewrite <- Hrest.
Qed.

(** X22: the address of the Supervisor is [None] exactly when the variable
    SUPERVISOR is not set; otherwise it is what precedes the first colon of
    the variable: it has no colon, and the variable is that address alone or
    that address, a colon, and a rest. (An empty variable gives an empty
    address, not [None].) *)
Theorem supervisor_ip_is_host_part (environ : gmap string string) :
  match environ !! "SUPERVISOR" with
  | None => get_supervisor_ip environ = None
  | Some v =>
      ∃ ip, get_supervisor_ip environ = Some ip
            ∧ ((":"%char) ∉ String.list_ascii_of_string ip)
            ∧ (v = ip ∨ ∃ rest, v = ip +:+ String ":"%char rest)
  end.
Proof.
  unfold get_supervisor_ip. destruct (environ !! "SUPERVISOR") as [v|]; [|done].
  exists (partition_head ":"%char v). split; [done|]. apply partition_head_spec.
Qed.

Lemma check_environment_spec names environ entries :
  (check_environment names environ entries = None
   ↔ ∀ env, env ∈ names → ∃ s, environ !! env = Some s ∧ s ≠ "")
  ∧ ∀ evs, check_environment names environ entries = Some evs →
      ∃ env, env ∈ names
             ∧ default "" (environ !! env) = ""
             ∧ evs = LogSetupError ("Missing " +:+ env +:+ " environment variable")
                     :: match entries with
                        | [] => []
                        | entry :: _ => [RemoveEntry entry]
                        end.
Proof.
  induction names as [|env names [IHnone IHsome]]; cbn [check_environment].
  { split; [|done]. split; [|done]. intros _ env Hin. by apply elem_of_nil in Hin. }
  destruct (String.eqb_spec (default "" (environ !! env)) "") as [Hempty|Hset];
    cbn [negb].
  - split.
    + split; [done|]. intros Hall.
      destruct (Hall env (list_elem_of_here _ _)) as (s & Hs & Hne).
      rewrite Hs in Hempty. done.
    + intros evs [= <-]. exists env. split; [apply list_elem_of_here | done].
  - split.
    + rewrite IHnone. split.
      * intros Hall env' Hin. apply elem_of_cons in Hin as [->|Hin]; [|by apply Hall].
        destruct (environ !! env) as [s|]; [|done]. by exists s.
      * intros Hall env' Hin. by apply Hall, list_elem_of_further.
    + intros evs Hevs. destruct (IHsome evs Hevs) as (env' & Hin & Hrest).
      exists env'. split; [by apply list_elem_of_further | done].
Qed.

(** X23: the check that opens the set-up lets it go on exactly when both
    SUPERVISOR and SUPERVISOR_TOKEN are set to a non-empty value. Otherwise
    one error is logged, which names a variable that is unset or empty, and
    the removal of the first config entry of the domain is requested, if
    there is one; nothing else happens. *)
Theorem local_setup_needs_both_variables (environ : gmap string string)
    (entries : list string) :
  (check_local_setup environ entries = None
   ↔ (∃ s, environ !! "SUPERVISOR" = Some s ∧ s ≠ "")
     ∧ (∃ t, environ !! "SUPERVISOR_TOKEN" = Some t ∧ t ≠ ""))
  ∧ ∀ evs, check_local_setup environ entries = Some evs →
      ∃ env, env ∈ ["SUPERVISOR"; "SUPERVISOR_TOKEN"]
             ∧ default "" (environ !! env) = ""
             ∧ evs = LogSetupError ("Missing " +:+ env +:+ " environment variable")
                     :: match entries with
                        | [] => []
                        | entry :: _ => [RemoveEntry entry]
                        end.
Proof.
  unfold check_local_setup.
  destruct (check_environment_spec ["SUPERVISOR"; "SUPERVISOR_TOKEN"] environ entries)
    as [Hnone Hsome].
  split; [|done]. rewrite Hnone. split.
  - intros Hall. split; apply Hall; rewrite !elem_of_cons; auto.
  - intros [Hs Ht] env Hin. rewrite !elem_of_cons, elem_of_nil in Hin.
    destruct Hin as [->|[->|[]]]; done.
Qed.

(** ** The closures of the set-up *)

(** X24: a run of [update_info_data] sends its six requests whatever they
    answer, and schedules the next run last. When all six answer, each
    payload is stored under its key and no other key of [hass.data] changes;
    when one fails, [hass.data] is left exactly as it was (no payload of this
    run is stored, not even those that arrived) and the failure is logged as
    a warning. *)
Theorem update_info_data_all_or_nothing (answers : InfoAnswers)
    (data : gmap string dict) :
  (∃ rest, (update_info_data answers data).2
           = ((Fetch <$> ["info"; "host_info"; "store"; "core_info"; "supervisor_info";
                          "os_info"]) ++ rest)%list
           ∧ last rest = Some (CallLater "update_info_data")
           ∧ ((∃ info host store core sup os,
                 answers = mkInfoAnswers (ApiOk info) (ApiOk host) (ApiOk store)
                                         (ApiOk core) (ApiOk sup) (ApiOk os)
                 ∧ rest = [CallLater "update_info_data"]
                 ∧ (update_info_data answers data).1 !! DATA_INFO = Some info
                 ∧ (update_info_data answers data).1 !! DATA_HOST_INFO = Some host
                 ∧ (update_info_data answers data).1 !! DATA_STORE = Some store
                 ∧ (update_info_data answers data).1 !! DATA_CORE_INFO = Some core
                 ∧ (update_info_data answers data).1 !! DATA_SUPERVISOR_INFO = Some sup
                 ∧ (update_info_data answers data).1 !! DATA_OS_INFO = Some os
                 ∧ ∀ key, key ∉ [DATA_INFO; DATA_HOST_INFO; DATA_STORE; DATA_CORE_INFO;
                                 DATA_SUPERVISOR_INFO; DATA_OS_INFO] →
                          (update_info_data answers data).1 !! key = data !! key)
              ∨ (∃ err,
                   ApiError err ∈ [answer_info answers; answer_host_info answers;
                                   answer_store answers; answer_core_info answers;
                                   answer_supervisor_info answers; answer_os_info answers]
                   ∧ rest = [LogSetupWarning ("Can't read Supervisor data: " +:+ err);
                             CallLater "update_info_data"]
                   ∧ (update_info_data answers data).1 = data))).
Proof.
  unfold update_info_data, info_requests.
  destruct answers as [[info|e1] [host|e2] [store|e3] [core|e4] [sup|e5] [os|e6]];
    cbn [fmap list_fmap fst snd gather_answers answer_info answer_host_info answer_store
         answer_core_info answer_supervisor_info answer_os_info app zip zip_with foldl];
    eexists; (split; [reflexivity|]); (split; [reflexivity|]);
    try (right; eexists; split; [|split; reflexivity];
         rewrite !elem_of_cons; tauto).
  left. exists info, host, store, core, sup, os.
  split; [done|]. split; [done|].
  repeat (split; [by repeat (rewrite lookup_insert_ne by done); rewrite lookup_insert_eq|]).
  intros key Hkey. rewrite !not_elem_of_cons in Hkey.
  destruct Hkey as (? & ? & ? & ? & ? & ? & _).
  by rewrite !lookup_insert_ne by done.
Qed.

Lemma push_configs_sent updates : ∀ last_timezone,
  ∃ sent,
    (push_configs updates last_timezone).1 = UpdateTimezone <$> sent
    ∧ sent `sublist_of` updates.*1
    ∧ (∀ tz, head sent = Some tz → Some tz ≠ last_timezone)
    ∧ (∀ i a b, sent !! i = Some a → sent !! S i = Some b → a ≠ b)
    ∧ (push_configs updates last_timezone).2
      = default last_timezone (last (Some <$> updates.*1)).
Proof.
  induction updates as [|[tz answer] updates IH]; intros last_timezone.
  { exists []. cbn. repeat split; try done. }
  cbn [push_configs]. unfold push_config.
  case_bool_decide as Hsame; cbn [fst snd].
  - destruct (IH last_timezone) as (sent & Hev & Hsub & Hhead & Hadj & Hfinal).
    exists sent. split; [done|].
    split; [rewrite fmap_cons; by apply sublist_cons|]. split; [done|]. split; [done|].
    rewrite Hfinal. rewrite !fmap_cons. cbn [fst].
    destruct updates as [|u updates]; [by cbn|]. reflexivity.
  - destruct (IH (Some tz)) as (sent & Hev & Hsub & Hhead & Hadj & Hfinal).
    exists (tz :: sent). split; [cbn; by rewrite Hev|].
    split; [rewrite fmap_cons; by apply sublist_skip|].
    split; [cbn; by intros tz' [= <-]|]. split.
    + intros [|i] a b; cbn.
      * intros [= <-] Hb <-. destruct (Hhead tz); [by destruct sent | done].
      * apply Hadj.
    + rewrite Hfinal. destruct updates as [|u updates]; [reflexivity|].
      rewrite !fmap_cons, last_cons_cons.
      destruct (last (Some u.1 :: _)) eqn:Hlast; [done|]. by apply last_None in Hlast.
Qed.

(** X25: over any series of configuration updates, whatever the requests
    answer, the timezones that [push_config] sends are timezones of the
    updates in their order, none of them equal to the one before it, and the
    first one different from the value the variable had. In particular a
    timezone whose request failed is not sent again until the timezone has
    changed: the answers do not enter in what is sent. The variable ends with
    the timezone of the last update. *)
Theorem timezone_pushed_once_per_change (updates : list (string * api_result unit))
    (last_timezone : option string) :
  (∃ sent,
     (push_configs updates last_timezone).1 = UpdateTimezone <$> sent
     ∧ sent `sublist_of` updates.*1
     ∧ (∀ tz, head sent = Some tz → Some tz ≠ last_timezone)
     ∧ (∀ i a b, sent !! i = Some a → sent !! S i = Some b → a ≠ b))
  ∧ (push_configs updates last_timezone).2
    = default last_timezone (last (Some <$> updates.*1))
  ∧ ∀ updates', updates'.*1 = updates.*1 →
      push_configs updates' last_timezone = push_configs updates last_timezone.
Proof.
  destruct (push_configs_sent updates last_timezone)
    as (sent & Hev & Hsub & Hhead & Hadj & Hfinal).
  split; [by exists sent|]. split; [done|].
  clear. revert last_timezone.
  induction updates as [|[tz answer] updates IH]; intros last_timezone updates' Heq.
  - by destruct updates'.
  - destruct updates' as [|[tz' answer'] updates']; [done|].
    rewrite !fmap_cons in Heq. cbn [fst] in Heq. injection Heq as -> Heq.
    cbn [push_configs]. unfold push_config.
    case_bool_decide; cbn [fst snd]; by rewrite (IH _ updates' Heq).
Qed.

Lemma MAP_SERVICE_API_lookup service_name api_endpoint :
  MAP_SERVICE_API !! service_name = Some api_endpoint →
  (service_name, api_endpoint)
  ∈ [ (SERVICE_ADDON_START, mkEndpoint "/addons/{addon}/start" (Some 60) false);
      (SERVICE_ADDON_STOP, mkEndpoint "/addons/{addon}/stop" (Some 60) false);
      (SERVICE_ADDON_RESTART, mkEndpoint "/addons/{addon}/restart" (Some 60) false);
      (SERVICE_ADDON_UPDATE, mkEndpoint "/addons/{addon}/update" (Some 60) false);
      (SERVICE_ADDON_STDIN, mkEndpoint "/addons/{addon}/stdin" (Some 60) false);
      (SERVICE_HOST_SHUTDOWN, mkEndpoint "/host/shutdown" (Some 60) false);
      (SERVICE_HOST_REBOOT, mkEndpoint "/host/reboot" (Some 60) false);
      (SERVICE_BACKUP_FULL, mkEndpoint "/backups/new/full" None true);
      (SERVICE_BACKUP_PARTIAL, mkEndpoint "/backups/new/partial" None true);
      (SERVICE_RESTORE_FULL, mkEndpoint "/backups/{slug}/restore/full" None true);
      (SERVICE_RESTORE_PARTIAL, mkEndpoint "/backups/{slug}/restore/partial" None true) ].
Proof. unfold MAP_SERVICE_API. apply elem_of_list_to_map_2. Qed.

(** X26: a service call. What the Supervisor answers to the command does
    not enter in the outcome: a failure of the command is suppressed. A
    service that is not in the table raises [KeyError] and sends nothing. A
    service of the table other than the stdin service returns normally after
    exactly one command, with the template and the timeout of the table and
    the add-on and the slug of the call; its payload is [None] for the add-on
    and host services, and for the backup and restore services (which have no
    timeout) it is the data of the call without its add-on and slug entries.
    The stdin service sends the input of the call, and raises [KeyError]
    without sending anything when the call has none. *)
Theorem service_call_outcome (service_name : string) (service_data : dict)
    (answer : api_result unit) :
  async_service_handler service_name service_data answer
  = async_service_handler service_name service_data (ApiOk tt)
  ∧ (MAP_SERVICE_API !! service_name = None →
     async_service_handler service_name service_data answer
     = (Raise (KeyError service_name), []))
  ∧ (∀ api_endpoint,
       MAP_SERVICE_API !! service_name = Some api_endpoint →
       service_name ≠ SERVICE_ADDON_STDIN →
       ∃ payload,
         async_service_handler service_name service_data answer
         = (Return tt,
            [SendCommand (command api_endpoint) (dict_get service_data ATTR_ADDON)
                         (dict_get service_data ATTR_SLUG) payload
                         (timeout api_endpoint)])
         ∧ ((payload = VNone ∧ timeout api_endpoint = Some 60
             ∧ service_name ∈ [SERVICE_ADDON_START; SERVICE_ADDON_STOP;
                               SERVICE_ADDON_RESTART; SERVICE_ADDON_UPDATE;
                               SERVICE_HOST_SHUTDOWN; SERVICE_HOST_REBOOT])
            ∨ (payload = VDict (delete ATTR_SLUG (delete ATTR_ADDON service_data))
               ∧ timeout api_endpoint = None
               ∧ service_name ∈ [SERVICE_BACKUP_FULL; SERVICE_BACKUP_PARTIAL;
                                 SERVICE_RESTORE_FULL; SERVICE_RESTORE_PARTIAL])))
  ∧ async_service_handler SERVICE_ADDON_STDIN service_data answer
    = match service_data !! ATTR_INPUT with
      | None => (Raise (KeyError ATTR_INPUT), [])
      | Some input =>
          (Return tt,
           [SendCommand "/addons/{addon}/stdin" (dict_get service_data ATTR_ADDON)
                        (dict_get service_data ATTR_SLUG) input (Some 60)])
      end.
Proof.
  assert (Hslug : dict_get (delete ATTR_ADDON service_data) ATTR_SLUG
                  = dict_get service_data ATTR_SLUG).
  { unfold dict_get. by rewrite lookup_delete_ne. }
  split; [reflexivity|]. split; [|split].
  - intros Hnone. unfold async_service_handler. by rewrite Hnone.
  - intros api_endpoint Hlookup Hstdin.
    unfold async_service_handler. rewrite Hlookup, Hslug.
    apply MAP_SERVICE_API_lookup in Hlookup.
    rewrite !elem_of_cons, elem_of_nil in Hlookup.
    destruct Hlookup as [H|[H|[H|[H|[H|[H|[H|[H|[H|[H|[H|[]]]]]]]]]]]];
      injection H as -> ->; try done; cbn [String.eqb Ascii.eqb Bool.eqb pass_data
        command timeout]; eexists; (split; [reflexivity|]);
      rewrite !elem_of_cons; tauto.
  - unfold async_service_handler.
    assert (Hstdin : MAP_SERVICE_API !! SERVICE_ADDON_STDIN
                     = Some (mkEndpoint "/addons/{addon}/stdin" (Some 60) false))
      by (vm_compute; reflexivity).
    rewrite Hstdin, Hslug. cbn [String.eqb Ascii.eqb Bool.eqb command timeout subscript].
    rewrite !lookup_delete_ne by done.
    by destruct (service_data !! ATTR_INPUT).
Qed.

Lemma update_info_data_state answers data :
  (∀ results, gather_answers (info_requests answers).*2.*2 = ApiOk results →
     ∃ os_info, answer_os_info answers = ApiOk os_info
                ∧ (update_info_data answers data).1 !! DATA_OS_INFO = Some os_info)
  ∧ (∀ err, gather_answers (info_requests answers).*2.*2 = ApiError err →
       (update_info_data answers data).1 = data).
Proof.
  unfold update_info_data, info_requests.
  destruct answers as [[info|e1] [host|e2] [store|e3] [core|e4] [sup|e5] [os|e6]];
    cbn [fmap list_fmap fst snd gather_answers answer_info answer_host_info answer_store
         answer_core_info answer_supervisor_info answer_os_info app zip zip_with foldl];
    (split; [intros results [= <-] | intros err [= <-]; reflexivity]).
  exists os. split; [done|]. apply lookup_insert_eq.
Qed.

(** X27: the set-up of the hardware integration after a run of
    [update_info_data]. When the six requests of that run answered, no retry
    is scheduled, and a flow is started exactly for the integration the table
    gives for the board of the OS info answered in that run (none when the
    info names no board, or one the table does not have). When the run
    failed, the set-up behaves as on the [hass.data] from before the run: it
    schedules a retry and starts nothing if no OS info is held yet. *)
Theorem hardware_integration_after_info (answers : InfoAnswers)
    (data : gmap string dict) :
  match gather_answers (info_requests answers).*2.*2 with
  | ApiOk _ =>
      ∃ os_info,
        answer_os_info answers = ApiOk os_info
        ∧ (CallLater "async_setup_hardware_integration_job"
           ∉ (_async_setup_hardware_integration (update_info_data answers data).1).2)
        ∧ ∀ hw_integration,
            FlowInit hw_integration
              ∈ (_async_setup_hardware_integration (update_info_data answers data).1).2
            ↔ ∃ board, os_info !! "board" = Some (VStr board)
                       ∧ HARDWARE_INTEGRATIONS !! board = Some hw_integration
  | ApiError _ =>
      _async_setup_hardware_integration (update_info_data answers data).1
      = _async_setup_hardware_integration data
      ∧ (data !! DATA_OS_INFO = None →
         _async_setup_hardware_integration data
         = (Return tt, [CallLater "async_setup_hardware_integration_job"]))
  end.
Proof.
  destruct (update_info_data_state answers data) as [Hok Hfail].
  destruct (gather_answers (info_requests answers).*2.*2) as [results|err] eqn:Hgather.
  - destruct (Hok results eq_refl) as (os_info & Hanswer & Hstored).
    exists os_info. split; [done|].
    unfold _async_setup_hardware_integration. rewrite Hstored. unfold dict_get.
    destruct (os_info !! "board") as [[| | |board| |]|] eqn:Hboard; cbn [from_option id snd];
      try (split; [apply not_elem_of_nil|]; intros hw; rewrite elem_of_nil;
           split; [done | by intros (bd & [=] & _)]).
    destruct (HARDWARE_INTEGRATIONS !! board) as [hw'|] eqn:Hhw; cbn [snd].
    + split; [rewrite elem_of_cons, elem_of_nil; by intros [|]|].
      intros hw. rewrite elem_of_cons, elem_of_nil. split.
      * intros [[= ->]|[]]. by exists board.
      * intros (bd & [= <-] & Hb). rewrite Hhw in Hb. injection Hb as ->. by left.
    + split; [apply not_elem_of_nil|]. intros hw. rewrite elem_of_nil.
      split; [done|]. intros (bd & [= <-] & Hb). by rewrite Hhw in Hb.
  - rewrite (Hfail err eq_refl). split; [done|].
    intros Hnone. unfold _async_setup_hardware_integration. by rewrite Hnone.
Qed.

(** * The data of a cycle, for every cycle that gets past the refresh *)























(** C5, as the code has it: every cycle that completes has assembled data
    whose add-on keys are exactly the slugs of the listing the Supervisor
    answered in that cycle (every entry of which has a slug). This holds both
    when the cycle answers that data and when, a slug having appeared that
    the data of the cycle before does not have, it answers the empty data
    instead of it. The slug a record carries is the one of its key as long
    as the stats held for that slug have no entry named "slug" (the stats are
    merged over the listing entry). *)
Theorem snapshot_addons_follow_listing (hassio : HassIO.t) (w : World)
    (x : option Snapshot) :
  out (_async_update_data hassio w) = Return x →
  ∃ new_data sup listing,
    build_new_data (post (force_data_refresh hassio (bool_decide (data w = None)) w))
      = Return new_data
    ∧ x = (if grew new_data w then None else Some new_data)
    ∧ HassIO.get_supervisor_info hassio = ApiOk sup
    ∧ iterate (default (VList []) (sup !! "addons")) = Return listing
    ∧ Forall (λ addon, is_Some (slug_of addon)) listing
    ∧ dom (addons new_data) = listed_slugs listing
    ∧ ∀ slug record,
        addons new_data !! slug = Some record →
        (∀ stats, addon_store (post (_async_update_data hassio w)) DATA_ADDONS_STATS
                    !! slug = Some (VDict stats) →
                  stats !! ATTR_SLUG = None) →
        record !! ATTR_SLUG = Some (VStr slug).
Proof.
  intros Hout.
  apply cycle_completed in Hout as (new_data & w3 & Hfdr & Hnd & _ & _ & Hx & _).
  destruct (force_data_refresh_ok_supervisor _ _ _ Hfdr) as (sup & Hsup & Hstored).
  destruct (build_new_data_addons _ _ Hnd) as (listing & Hl & Hall & Hdom & Hrec).
  exists new_data, sup, listing. split; [done|]. split; [done|]. split; [done|]. split.
  { unfold listing_of in Hl. by rewrite Hstored in Hl. }
  split; [done|]. split; [done|].
  intros slug record Hlookup Hstats. apply (Hrec slug record Hlookup).
  intros stats Hs. apply Hstats. rewrite <- Hs. unfold addon_store.
  by rewrite cycle_hass_data.
Qed.

Lemma snapshot_addons_follow_listing_witness :
  ∃ new_data sup listing,
    build_new_data
      (post (force_data_refresh
               (Samples.supervisor_with
                  [Samples.addon "a" "started"; Samples.addon "c" "started"])
               (bool_decide (data Samples.after_first = None)) Samples.after_first))
      = Return new_data
    ∧ None = (if grew new_data Samples.after_first then None else Some new_data)
    ∧ HassIO.get_supervisor_info
        (Samples.supervisor_with [Samples.addon "a" "started"; Samples.addon "c" "started"])
      = ApiOk sup
    ∧ iterate (default (VList []) (sup !! "addons")) = Return listing
    ∧ Forall (λ addon, is_Some (slug_of addon)) listing
    ∧ dom (addons new_data) = listed_slugs listing
    ∧ ∀ slug record,
        addons new_data !! slug = Some record →
        (∀ stats,
           addon_store
             (post (_async_update_data
                      (Samples.supervisor_with
                         [Samples.addon "a" "started"; Samples.addon "c" "started"])
                      Samples.after_first))
             DATA_ADDONS_STATS !! slug = Some (VDict stats) →
           stats !! ATTR_SLUG = None) →
        record !! ATTR_SLUG = Some (VStr slug).
Proof.
  apply (snapshot_addons_follow_listing
           (Samples.supervisor_with
              [Samples.addon "a" "started"; Samples.addon "c" "started"])
           Samples.after_first None).
  vm_compute. reflexivity.
Defined.



